(** * area_map_script: PLSSID-based selection and clipping

    A shallow embedding of [area_map_script.py] and the properties of its
    request parser, its two feature matchers, its mask builder and its
    clip step.

    Conventions of the embedding.
    - Python [str] is [string]; the character classes, the case
      mappings and the pattern below are Python's on ASCII text, and
      a statement that depends on them for a whole text says so
      ([ascii_text]).
    - Python [int] is [N]: every integer of the script comes from
      [int] applied to a run of digits. [int] is the interpreter's
      on a run that is not too long ([short_tokens]); on a longer one
      the interpreter may refuse with [ValueError].
    - A [dict] is a [gmap]; a pandas [Series] is a [list] of cells, a
      boolean mask a [list bool].
    - An exception is a [Raise] result.
    - Diagnostic printing is left out. *)

From Stdlib Require Import NArith Ascii String.
From stdpp Require Import base option list strings gmap sorting.

Local Open Scope N_scope.

(** ** Python text primitives *)

Definition code (c : ascii) : N := N_of_ascii c.

(** [str.split()] without arguments splits on these: TAB, LF, VT, FF, CR,
    FS, GS, RS, US and the space, and on no other ASCII character
    (beyond ASCII it splits on more, such as U+0085 and U+00A0). *)
Definition is_space (c : ascii) : bool :=
  ((9 <=? code c) && (code c <=? 13)) || ((28 <=? code c) && (code c <=? 32)).

Definition is_digit (c : ascii) : bool :=
  (48 <=? code c) && (code c <=? 57).

Definition lower_char (c : ascii) : ascii :=
  if (65 <=? code c) && (code c <=? 90) then ascii_of_N (code c + 32) else c.

Definition upper_char (c : ascii) : ascii :=
  if (97 <=? code c) && (code c <=? 122) then ascii_of_N (code c - 32) else c.

Fixpoint str_map (f : ascii → ascii) (s : string) : string :=
  match s with
  | EmptyString => EmptyString
  | String c s' => String (f c) (str_map f s')
  end.

(** [s.lower()] and [s.upper()] on ASCII text, character by character
    (beyond ASCII the interpreter's mappings can change the length:
    the upper case of U+00DF is [SS]). *)
Definition lower : string → string := str_map lower_char.
Definition upper : string → string := str_map upper_char.

Fixpoint str_forall (p : ascii → bool) (s : string) : bool :=
  match s with
  | EmptyString => true
  | String c s' => p c && str_forall p s'
  end.

(** [s.isdigit()] on ASCII text: at least one character, and all of
    them digits (beyond ASCII it also holds of characters that [int]
    refuses, such as U+00B2). *)
Definition isdigit (s : string) : bool :=
  match s with
  | EmptyString => false
  | String _ _ => str_forall is_digit s
  end.

(** [s.replace(ch, by)] for one-character [ch] and [by]. *)
Definition replace (ch by_ : ascii) : string → string :=
  str_map (λ c, if Ascii.eqb c ch then by_ else c).

(** [s.split()]: [cur] is the token being read. *)
Fixpoint split_from (cur : string) (s : string) : list string :=
  match s with
  | EmptyString => if String.eqb cur "" then [] else [cur]
  | String c s' =>
      if is_space c
      then (if String.eqb cur "" then split_from "" s' else cur :: split_from "" s')
      else split_from (cur +:+ String c "") s'
  end.

Definition split : string → list string := split_from "".

(** [int(s)] on a run of ASCII digits that the interpreter takes: it
    refuses, with [ValueError], a run longer than its limit (4300
    digits unless set otherwise, never set below 640). *)
Fixpoint int_from (acc : N) (s : string) : N :=
  match s with
  | EmptyString => acc
  | String c s' => int_from (acc * 10 + (code c - 48)) s'
  end.

Definition int : string → N := int_from 0.

(** [str(n)]: the decimal digits of [n], most significant first. *)
Definition digit_char (d : N) : ascii := ascii_of_N (48 + d).

Fixpoint decimal_from (fuel : nat) (n : N) (acc : string) : string :=
  match fuel with
  | O => acc
  | S fuel' =>
      let acc' := String (digit_char (n mod 10)) acc in
      if n / 10 =? 0 then acc' else decimal_from fuel' (n / 10) acc'
  end.

Definition str_of_int (n : N) : string :=
  decimal_from (S (N.to_nat (N.log2 n))) n "".

Fixpoint zeros (k : nat) : string :=
  match k with
  | O => EmptyString
  | S k' => String "0" (zeros k')
  end.

(** [f"{n:0{width}d}"]: padded with zeros on the left up to [width];
    longer numbers are not cut. *)
Definition format_0d (width : nat) (n : N) : string :=
  let s := str_of_int n in
  zeros (width - String.length s) +:+ s.

(** [s[start:stop]] with Python's treatment of negative and
    out-of-range bounds. *)
Definition clamp_index (len : nat) (i : Z) : nat :=
  if (i <? 0)%Z then Z.to_nat (i + Z.of_nat len) else Nat.min (Z.to_nat i) len.

Definition slice (start stop : Z) (s : string) : string :=
  let len := String.length s in
  let a := clamp_index len start in
  let b := clamp_index len stop in
  String.substring a (b - a) s.

(** pandas [Series.str[i]] for [0 <= i]: the one-character string at
    [i], or a missing value when the string is too short. *)
Definition str_get (i : nat) (s : string) : option string :=
  (λ c, String c "") <$> String.get i s.

(** ** Results and exceptions *)

Inductive Exn : Type :=
  | FileNotFoundError
  | ValueError
  | KeyError (field : string)
  | RuntimeError.

Inductive Result (A : Type) : Type :=
  | Ok (a : A)
  | Raise (e : Exn).
Arguments Ok {A} a.
Arguments Raise {A} e.

(** ** The request parser *)

(** A township/range key [(t_num, t_dir, r_num, r_dir)]. *)
Definition Key : Type := N * string * N * string.

(** [tuple] comparison, component by component. *)
Definition key_compare (a b : Key) : comparison :=
  let '(t1, td1, r1, rd1) := a in
  let '(t2, td2, r2, rd2) := b in
  match N.compare t1 t2 with
  | Eq =>
      match String.compare td1 td2 with
      | Eq =>
          match N.compare r1 r2 with
          | Eq => String.compare rd1 rd2
          | c => c
          end
      | c => c
      end
  | c => c
  end.

Definition key_le (a b : Key) : Prop := key_compare a b ≠ Gt.

Global Instance key_le_dec : RelDecision key_le.
Proof. intros a b. unfold key_le. apply _. Defined.

(** The longest run of digits at the head of [s], and what follows. *)
Fixpoint span_digits (s : string) : string * string :=
  match s with
  | EmptyString => (EmptyString, EmptyString)
  | String c s' =>
      if is_digit c
      then let '(ds, r) := span_digits s' in (String c ds, r)
      else (EmptyString, s)
  end.

Definition char_is (c : ascii) (letter : ascii) : bool :=
  Ascii.eqb (upper_char c) letter.

(** [tr_pattern.match(tok)] for
    [^T(\d+)([NS])\-R(\d+)([EW])$] under [re.IGNORECASE], on an ASCII
    token: the four groups, when the token matches. *)
Definition tr_pattern_match (tok : string)
  : option (string * string * string * string) :=
  match tok with
  | String t s1 =>
      if char_is t "T" then
        match span_digits s1 with
        | (String d ds, String ns (String dash (String r s2))) =>
            if (char_is ns "N" || char_is ns "S")
               && Ascii.eqb dash "-" && char_is r "R" then
              match span_digits s2 with
              | (String e es, String ew EmptyString) =>
                  if char_is ew "E" || char_is ew "W"
                  then Some (String d ds, String ns "", String e es, String ew "")
                  else None
              | _ => None
              end
            else None
        | _ => None
        end
      else None
  | EmptyString => None
  end.

(** The key a matching token denotes. *)
Definition tr_key (tok : string) : option Key :=
  match tr_pattern_match tok with
  | Some (g1, g2, g3, g4) => Some (int g1, upper g2, int g3, upper g4)
  | None => None
  end.

(** The local variables of [parse_config_map] that its loops update. *)
Record ScanState : Type := {
  i : nat;
  county : option string;
  trs_sections : gmap Key (list N)
}.

(** [trs_sections[key].append(sec_num)] *)
Definition append_section (key : Key) (sec_num : N)
    (d : gmap Key (list N)) : gmap Key (list N) :=
  alter (λ l, l ++ [sec_num]) key d.

(** The inner loop: zero or more [Section <num>] pairs. *)
Fixpoint section_loop (fuel : nat) (tokens : list string) (key : Key)
    (i : nat) (d : gmap Key (list N)) : nat * gmap Key (list N) :=
  match fuel with
  | O => (i, d)
  | S fuel' =>
      match tokens !! i with
      | Some tok =>
          if String.eqb (lower tok) "section" then
            let i := (i + 1)%nat in
            match tokens !! i with
            | Some num =>
                if isdigit num
                then section_loop fuel' tokens key (i + 1)%nat
                       (append_section key (int num) d)
                else (i, d)
            | None => (i, d)
            end
          else (i, d)
      | None => (i, d)
      end
  end.

(** The outer loop [while i < len(tokens)]. *)
Fixpoint scan_loop (fuel : nat) (tokens : list string) (st : ScanState)
  : ScanState :=
  match fuel with
  | O => st
  | S fuel' =>
      match tokens !! i st with
      | None => st
      | Some tok =>
          if String.eqb (lower tok) "county"
             && bool_decide (i st + 1 < length tokens)%nat then
            scan_loop fuel' tokens
              {| i := i st + 2;
                 county := tokens !! (i st + 1)%nat;
                 trs_sections := trs_sections st |}
          else
            match tr_key tok with
            | Some key =>
                let d :=
                  match trs_sections st !! key with
                  | None => <[key := []]> (trs_sections st)
                  | Some _ => trs_sections st
                  end in
                let '(i', d') :=
                  section_loop fuel' tokens key (i st + 1)%nat d in
                scan_loop fuel' tokens
                  {| i := i'; county := county st; trs_sections := d' |}
            | None =>
                scan_loop fuel' tokens
                  {| i := i st + 1;
                     county := county st;
                     trs_sections := trs_sections st |}
            end
      end
  end.

(** Punctuation is turned into spaces before the text is split. *)
Definition tokenize (text : string) : list string :=
  split (fold_left (λ t ch, replace ch " " t) [":"; ","; ";"; "."]%char text).

(** The scan over the tokens of [text]; every turn of either loop moves
    the cursor forward, so [length tokens] turns are enough (see
    [scan_loop_fuel]). *)
Definition scan (text : string) : ScanState :=
  let tokens := tokenize text in
  scan_loop (length tokens) tokens
    {| i := 0; county := None; trs_sections := ∅ |}.

(** The files of the working directory: the text of each path that
    exists. *)
Definition FileSystem : Type := string → option string.

Definition parse_config_map (fs : FileSystem) (config_path : string)
  : Result (option string * list Key * gmap Key (list N)) :=
  match fs config_path with
  | None => Raise FileNotFoundError
  | Some text =>
      let st := scan text in
      if bool_decide (trs_sections st = ∅) then Raise ValueError
      else
        let trs_list := merge_sort key_le (map fst (map_to_list (trs_sections st))) in
        Ok (county st, trs_list, trs_sections st)
  end.

(** ** Feature layers *)

(** One row of a layer: its index label, its geometry and its
    attributes. [attr f name] is the text that [astype(str)] gives for
    the cell of column [name]. *)
Record Feature (Geometry : Type) : Type := {
  fid : nat;
  geometry : Geometry;
  attr : string → string
}.
Arguments fid {Geometry} _.
Arguments geometry {Geometry} _.
Arguments attr {Geometry} _ _.

(** A [GeoDataFrame]: the names of its attribute columns, its
    coordinate reference system and its rows in order. The geometry
    column is always there, so the frame is [empty] exactly when it has
    no row. *)
Record GeoDataFrame (Geometry CRS : Type) : Type := {
  columns : list string;
  crs : CRS;
  features : list (Feature Geometry)
}.
Arguments columns {Geometry CRS} _.
Arguments crs {Geometry CRS} _.
Arguments features {Geometry CRS} _.

Definition PLSSID_FIELD_NAME : string := "PLSSID".
Definition FRSTDIVID_FIELD_NAME : string := "FRSTDIVID".

(** [s == v], cell by cell; a missing cell equals nothing. *)
Definition series_eq {A} `{EqDecision A} (s : list A) (v : A) : list bool :=
  map (λ x, bool_decide (x = v)) s.

(** [s.isin(values)] *)
Definition series_isin (s : list string) (values : gset string) : list bool :=
  map (λ x, bool_decide (x ∈ values)) s.

(** [m1 & m2] and [m1 | m2] on masks *)
Definition mask_and : list bool → list bool → list bool := zip_with andb.
Definition mask_or : list bool → list bool → list bool := zip_with orb.

(** [pd.Series(False, index=gdf.index)] *)
Definition mask_false {A} (rows : list A) : list bool :=
  replicate (length rows) false.

(** The rows of [rows] where [mask] holds, in order. *)
Fixpoint rows_where {A} (rows : list A) (mask : list bool) : list A :=
  match rows, mask with
  | r :: rows', b :: mask' =>
      if b then r :: rows_where rows' mask' else rows_where rows' mask'
  | _, _ => []
  end.

Section Matchers.
Context {Geometry CRS : Type}.
Local Abbreviation Frame := (GeoDataFrame Geometry CRS).

(** [gdf[name].astype(str)] *)
Definition column_str (gdf : Frame) (name : string) : list string :=
  map (λ f, attr f name) (features gdf).

(** [gdf[mask]]: a new frame with the rows where the mask holds. *)
Definition select_rows (gdf : Frame) (mask : list bool) : Frame :=
  {| columns := columns gdf;
     crs := crs gdf;
     features := rows_where (features gdf) mask |}.

(** [gdf.empty] *)
Definition empty (gdf : Frame) : bool :=
  match features gdf with
  | [] => true
  | _ :: _ => false
  end.

(** The four series cut out of the PLSSID column. *)
Record TrsSeries : Type := {
  t_code3 : list string;
  t_dir : list (option string);
  r_code3 : list string;
  r_dir : list (option string)
}.

Definition trs_series (pl : list string) : TrsSeries :=
  {| t_code3 := map (slice 4 7) pl;
     t_dir := map (λ s, upper <$> str_get 8 s) pl;
     r_code3 := map (slice 9 12) pl;
     r_dir := map (λ s, upper <$> str_get 13 s) pl |}.

(** The mask of one [(t_num, tdir, r_num, rdir)]. *)
Definition trs_mask (cols : TrsSeries) (key : Key) : list bool :=
  let '(t_num, tdir, r_num, rdir) := key in
  let t_str := format_0d 3 t_num in
  let r_str := format_0d 3 r_num in
  mask_and (series_eq (t_code3 cols) t_str)
    (mask_and (series_eq (t_dir cols) (Some tdir))
       (mask_and (series_eq (r_code3 cols) r_str)
          (series_eq (r_dir cols) (Some rdir)))).

(** What the loop of a matcher holds: the frame it reads and the
    mask it builds. *)
Record MatchState : Type := {
  frame : Frame;
  mask_total : list bool
}.

(** One turn of the loop of [filter_by_plssid_trs]:
    [mask_total |= mask]. *)
Definition filter_step (cols : TrsSeries) (st : MatchState) (key : Key)
  : MatchState :=
  {| frame := frame st;
     mask_total := mask_or (mask_total st) (trs_mask cols key) |}.

Definition filter_run (gdf : Frame) (trs_list : list Key) : MatchState :=
  let pl := column_str gdf PLSSID_FIELD_NAME in
  let cols := trs_series pl in
  fold_left (filter_step cols) trs_list
    {| frame := gdf; mask_total := mask_false (features gdf) |}.

Definition filter_by_plssid_trs (gdf : Frame) (trs_list : list Key)
  : Result Frame :=
  if bool_decide (PLSSID_FIELD_NAME ∈ columns gdf) then
    let st := filter_run gdf trs_list in
    Ok (select_rows (frame st) (mask_total st))
  else Raise (KeyError PLSSID_FIELD_NAME).

(** [{f"{s:02d}" for s in sec_list}] *)
Definition sec_strs (sec_list : list N) : gset string :=
  list_to_set (map (format_0d 2) sec_list).

(** One turn of the loop of [select_sections_by_trs_and_numbers] over
    [trs_sections.items()]. *)
Definition sections_step (cols : TrsSeries) (sec_code2 : list string)
    (st : MatchState) (item : Key * list N) : MatchState :=
  let '(key, sec_list) := item in
  match sec_list with
  | [] => st
  | _ :: _ =>
      {| frame := frame st;
         mask_total :=
           mask_or (mask_total st)
             (mask_and (trs_mask cols key)
                (series_isin sec_code2 (sec_strs sec_list))) |}
  end.

(** The items are visited in the order of [map_to_list]; the masks
    are joined by [|], so the order does not show in the result (see
    [sections_fold_order]). *)
Definition sections_run (sections_gdf : Frame)
    (trs_sections : gmap Key (list N)) : MatchState :=
  let pl := column_str sections_gdf PLSSID_FIELD_NAME in
  let fr := column_str sections_gdf FRSTDIVID_FIELD_NAME in
  let cols := trs_series pl in
  let sec_code2 := map (slice (-3) (-1)) fr in
  fold_left (sections_step cols sec_code2) (map_to_list trs_sections)
    {| frame := sections_gdf; mask_total := mask_false (features sections_gdf) |}.

Definition select_sections_by_trs_and_numbers (sections_gdf : Frame)
    (trs_sections : gmap Key (list N)) : Result Frame :=
  if bool_decide (PLSSID_FIELD_NAME ∈ columns sections_gdf) then
    if bool_decide (FRSTDIVID_FIELD_NAME ∈ columns sections_gdf) then
      let st := sections_run sections_gdf trs_sections in
      Ok (select_rows (frame st) (mask_total st))
    else Raise (KeyError FRSTDIVID_FIELD_NAME)
  else Raise (KeyError PLSSID_FIELD_NAME).

End Matchers.

(** ** The mask builder and the clip step *)

(** A call into the geospatial library, in the order the script makes
    them. *)
Inductive GeoCall (Geometry CRS : Type) : Type :=
  | CallReadFile (path : string)
  | CallToCrs (gdf : GeoDataFrame Geometry CRS) (target : CRS)
  | CallClip (gdf mask : GeoDataFrame Geometry CRS).
Arguments CallReadFile {Geometry CRS} path.
Arguments CallToCrs {Geometry CRS} gdf target.
Arguments CallClip {Geometry CRS} gdf mask.

Section Geo.
Context {Geometry CRS : Type} `{EqDecision CRS}.
Local Abbreviation Frame := (GeoDataFrame Geometry CRS).

(** The geospatial library, as the script uses it: [gpd.read_file],
    [GeoDataFrame.dissolve] (the union of all geometries),
    [GeoDataFrame.explode] (one row per single part),
    [GeoDataFrame.to_crs] between two systems and [gpd.clip]; and the
    [crs] of a frame that has no system, [None]. *)
Variable read_file : string → Frame.
Variable dissolve : Frame → Frame.
Variable explode : Frame → Frame.
Variable to_crs : Frame → CRS → Frame.
Variable gpd_clip : Frame → Frame → Frame.
Variable no_crs : CRS.

Definition dissolve_townships_for_clip (townships : Frame) : Result Frame :=
  if empty townships then Raise RuntimeError
  else
    let dissolved := dissolve townships in
    let dissolved := explode dissolved in
    Ok dissolved.

(** [clip_parcels] with the library calls it makes.
    [clip_gdf.to_crs(parcels.crs)] raises [ValueError] when [clip_gdf]
    has no system (its geometries cannot be transformed) and when
    [parcels.crs] is [None] (no target is given); [gpd.clip] is not
    reached then. *)
Definition clip_parcels (parcel_gpkg : string) (clip_gdf : Frame)
    (label : string) : list (GeoCall Geometry CRS) * Result Frame :=
  let parcels := read_file parcel_gpkg in
  if empty parcels then ([CallReadFile parcel_gpkg], Ok parcels)
  else if bool_decide (crs clip_gdf ≠ crs parcels) then
    if bool_decide (crs clip_gdf = no_crs ∨ crs parcels = no_crs) then
      ([CallReadFile parcel_gpkg; CallToCrs clip_gdf (crs parcels)],
       Raise ValueError)
    else
      let clip_gdf' := to_crs clip_gdf (crs parcels) in
      ([CallReadFile parcel_gpkg;
        CallToCrs clip_gdf (crs parcels);
        CallClip parcels clip_gdf'],
       Ok (gpd_clip parcels clip_gdf'))
  else
    ([CallReadFile parcel_gpkg; CallClip parcels clip_gdf],
     Ok (gpd_clip parcels clip_gdf)).

End Geo.

(** ** Notions used by the statements *)

(** The keys of the tokens of township/range form, in text order. *)
Definition tr_keys (tokens : list string) : list Key := omap tr_key tokens.

Definition is_county (tok : string) : bool := String.eqb (lower tok) "county".
Definition is_section (tok : string) : bool := String.eqb (lower tok) "section".

(** Some token of township/range form comes right after a [County]
    token. *)
Fixpoint tr_after_county (tokens : list string) : bool :=
  match tokens with
  | prev :: rest =>
      match rest with
      | tok :: _ => (is_county prev && bool_decide (is_Some (tr_key tok)))
                    || tr_after_county rest
      | [] => false
      end
  | [] => false
  end.

(** The tokens with the county names blanked. The scan takes the token
    right after a [County] token as the county name, whatever it is,
    unless that [County] token is itself taken as a name; [_] stands
    in for a name: it is no key, no keyword and no number. *)
Fixpoint blank_names (tokens : list string) : list string :=
  match tokens with
  | tok :: rest =>
      if is_county tok then
        match rest with
        | _ :: rest' => tok :: "_"%string :: blank_names rest'
        | [] => [tok]
        end
      else tok :: blank_names rest
  | [] => []
  end.

(** An ASCII character, and a text of ASCII characters: on such a text
    [is_space], [isdigit], [lower], [upper] and [tr_pattern_match] are
    the interpreter's [str.split], [str.isdigit], [str.lower],
    [str.upper] and [tr_pattern.match]. *)
Definition ascii_char (c : ascii) : bool := code c <? 128.
Definition ascii_text : string → bool := str_forall ascii_char.

(** No token of the text has more than 640 characters. [int()] refuses
    a run of digits longer than the interpreter's limit, which is 4300
    unless set otherwise and can be set no lower than 640; it takes
    every run of ASCII digits within the limit. *)
Definition short_tokens (text : string) : bool :=
  forallb (λ tok, String.length tok <=? 640)%nat (tokenize text).


(** The numbers of the [Section <num>] pairs at the head of [tokens]. *)
Fixpoint section_run (tokens : list string) : list N :=
  match tokens with
  | tok :: rest =>
      match rest with
      | num :: rest' =>
          if is_section tok && isdigit num then int num :: section_run rest'
          else []
      | [] => []
      end
  | [] => []
  end.

(** How many tokens the inner loop passes over: the pairs, and a last
    [Section] that no number follows. *)
Fixpoint run_len (tokens : list string) : nat :=
  match tokens with
  | tok :: rest =>
      if is_section tok then
        match rest with
        | num :: rest' => if isdigit num then S (S (run_len rest')) else 1%nat
        | [] => 1%nat
        end
      else 0%nat
  | [] => 0%nat
  end.

(** The section numbers that follow the appearances of [k], joined in
    text order. *)
Fixpoint sections_of (k : Key) (tokens : list string) : list N :=
  match tokens with
  | tok :: rest =>
      (if bool_decide (tr_key tok = Some k) then section_run rest else [])
      ++ sections_of k rest
  | [] => []
  end.

(** The PLSSID [raw] carries the township and range of [key]. *)
Definition plssid_matches (key : Key) (raw : string) : bool :=
  let '(t_num, tdir, r_num, rdir) := key in
  bool_decide (slice 4 7 raw = format_0d 3 t_num)
  && (bool_decide (upper <$> str_get 8 raw = Some tdir)
  && (bool_decide (slice 9 12 raw = format_0d 3 r_num)
  && bool_decide (upper <$> str_get 13 raw = Some rdir))).

(** The row [f] is one of the listed sections of the item's key. *)
Definition item_matches {Geometry} (f : Feature Geometry)
    (item : Key * list N) : bool :=
  match item.2 with
  | [] => false
  | _ :: _ =>
      plssid_matches item.1 (attr f PLSSID_FIELD_NAME)
      && bool_decide (slice (-3) (-1) (attr f FRSTDIVID_FIELD_NAME) ∈ sec_strs item.2)
  end.

(** The row [f] carries one of the keys of [K]. *)
Definition row_in_keys {Geometry} (K : list Key) (f : Feature Geometry) : bool :=
  existsb (λ key, plssid_matches key (attr f PLSSID_FIELD_NAME)) K.

(** The row [f] is a listed section of one of the items. *)
Definition row_in_items {Geometry} (items : list (Key * list N))
    (f : Feature Geometry) : bool :=
  existsb (item_matches f) items.

(** ** Sample data *)

Definition newline : string := String (ascii_of_N 10) "".

Definition sample_feature (n : nat) (plssid frstdivid : string) : Feature unit :=
  {| fid := n;
     geometry := tt;
     attr := λ name,
       if String.eqb name "PLSSID" then plssid
       else if String.eqb name "FRSTDIVID" then frstdivid
       else "" |}.

Definition sample_sections : GeoDataFrame unit N :=
  {| columns := ["PLSSID"; "FRSTDIVID"];
     crs := 26913;
     features :=
       [ sample_feature 0 "CO060050N0660W0" "CO060050N0660W0SN010";
         sample_feature 1 "CO060050N0660W0" "CO060050N0660W0SN120";
         sample_feature 2 "CO060330N0190W0" "CO060330N0190W0SN100";
         sample_feature 3 "CO06" "SN100" ] |}.

Definition sample_request : gmap Key (list N) :=
  {[ (5, "N", 66, "W") := [12; 100]; (33, "N", 19, "W") := [] ]}.

Definition sample_keys : list Key := [(5, "N", 66, "W"); (33, "N", 19, "W")].

(** A PLSSID of township 55 N, range 66 W in the layout of the script's
    docstring: four characters of state and meridian, three township
    digits, a filler, the township direction, three range digits, a
    filler, the range direction, and whatever follows. *)
Definition plssid_55N_66W (p0 p1 p2 p3 c7 c12 : ascii) (tail : string) : string :=
  String p0 (String p1 (String p2 (String p3
    (String "0" (String "5" (String "5" (String c7
      (String "N"
        (String "0" (String "6" (String "6" (String c12
          (String "W" tail))))))))))))).

Definition scenario_text : string :=
  "County Larimer" +:+ newline +:+ "T33N-R19W Section 10 Section 12".

(** A working directory that holds [config.map] only. *)
Definition sample_fs (text : string) : FileSystem :=
  λ path, if String.eqb path "config.map" then Some text else None.

(** Texts with a token of township/range form that the scan never
    reads as a key. *)
Definition county_key_text : string := "County T33N-R19W".
Definition county_key_sections_text : string := "county T1N-R1W Section 3".

(** A text that names one key twice, in two spellings. *)
Definition repeated_key_text : string :=
  "T33N-R19W Section 10 t033n-r019w Section 12 T5S-R66E".

(** The same after two [County] tokens: the second is the county name,
    the key that follows is a key. *)
Definition county_repeated_key_text : string :=
  "County County T33N-R19W Section 10 t033n-r019w Section 12 T5S-R66E".

(** ** Further notions *)

(** The punctuation [tokenize] turns into spaces. *)
Definition is_punct (c : ascii) : bool :=
  Ascii.eqb c ":" || Ascii.eqb c "," || Ascii.eqb c ";" || Ascii.eqb c ".".

(** A character a token can hold. *)
Definition token_char (c : ascii) : bool := negb (is_space c) && negb (is_punct c).

(** [f"T{t_num}{tdir}-R{r_num}{rdir}"]: a key the way the script prints
    it in its messages. *)
Definition key_text (key : Key) : string :=
  let '(t_num, tdir, r_num, rdir) := key in
  String "T" (str_of_int t_num +:+ tdir
    +:+ String "-" (String "R" (str_of_int r_num +:+ rdir))).

(** The directions a key of the parser can hold. *)
Definition key_dirs_ok (key : Key) : Prop :=
  let '(_, tdir, _, rdir) := key in
  (tdir = "N" ∨ tdir = "S") ∧ (rdir = "E" ∨ rdir = "W").

(** A PLSSID in the layout of the script's docstring for township
    [t_num] [td], range [r_num] [rd]: four characters of state and
    meridian, the township number on three digits, a filler, the
    township direction, the range number on three digits, a filler,
    the range direction, and whatever follows. *)
Definition plssid_of (p0 p1 p2 p3 : ascii) (t_num : N) (c7 td : ascii)
    (r_num : N) (c12 rd : ascii) (tail : string) : string :=
  String p0 (String p1 (String p2 (String p3
    (format_0d 3 t_num +:+ String c7 (String td
      (format_0d 3 r_num +:+ String c12 (String rd tail))))))).

(** A FRSTDIVID the way the script reads it: whatever comes first, the
    section number on two digits, and one last character. *)
Definition frstdivid_of (head : string) (s : N) (last_ : ascii) : string :=
  head +:+ format_0d 2 s +:+ String last_ "".

(** ** The orchestrator *)

(** The paths of the script; [~] stands for [Path.home()]. *)
Definition BASE_GIS_DIR : string := "~/Dropbox/GIS/COLORADO/".
Definition TOWNSHIP_GPKG : string :=
  BASE_GIS_DIR +:+ "ESPG26913_BLM_Colorado_Townships.gpkg".
Definition SECTION_GPKG : string :=
  BASE_GIS_DIR +:+ "ESPG26913_BLM_Colorado_Sections.gpkg".
Definition LARIMER_GPKG : string := BASE_GIS_DIR +:+ "ESPG26913_Larimer_Parcels.gpkg".
Definition WELD_GPKG : string := BASE_GIS_DIR +:+ "ESPG26913_Weld_Parcels.gpkg".
Definition TEMPLATE_PROJECT : string := "~/Dropbox/GIS/AREA_MAP_TEMPLATE.qgz".

(** The command line: [--config] and [--output]. *)
Record Args : Type := {
  arg_config : string;
  arg_output : option string
}.

Definition default_args : Args :=
  {| arg_config := "config.map"; arg_output := None |}.

(** What [main] does to the file system and the processes, in order:
    [Path.unlink], [GeoDataFrame.to_file], [shutil.copy] and
    [subprocess.Popen]. *)
Inductive Effect (Geometry CRS : Type) : Type :=
  | Unlink (path : string)
  | ToFile (gdf : GeoDataFrame Geometry CRS) (path layer mode : string)
  | CopyFile (src dst : string)
  | Popen (argv : list string).
Arguments Unlink {Geometry CRS} path.
Arguments ToFile {Geometry CRS} gdf path layer mode.
Arguments CopyFile {Geometry CRS} src dst.
Arguments Popen {Geometry CRS} argv.

(** The frames [main] holds when it ends, the path it wrote to and its
    actions, in order. *)
Record Report (Geometry CRS : Type) : Type := {
  townships_sel : GeoDataFrame Geometry CRS;
  sections_all_tr : GeoDataFrame Geometry CRS;
  sections_sel : GeoDataFrame Geometry CRS;
  larimer_clipped : GeoDataFrame Geometry CRS;
  weld_clipped : GeoDataFrame Geometry CRS;
  larimer_sections_clipped : GeoDataFrame Geometry CRS;
  weld_sections_clipped : GeoDataFrame Geometry CRS;
  out_path : string;
  effects : list (Effect Geometry CRS)
}.
Arguments townships_sel {Geometry CRS} _.
Arguments sections_all_tr {Geometry CRS} _.
Arguments sections_sel {Geometry CRS} _.
Arguments larimer_clipped {Geometry CRS} _.
Arguments weld_clipped {Geometry CRS} _.
Arguments larimer_sections_clipped {Geometry CRS} _.
Arguments weld_sections_clipped {Geometry CRS} _.
Arguments out_path {Geometry CRS} _.
Arguments effects {Geometry CRS} _.

Definition bind {A B} (r : Result A) (k : A → Result B) : Result B :=
  match r with
  | Ok a => k a
  | Raise e => Raise e
  end.

(** The truth value of [args.output] and of [county]: a string that is
    there and not empty. *)
Definition truthy (o : option string) : bool :=
  match o with
  | Some s => negb (String.eqb s "")
  | None => false
  end.

(** The layers a run wrote, in order: path, layer name, mode and
    frame. *)
Definition layers_written {Geometry CRS} (effs : list (Effect Geometry CRS))
  : list (string * string * string * GeoDataFrame Geometry CRS) :=
  omap (λ e, match e with
             | ToFile gdf path layer mode => Some (path, layer, mode, gdf)
             | _ => None
             end) effs.

(** What the first action that fails raises, when the operating
    system answers [effect_error] to each action. *)
Definition first_error {Geometry CRS}
    (effect_error : Effect Geometry CRS → option Exn)
    (effs : list (Effect Geometry CRS)) : option Exn :=
  head (omap effect_error effs).

(** The name of a layer written. *)
Definition layer_name {Geometry CRS}
    (w : string * string * string * GeoDataFrame Geometry CRS) : string :=
  w.1.1.2.

(** The names [main] gives its layers, in the order it writes them. *)
Definition layer_names : list string :=
  ["townships"; "sections"; "sections_target"; "larimer_parcels";
   "weld_parcels"; "larimer_parcels_sections"; "weld_parcels_sections"].

Section Main.
Context {Geometry CRS : Type} `{EqDecision CRS}.
Local Abbreviation Frame := (GeoDataFrame Geometry CRS).

(** The geospatial library as in [Geo], the [CRS] value [None], and
    what the run finds around it: the text files, the paths that exist
    when the run starts, the path [cwd / name] of a name, whether the
    template project is there when the layers are written, and what
    the operating system answers to each action: the exception it
    raises, if it does ([subprocess.Popen] raises [FileNotFoundError]
    when there is no [qgis] to start). The four layers are there to
    read. *)
Variable read_file : string → Frame.
Variable dissolve : Frame → Frame.
Variable explode : Frame → Frame.
Variable to_crs : Frame → CRS → Frame.
Variable gpd_clip : Frame → Frame → Frame.
Variable no_crs : CRS.
Variable fs : FileSystem.
Variable path_exists : string → bool.
Variable cwd : string → string.
Variable template_exists : bool.
Variable effect_error : Effect Geometry CRS → option Exn.

(** [gpd.GeoDataFrame(geometry=[], crs=...)] with the system of
    [clipped], or none when [clipped] has no row. *)
Definition placeholder (clipped : Frame) : Frame :=
  {| columns := [];
     crs := if negb (empty clipped) then crs clipped else no_crs;
     features := [] |}.

(** [gdf.to_file(out_path, layer=..., mode="a")] unless [gdf.empty]. *)
Definition append_layer (gdf : Frame) (path layer : string)
  : list (Effect Geometry CRS) :=
  if negb (empty gdf) then [ToFile gdf path layer "a"] else [].

Definition main (args : Args) : Result (Report Geometry CRS) :=
  let config_path := cwd (arg_config args) in
  bind (parse_config_map fs config_path) (λ '(county, trs_list, trs_sections),
  let townships_all := read_file TOWNSHIP_GPKG in
  bind (filter_by_plssid_trs townships_all trs_list) (λ townships_sel,
  if empty townships_sel then Raise RuntimeError else
  let sections_all := read_file SECTION_GPKG in
  bind (filter_by_plssid_trs sections_all trs_list) (λ sections_all_tr,
  bind (select_sections_by_trs_and_numbers sections_all_tr trs_sections)
    (λ sections_sel,
  bind (dissolve_townships_for_clip dissolve explode townships_sel)
    (λ townships_union,
  bind (if empty sections_sel then Ok None
        else bind (dissolve_townships_for_clip dissolve explode sections_sel)
               (λ u, Ok (Some u)))
    (λ sections_union,
  let clip := clip_parcels read_file to_crs gpd_clip no_crs in
  bind (clip LARIMER_GPKG townships_union "Larimer").2 (λ larimer_clipped,
  bind (clip WELD_GPKG townships_union "Weld").2 (λ weld_clipped,
  bind (match sections_union with
        | Some sections_union =>
            bind (clip LARIMER_GPKG sections_union "Larimer (sections)").2
              (λ larimer_sections_clipped,
            bind (clip WELD_GPKG sections_union "Weld (sections)").2
              (λ weld_sections_clipped,
            Ok (larimer_sections_clipped, weld_sections_clipped)))
        | None => Ok (placeholder larimer_clipped, placeholder weld_clipped)
        end)
    (λ '(larimer_sections_clipped, weld_sections_clipped),
  let out_path :=
    if truthy (arg_output args) then cwd (default "" (arg_output args))
    else
      let base_name :=
        if truthy county then default "" county +:+ "_area_map" else "area_map" in
      cwd (base_name +:+ ".gpkg") in
  let report :=
    {| townships_sel := townships_sel;
       sections_all_tr := sections_all_tr;
       sections_sel := sections_sel;
       larimer_clipped := larimer_clipped;
       weld_clipped := weld_clipped;
       larimer_sections_clipped := larimer_sections_clipped;
       weld_sections_clipped := weld_sections_clipped;
       out_path := out_path;
       effects :=
         (if path_exists out_path then [Unlink out_path] else [])
         ++ [ToFile townships_sel out_path "townships" "w"]
         ++ append_layer sections_all_tr out_path "sections"
         ++ append_layer sections_sel out_path "sections_target"
         ++ append_layer larimer_clipped out_path "larimer_parcels"
         ++ append_layer weld_clipped out_path "weld_parcels"
         ++ append_layer larimer_sections_clipped out_path
              "larimer_parcels_sections"
         ++ append_layer weld_sections_clipped out_path
              "weld_parcels_sections"
         ++ (if template_exists
             then [CopyFile TEMPLATE_PROJECT (cwd "map.qgz")] else [])
         ++ [Popen ["qgis"; out_path]] |} in
  match first_error effect_error (effects report) with
  | Some e => Raise e
  | None => Ok report
  end))))))))).

End Main.

(** A request without section numbers. *)
Definition townships_only_text : string := "T5N-R66W".

(** A toy library for trying [main]: every layer read is the sample
    layer, a dissolve keeps the first row, a reprojection changes the
    system only, and a clip keeps the layer; the working directory
    holds [config.map] with the given text, the output path is there
    already, and no action fails. *)
Definition toy_read_file (path : string) : GeoDataFrame unit N := sample_sections.
Definition toy_dissolve (gdf : GeoDataFrame unit N) : GeoDataFrame unit N :=
  {| columns := columns gdf; crs := crs gdf; features := take 1 (features gdf) |}.
Definition toy_to_crs (gdf : GeoDataFrame unit N) (c : N) : GeoDataFrame unit N :=
  {| columns := columns gdf; crs := c; features := features gdf |}.
Definition toy_main (text : string) : Args → Result (Report unit N) :=
  main toy_read_file toy_dissolve id toy_to_crs (λ gdf _, gdf) 0
    (sample_fs text) (λ _, true) id true (λ _, None).

(** * Properties *)

(** ** Text primitives *)

Lemma string_length_app (s t : string) :
  String.length (s +:+ t) = (String.length s + String.length t)%nat.
Proof.
  induction s as [|c s IH]; [done |].
  change (String c s +:+ t) with (String c (s +:+ t)). cbn. by rewrite IH.
Qed.

Lemma length_zeros k : String.length (zeros k) = k.
Proof. induction k; cbn; congruence. Qed.

Lemma length_decimal_from fuel n acc :
  (String.length acc < String.length (decimal_from (S fuel) n acc))%nat.
Proof.
  revert n acc. induction fuel as [|fuel IH]; intros n acc.
  - cbn. destruct (n / 10 =? 0); cbn; lia.
  - change (decimal_from (S (S fuel)) n acc) with
      (let acc' := String (digit_char (n mod 10)) acc in
       if n / 10 =? 0 then acc' else decimal_from (S fuel) (n / 10) acc').
    cbn zeta. destruct (n / 10 =? 0); [cbn; lia |].
    specialize (IH (n / 10) (String (digit_char (n mod 10)) acc)).
    cbn in IH |- *. lia.
Qed.

(** A number above 99 has at least three digits. *)
Lemma length_str_of_int_100 n :
  100 ≤ n → (3 ≤ String.length (str_of_int n))%nat.
Proof.
  intros Hn. unfold str_of_int.
  assert (6 ≤ N.log2 n) as Hlog.
  { change 6 with (N.log2 100). by apply N.log2_le_mono. }
  destruct (N.to_nat (N.log2 n)) as [|[|fuel]] eqn:Hf; [lia | lia |].
  change (decimal_from (S (S (S fuel))) n "") with
    (let acc' := String (digit_char (n mod 10)) "" in
     if n / 10 =? 0 then acc' else
       let acc'' := String (digit_char ((n / 10) mod 10)) acc' in
       if n / 10 / 10 =? 0 then acc'' else decimal_from (S fuel) (n / 10 / 10) acc'').
  cbn zeta.
  assert (10 ≤ n / 10) as H1.
  { change 10 with (100 / 10) at 1. apply N.Div0.div_le_mono. lia. }
  assert (1 ≤ n / 10 / 10) as H2.
  { change 1 with (10 / 10). apply N.Div0.div_le_mono. lia. }
  destruct (N.eqb_spec (n / 10) 0) as [?|_]; [lia |].
  destruct (N.eqb_spec (n / 10 / 10) 0) as [?|_]; [lia |].
  pose proof (length_decimal_from fuel (n / 10 / 10)
    (String (digit_char ((n / 10) mod 10)) (String (digit_char (n mod 10)) ""))) as H.
  cbn in H |- *. lia.
Qed.

Lemma length_format_0d_100 width n :
  100 ≤ n → (3 ≤ String.length (format_0d width n))%nat.
Proof.
  intros Hn. unfold format_0d. rewrite string_length_app.
  pose proof (length_str_of_int_100 n Hn). lia.
Qed.

Lemma length_substring a k s : (String.length (String.substring a k s) ≤ k)%nat.
Proof.
  revert a k. induction s as [|c s IH]; intros [|a] [|k]; cbn; try lia.
  - specialize (IH 0%nat k). lia.
  - apply (IH a 0%nat).
  - apply (IH a (S k)).
Qed.

(** The slice [s[-3:-1]] has at most two characters. *)
Lemma length_slice_tail s : (String.length (slice (-3) (-1) s) ≤ 2)%nat.
Proof.
  unfold slice. etrans; [apply length_substring|].
  unfold clamp_index. cbn. lia.
Qed.

Lemma code_digit_char (d : N) : d < 10 → code (digit_char d) - 48 = d.
Proof.
  intros Hd. unfold code, digit_char. rewrite N_ascii_embedding; lia.
Qed.

Lemma div_mod_10 (n : N) :
  n `mod` 10 < 10 ∧ n / 10 * 10 + n `mod` 10 = n ∧ 5 * (n / 10) ≤ n / 2.
Proof.
  pose proof (N.mod_upper_bound n 10 ltac:(lia)) as Hmod.
  pose proof (N.div_mod n 10 ltac:(lia)) as Hdiv.
  pose proof (N.mod_upper_bound n 2 ltac:(lia)) as Hmod2.
  pose proof (N.div_mod n 2 ltac:(lia)) as Hdiv2.
  generalize dependent (n `mod` 10). generalize dependent (n / 10).
  generalize dependent (n `mod` 2). generalize dependent (n / 2).
  intros. lia.
Qed.

Lemma int_decimal_from (fuel : nat) (n : N) (acc : string) :
  n < 2 ^ N.of_nat fuel →
  int_from 0 (decimal_from fuel n acc) = int_from n acc.
Proof.
  revert n acc. induction fuel as [|fuel IH]; intros n acc Hn.
  - cbn in Hn. assert (n = 0) as -> by lia. done.
  - cbn [decimal_from].
    destruct (div_mod_10 n) as (Hmod & Hdiv & Hhalf).
    destruct (N.eqb_spec (n / 10) 0) as [Hz|Hnz].
    + cbn [int_from]. rewrite code_digit_char by done. f_equal.
      rewrite Hz in Hdiv. exact Hdiv.
    + rewrite IH.
      * cbn [int_from]. rewrite code_digit_char by done. by f_equal.
      * rewrite Nat2N.inj_succ, N.pow_succ_r' in Hn.
        pose proof (N.div_mod n 2 ltac:(lia)) as Hdiv2.
        generalize dependent (2 ^ N.of_nat fuel).
        generalize dependent (n `mod` 10). generalize dependent (n / 10).
        generalize dependent (n `mod` 2). generalize dependent (n / 2).
        intros. lia.
Qed.

(** [int(str(n))] is [n]: the digits of [str_of_int] are those of
    [n], all of them. *)
Lemma int_str_of_int (n : N) : int (str_of_int n) = n.
Proof.
  unfold int, str_of_int. rewrite int_decimal_from; [done |].
  rewrite Nat2N.inj_succ, N2Nat.id.
  destruct (decide (n = 0)) as [->|Hn]; [done |].
  apply N.log2_spec. lia.
Qed.

Lemma int_from_zeros (k : nat) (s : string) :
  int_from 0 (zeros k +:+ s) = int_from 0 s.
Proof.
  induction k as [|k IH]; [done |].
  change (zeros (S k) +:+ s) with (String "0" (zeros k +:+ s)).
  cbn [int_from]. exact IH.
Qed.

(** The padded text of a number reads back as the number, so two
    numbers with the same padded text are the same. *)
Lemma int_format_0d (width : nat) (n : N) : int (format_0d width n) = n.
Proof.
  unfold format_0d, int. rewrite int_from_zeros. apply int_str_of_int.
Qed.

Lemma format_0d_inj (width : nat) (n m : N) :
  format_0d width n = format_0d width m → n = m.
Proof.
  intros Heq. by rewrite <- (int_format_0d width n), Heq, int_format_0d.
Qed.

(** ** Masks and row selection *)

Lemma mask_or_map {A} (p q : A → bool) (rows : list A) :
  mask_or (map p rows) (map q rows) = map (λ r, p r || q r) rows.
Proof. induction rows as [|r rows IH]; cbn; [done | by f_equal]. Qed.

Lemma mask_and_map {A} (p q : A → bool) (rows : list A) :
  mask_and (map p rows) (map q rows) = map (λ r, p r && q r) rows.
Proof. induction rows as [|r rows IH]; cbn; [done | by f_equal]. Qed.

Lemma mask_false_map {A} (rows : list A) :
  mask_false rows = map (λ _, false) rows.
Proof. unfold mask_false. induction rows; cbn; [done | by f_equal]. Qed.

Lemma map_ext_bool {A} (p q : A → bool) (rows : list A) :
  (∀ r, p r = q r) → map p rows = map q rows.
Proof. intros Hpq. induction rows; cbn; [done | by f_equal]. Qed.

Lemma rows_where_map {A} (p : A → bool) (rows : list A) :
  rows_where rows (map p rows) = List.filter p rows.
Proof.
  induction rows as [|r rows IH]; cbn; [done |].
  destruct (p r); by f_equal.
Qed.

Lemma filter_sublist {A} (p : A → bool) (rows : list A) :
  List.filter p rows `sublist_of` rows.
Proof.
  induction rows as [|r rows IH]; cbn; [constructor |].
  destruct (p r); by constructor.
Qed.

Lemma elem_of_filter_bool {A} (p : A → bool) (rows : list A) (r : A) :
  r ∈ List.filter p rows ↔ r ∈ rows ∧ p r = true.
Proof. rewrite !list_elem_of_In. apply List.filter_In. Qed.

(** The mask of a key, row by row. *)
Lemma trs_mask_rows (pl : list string) (key : Key) :
  trs_mask (trs_series pl) key = map (plssid_matches key) pl.
Proof.
  destruct key as [[[t_num tdir] r_num] rdir]. unfold trs_mask, trs_series.
  cbn [t_code3 t_dir r_code3 r_dir]. unfold series_eq.
  rewrite !map_map, !mask_and_map. done.
Qed.

Section MatcherFacts.
Context {Geometry CRS : Type}.
Local Abbreviation Frame := (GeoDataFrame Geometry CRS).
Implicit Types (gdf : Frame) (f : Feature Geometry).

Lemma filter_fold gdf0 (rows : list (Feature Geometry)) (K : list Key)
    (q : Feature Geometry → bool) :
  fold_left
    (filter_step (trs_series (map (λ f, attr f PLSSID_FIELD_NAME) rows))) K
    {| frame := gdf0; mask_total := map q rows |}
  = {| frame := gdf0; mask_total := map (λ f, q f || row_in_keys K f) rows |}.
Proof.
  revert q. induction K as [|key K IH]; intros q; cbn [fold_left].
  - f_equal. apply map_ext_bool. intros f. by rewrite orb_false_r.
  - unfold filter_step at 2. cbn [frame mask_total].
    rewrite trs_mask_rows, map_map, mask_or_map, IH. f_equal.
    apply map_ext_bool. intros f. cbn. by rewrite orb_assoc.
Qed.

(** The loop of [filter_by_plssid_trs] leaves the frame as it was and
    marks the rows that carry one of the keys. *)
Lemma filter_run_spec gdf (K : list Key) :
  filter_run gdf K
  = {| frame := gdf; mask_total := map (row_in_keys K) (features gdf) |}.
Proof.
  unfold filter_run, column_str. rewrite mask_false_map, filter_fold. done.
Qed.

Lemma sections_step_rows gdf0 (rows : list (Feature Geometry))
    (item : Key * list N) (q : Feature Geometry → bool) :
  sections_step (trs_series (map (λ f, attr f PLSSID_FIELD_NAME) rows))
    (map (slice (-3) (-1)) (map (λ f, attr f FRSTDIVID_FIELD_NAME) rows))
    {| frame := gdf0; mask_total := map q rows |} item
  = {| frame := gdf0; mask_total := map (λ f, q f || item_matches f item) rows |}.
Proof.
  destruct item as [key [|s secs]]; cbn [sections_step frame mask_total].
  - f_equal. apply map_ext_bool. intros f. by rewrite orb_false_r.
  - unfold series_isin.
    rewrite trs_mask_rows, !map_map, mask_and_map, mask_or_map. done.
Qed.

Lemma sections_fold gdf0 (rows : list (Feature Geometry))
    (items : list (Key * list N)) (q : Feature Geometry → bool) :
  fold_left
    (sections_step (trs_series (map (λ f, attr f PLSSID_FIELD_NAME) rows))
       (map (slice (-3) (-1)) (map (λ f, attr f FRSTDIVID_FIELD_NAME) rows)))
    items {| frame := gdf0; mask_total := map q rows |}
  = {| frame := gdf0; mask_total := map (λ f, q f || row_in_items items f) rows |}.
Proof.
  revert q. induction items as [|item items IH]; intros q; cbn [fold_left].
  - f_equal. apply map_ext_bool. intros f. by rewrite orb_false_r.
  - rewrite sections_step_rows, IH. f_equal.
    apply map_ext_bool. intros f. unfold row_in_items. cbn [existsb].
    by rewrite orb_assoc.
Qed.

(** The loop of [select_sections_by_trs_and_numbers], whatever the
    order of the items. *)
Lemma sections_run_mask gdf (m : gmap Key (list N)) :
  sections_run gdf m
  = {| frame := gdf;
       mask_total := map (row_in_items (map_to_list m)) (features gdf) |}.
Proof.
  unfold sections_run, column_str. rewrite mask_false_map, sections_fold. done.
Qed.

(** The items may be visited in any order. *)
Lemma sections_fold_order gdf0 (rows : list (Feature Geometry))
    (items items' : list (Key * list N)) :
  items ≡ₚ items' →
  fold_left
    (sections_step (trs_series (map (λ f, attr f PLSSID_FIELD_NAME) rows))
       (map (slice (-3) (-1)) (map (λ f, attr f FRSTDIVID_FIELD_NAME) rows)))
    items {| frame := gdf0; mask_total := mask_false rows |}
  = fold_left
    (sections_step (trs_series (map (λ f, attr f PLSSID_FIELD_NAME) rows))
       (map (slice (-3) (-1)) (map (λ f, attr f FRSTDIVID_FIELD_NAME) rows)))
    items' {| frame := gdf0; mask_total := mask_false rows |}.
Proof.
  intros Hperm. rewrite mask_false_map, !sections_fold. f_equal.
  apply map_ext_bool. intros f. cbn [orb]. apply eq_true_iff_eq.
  unfold row_in_items. rewrite !existsb_exists.
  split; intros (item & Hin & Hm); exists item; split; try done;
    apply list_elem_of_In; apply list_elem_of_In in Hin.
  - by rewrite <- Hperm.
  - by rewrite Hperm.
Qed.

End MatcherFacts.

(** ** Short identifiers and long section numbers *)

Lemma string_get_short (s : string) (n : nat) :
  (String.length s ≤ n)%nat → String.get n s = None.
Proof.
  revert n. induction s as [|c s IH]; intros n Hn; [by destruct n |].
  destruct n as [|n]; cbn in Hn |- *; [lia |]. apply IH. lia.
Qed.

(** A PLSSID of fewer than 14 characters has no range direction, and so
    carries no key. *)
Lemma plssid_matches_short (key : Key) (raw : string) :
  (String.length raw < 14)%nat → plssid_matches key raw = false.
Proof.
  intros Hlen. destruct key as [[[t_num tdir] r_num] rdir]. unfold plssid_matches.
  assert (str_get 13 raw = None) as ->.
  { unfold str_get. rewrite string_get_short; [done | lia]. }
  cbn. by rewrite !andb_false_r.
Qed.

(** The two characters cut out of FRSTDIVID never spell a number above
    99. *)
Lemma slice_tail_ne_format (raw : string) (s : N) :
  99 < s → slice (-3) (-1) raw ≠ format_0d 2 s.
Proof.
  intros Hs Heq.
  pose proof (length_slice_tail raw) as H2.
  pose proof (length_format_0d_100 2 s) as H3.
  rewrite Heq in H2. lia.
Qed.

Lemma elem_of_sec_strs (x : string) (secs : list N) :
  x ∈ sec_strs secs ↔ ∃ s, s ∈ secs ∧ x = format_0d 2 s.
Proof.
  unfold sec_strs. rewrite elem_of_list_to_set, list_elem_of_In, in_map_iff.
  split; intros (s & H1 & H2); exists s.
  - by rewrite list_elem_of_In.
  - by rewrite <- list_elem_of_In.
Qed.

Lemma item_matches_iff {Geometry} (f : Feature Geometry) (key : Key) (secs : list N) :
  item_matches f (key, secs) = true ↔
    plssid_matches key (attr f PLSSID_FIELD_NAME) = true
    ∧ ∃ s, s ∈ secs ∧ slice (-3) (-1) (attr f FRSTDIVID_FIELD_NAME) = format_0d 2 s.
Proof.
  unfold item_matches. cbn [fst snd]. destruct secs as [|s0 secs].
  - split; [done |]. intros (_ & s & Hs & _). by apply elem_of_nil in Hs.
  - rewrite andb_true_iff, bool_decide_eq_true, elem_of_sec_strs. done.
Qed.

Lemma row_in_items_iff {Geometry} (f : Feature Geometry) (m : gmap Key (list N)) :
  row_in_items (map_to_list m) f = true ↔
    ∃ key secs s, m !! key = Some secs ∧ s ∈ secs
      ∧ plssid_matches key (attr f PLSSID_FIELD_NAME) = true
      ∧ slice (-3) (-1) (attr f FRSTDIVID_FIELD_NAME) = format_0d 2 s.
Proof.
  unfold row_in_items. rewrite existsb_exists. split.
  - intros ([key secs] & Hin & Hm).
    apply list_elem_of_In, elem_of_map_to_list in Hin.
    apply item_matches_iff in Hm as (Hp & s & Hs & Hsl). by exists key, secs, s.
  - intros (key & secs & s & Hk & Hs & Hp & Hsl). exists (key, secs). split.
    + by apply list_elem_of_In, elem_of_map_to_list.
    + apply item_matches_iff. eauto.
Qed.

Lemma row_in_keys_iff {Geometry} (f : Feature Geometry) (K : list Key) :
  row_in_keys K f = true ↔
    ∃ key, key ∈ K ∧ plssid_matches key (attr f PLSSID_FIELD_NAME) = true.
Proof.
  unfold row_in_keys. rewrite existsb_exists.
  split; intros (key & H1 & H2); exists key; by rewrite ?list_elem_of_In in *.
Qed.

Lemma filter_sublist_mono {A} (p q : A → bool) (rows : list A) :
  (∀ r, p r = true → q r = true) →
  List.filter p rows `sublist_of` List.filter q rows.
Proof.
  intros Hpq. induction rows as [|r rows IH]; cbn; [constructor |].
  destruct (p r) eqn:Hp.
  - rewrite (Hpq r Hp). by constructor.
  - destruct (q r); [by constructor | done].
Qed.

Lemma filter_ext_bool {A} (p q : A → bool) (rows : list A) :
  (∀ r, p r = q r) → List.filter p rows = List.filter q rows.
Proof.
  intros Hpq. induction rows as [|r rows IH]; cbn; [done |].
  rewrite (Hpq r), IH. done.
Qed.

Section MatcherResults.
Context {Geometry CRS : Type}.
Local Abbreviation Frame := (GeoDataFrame Geometry CRS).
Implicit Types (gdf : Frame) (f : Feature Geometry).

(** The township-level matcher, when the PLSSID column is there. *)
Lemma filter_by_plssid_trs_ok gdf (K : list Key) :
  PLSSID_FIELD_NAME ∈ columns gdf →
  filter_by_plssid_trs gdf K
  = Ok {| columns := columns gdf; crs := crs gdf;
          features := List.filter (row_in_keys K) (features gdf) |}.
Proof.
  intros Hcol. unfold filter_by_plssid_trs.
  rewrite bool_decide_eq_true_2 by done.
  rewrite filter_run_spec. cbn [frame mask_total]. unfold select_rows.
  by rewrite rows_where_map.
Qed.

Lemma filter_by_plssid_trs_raise gdf (K : list Key) :
  PLSSID_FIELD_NAME ∉ columns gdf →
  filter_by_plssid_trs gdf K = Raise (KeyError PLSSID_FIELD_NAME).
Proof.
  intros Hcol. unfold filter_by_plssid_trs.
  by rewrite bool_decide_eq_false_2.
Qed.

(** The section-level matcher, when both columns are there. *)
Lemma select_sections_ok gdf (m : gmap Key (list N)) :
  PLSSID_FIELD_NAME ∈ columns gdf →
  FRSTDIVID_FIELD_NAME ∈ columns gdf →
  select_sections_by_trs_and_numbers gdf m
  = Ok {| columns := columns gdf; crs := crs gdf;
          features := List.filter (row_in_items (map_to_list m)) (features gdf) |}.
Proof.
  intros Hpl Hfr. unfold select_sections_by_trs_and_numbers.
  rewrite !bool_decide_eq_true_2 by done.
  rewrite sections_run_mask. cbn [frame mask_total]. unfold select_rows.
  by rewrite rows_where_map.
Qed.

(** Two requests that pick the same rows give the same selection. *)
Lemma select_sections_ext gdf (m1 m2 : gmap Key (list N)) :
  (∀ f, row_in_items (map_to_list m1) f = row_in_items (map_to_list m2) f) →
  select_sections_by_trs_and_numbers gdf m1
  = select_sections_by_trs_and_numbers gdf m2.
Proof.
  intros Hext. unfold select_sections_by_trs_and_numbers.
  rewrite !sections_run_mask. cbn [frame mask_total].
  by rewrite (map_ext_bool _ _ _ Hext).
Qed.

End MatcherResults.

Lemma sublist_filter_length {A} (p : A → bool) (l1 l2 : list A) :
  l1 `sublist_of` l2 →
  (length (List.filter p l1) ≤ length (List.filter p l2))%nat.
Proof.
  induction 1 as [|x l1 l2 _ IH|x l1 l2 _ IH]; cbn; [done | |].
  - destruct (p x); cbn; lia.
  - destruct (p x); cbn; lia.
Qed.

(** ** The township-level matcher *)

(** C2: [filter_by_plssid_trs] returns the rows of its input that carry
    one of the keys, in the input's order and each at most once (for
    every index label, the result holds no more rows with that label
    than the input), with the columns and the reference system of the
    input; it raises only for a missing PLSSID column; with no key the
    result has no row; and the frame it was given is the same when the
    loop ends. *)
Theorem filter_by_plssid_trs_subset {Geometry CRS}
    (gdf : GeoDataFrame Geometry CRS) (K : list Key) :
  match filter_by_plssid_trs gdf K with
  | Ok sel =>
      features sel `sublist_of` features gdf
      ∧ features sel = List.filter (row_in_keys K) (features gdf)
      ∧ (∀ n, length (List.filter (λ f, Nat.eqb (fid f) n) (features sel))
              ≤ length (List.filter (λ f, Nat.eqb (fid f) n) (features gdf)))%nat
      ∧ columns sel = columns gdf
      ∧ crs sel = crs gdf
  | Raise e => e = KeyError PLSSID_FIELD_NAME ∧ PLSSID_FIELD_NAME ∉ columns gdf
  end
  ∧ match filter_by_plssid_trs gdf [] with
    | Ok sel => features sel = []
    | Raise e => PLSSID_FIELD_NAME ∉ columns gdf
    end
  ∧ frame (filter_run gdf K) = gdf.
Proof.
  destruct (decide (PLSSID_FIELD_NAME ∈ columns gdf)) as [Hcol|Hcol].
  - rewrite !filter_by_plssid_trs_ok by done. cbn [features columns crs].
    pose proof (filter_sublist (row_in_keys K) (features gdf)) as Hsub.
    split; [| split].
    + repeat split; try done. intros n. by apply sublist_filter_length.
    + generalize (features gdf). intros rows.
      induction rows as [|r rows IH]; [done | apply IH].
    + by rewrite filter_run_spec.
  - rewrite !filter_by_plssid_trs_raise by done.
    split; [done |]. split; [done |]. by rewrite filter_run_spec.
Qed.

(** C9: with the PLSSID column present [filter_by_plssid_trs] returns
    for identifiers of any length and content; an identifier of fewer
    than 14 characters has no range direction to read, carries no key,
    and its row is never selected. *)
Theorem filter_by_plssid_trs_total {Geometry CRS}
    (gdf : GeoDataFrame Geometry CRS) (K : list Key) :
  PLSSID_FIELD_NAME ∈ columns gdf →
  (∃ sel, filter_by_plssid_trs gdf K = Ok sel
     ∧ ∀ f, f ∈ features sel →
         (14 ≤ String.length (attr f PLSSID_FIELD_NAME))%nat)
  ∧ ∀ raw key, (String.length raw < 14)%nat →
      upper <$> str_get 13 raw = None ∧ plssid_matches key raw = false.
Proof.
  intros Hcol. split.
  - eexists. split; [by apply filter_by_plssid_trs_ok |].
    cbn [features]. intros f [_ Hf]%elem_of_filter_bool.
    apply row_in_keys_iff in Hf as (key & _ & Hm).
    destruct (decide (14 ≤ String.length (attr f PLSSID_FIELD_NAME))%nat); [done |].
    rewrite plssid_matches_short in Hm by lia. done.
  - intros raw key Hlen. split; [| by apply plssid_matches_short].
    unfold str_get. rewrite string_get_short; [done | lia].
Qed.

Lemma filter_by_plssid_trs_total_witness :
  PLSSID_FIELD_NAME ∈ columns sample_sections
  ∧ (∃ sel, filter_by_plssid_trs sample_sections sample_keys = Ok sel
       ∧ ∀ f, f ∈ features sel →
           (14 ≤ String.length (attr f PLSSID_FIELD_NAME))%nat)
  ∧ plssid_matches (5, "N", 66, "W") "CO06" = false.
Proof.
  assert (PLSSID_FIELD_NAME ∈ columns sample_sections) as Hcol
    by (repeat constructor).
  destruct (filter_by_plssid_trs_total sample_sections sample_keys Hcol)
    as [Hsel Hshort].
  split; [exact Hcol |]. split; [exact Hsel |].
  apply (Hshort "CO06" (5, "N", 66, "W")). cbn. lia.
Defined.

(** On the sample layer the two keys select the first three rows; the
    fourth, with its four-character PLSSID, is left out. *)
Example filter_sample_sections :
  match filter_by_plssid_trs sample_sections sample_keys with
  | Ok sel => map fid (features sel) = [0; 1; 2]%nat
  | Raise _ => False
  end.
Proof. vm_compute. reflexivity. Qed.

(** ** The section-level matcher *)

(** C3: for a list of keys that holds every key of the mapping, the
    rows [select_sections_by_trs_and_numbers] selects are rows that
    [filter_by_plssid_trs] selects, in the same order; and a key whose
    section list is empty can be dropped from the mapping without
    changing the section-level result. *)
Theorem select_sections_subset_of_filter {Geometry CRS}
    (gdf : GeoDataFrame Geometry CRS) (m : gmap Key (list N)) (K : list Key) :
  (∀ k, k ∈ dom m → k ∈ K) →
  match select_sections_by_trs_and_numbers gdf m with
  | Ok sel =>
      ∃ sel', filter_by_plssid_trs gdf K = Ok sel'
        ∧ features sel `sublist_of` features sel'
        ∧ ∀ f, f ∈ features sel → f ∈ features sel'
  | Raise e =>
      (e = KeyError PLSSID_FIELD_NAME ∧ PLSSID_FIELD_NAME ∉ columns gdf)
      ∨ (e = KeyError FRSTDIVID_FIELD_NAME ∧ FRSTDIVID_FIELD_NAME ∉ columns gdf)
  end
  ∧ ∀ k, m !! k = Some [] →
      select_sections_by_trs_and_numbers gdf (delete k m)
      = select_sections_by_trs_and_numbers gdf m.
Proof.
  intros HK. split.
  - destruct (decide (PLSSID_FIELD_NAME ∈ columns gdf)) as [Hpl|Hpl].
    + destruct (decide (FRSTDIVID_FIELD_NAME ∈ columns gdf)) as [Hfr|Hfr].
      * rewrite select_sections_ok by done. eexists.
        split; [by apply filter_by_plssid_trs_ok |]. cbn [features].
        assert (∀ f : Feature Geometry,
          row_in_items (map_to_list m) f = true → row_in_keys K f = true) as Himp.
        { intros f (key & secs & s & Hk & _ & Hp & _)%row_in_items_iff.
          apply row_in_keys_iff. exists key. split; [| done].
          apply HK, elem_of_dom. by exists secs. }
        split; [by apply filter_sublist_mono |].
        intros f [Hf Hm]%elem_of_filter_bool. apply elem_of_filter_bool. eauto.
      * unfold select_sections_by_trs_and_numbers.
        rewrite bool_decide_eq_true_2, bool_decide_eq_false_2 by done. by right.
    + unfold select_sections_by_trs_and_numbers.
      rewrite bool_decide_eq_false_2 by done. by left.
  - intros k Hk. apply select_sections_ext. intros f.
    apply eq_true_iff_eq. rewrite !row_in_items_iff. split.
    + intros (key & secs & s & Hl & Hrest).
      exists key, secs, s. split; [| done].
      by apply lookup_delete_Some in Hl as [_ Hl].
    + intros (key & secs & s & Hl & Hs & Hrest).
      exists key, secs, s. split; [| done].
      apply lookup_delete_Some. split; [| done].
      intros ->. rewrite Hk in Hl. injection Hl as <-. by apply elem_of_nil in Hs.
Qed.

Lemma select_sections_subset_of_filter_witness :
  (∀ k, k ∈ dom sample_request → k ∈ sample_keys)
  ∧ ∃ sel sel',
      select_sections_by_trs_and_numbers sample_sections sample_request = Ok sel
      ∧ filter_by_plssid_trs sample_sections sample_keys = Ok sel'
      ∧ features sel `sublist_of` features sel'.
Proof.
  assert (∀ k, k ∈ dom sample_request → k ∈ sample_keys) as Hdom.
  { intros k. unfold sample_request, sample_keys.
    rewrite dom_insert_L, dom_singleton_L, elem_of_union, !elem_of_singleton.
    intros [-> | ->]; repeat constructor. }
  split; [exact Hdom |].
  pose proof (select_sections_subset_of_filter sample_sections sample_request
                sample_keys Hdom) as [Hsub _].
  rewrite select_sections_ok in Hsub by (repeat constructor).
  destruct Hsub as (sel' & Hfilter & Hsub & _).
  eexists _, sel'. split; [| split; [exact Hfilter | exact Hsub]].
  apply select_sections_ok; repeat constructor.
Defined.

(** On the sample layer the request selects section 12 of township 5 N,
    range 66 W only: number 100 matches nothing, and the key with no
    section listed adds nothing. *)
Example select_sample_sections :
  match select_sections_by_trs_and_numbers sample_sections sample_request with
  | Ok sel => map fid (features sel) = [1%nat]
  | Raise _ => False
  end.
Proof. vm_compute. reflexivity. Qed.

(** C10: the two characters [FRSTDIVID[-3:-1]] never equal the text of
    a section number above 99, which has three digits or more; so the
    section-level matcher selects the same rows when every such number
    is struck from the mapping. *)
Theorem section_above_99_never_matches {Geometry CRS}
    (gdf : GeoDataFrame Geometry CRS) (m : gmap Key (list N)) :
  (∀ (raw : string) (s : N), 99 < s →
     (String.length (slice (-3) (-1) raw) ≤ 2)%nat
     ∧ (3 ≤ String.length (format_0d 2 s))%nat
     ∧ slice (-3) (-1) raw ≠ format_0d 2 s)
  ∧ (∀ (f : Feature Geometry) key secs s, 99 < s →
       item_matches f (key, [s]) = false
       ∧ item_matches f (key, s :: secs) = item_matches f (key, secs))
  ∧ select_sections_by_trs_and_numbers gdf (List.filter (λ s, s <=? 99) <$> m)
    = select_sections_by_trs_and_numbers gdf m.
Proof.
  split; [| split].
  - intros raw s Hs. split; [apply length_slice_tail |].
    split; [apply length_format_0d_100; lia | by apply slice_tail_ne_format].
  - intros f key secs s Hs. split.
    + apply not_true_iff_false. intros (_ & s' & Hin & Heq)%item_matches_iff.
      apply list_elem_of_singleton in Hin as ->. by eapply slice_tail_ne_format.
    + apply eq_true_iff_eq. rewrite !item_matches_iff. split.
      * intros (Hp & s' & Hin & Heq). split; [done |]. exists s'. split; [| done].
        apply elem_of_cons in Hin as [->|Hin]; [| done].
        by apply slice_tail_ne_format in Heq.
      * intros (Hp & s' & Hin & Heq). split; [done |]. exists s'. split; [| done].
        by apply elem_of_cons; right.
  - apply select_sections_ext. intros f.
    apply eq_true_iff_eq. rewrite !row_in_items_iff. split.
    + intros (key & secs' & s & Hl & Hs & Hrest).
      rewrite lookup_fmap in Hl.
      destruct (m !! key) as [secs|] eqn:Hm; [| done]. injection Hl as <-.
      exists key, secs, s. split; [done |]. split; [| done].
      apply list_elem_of_In, List.filter_In in Hs as [Hs _].
      by apply list_elem_of_In.
    + intros (key & secs & s & Hl & Hs & Hp & Heq).
      exists key, (List.filter (λ s, s <=? 99) secs), s.
      split; [by rewrite lookup_fmap, Hl |]. split; [| done].
      apply list_elem_of_In, List.filter_In. split; [by apply list_elem_of_In |].
      apply N.leb_le. destruct (decide (s ≤ 99)) as [|Hgt]; [done |].
      exfalso. apply (slice_tail_ne_format (attr f FRSTDIVID_FIELD_NAME) s); [lia | done].
Qed.

(** ** Identifier decoding *)

(** C1 (as the code has it): the sixteen characters
    [CO0605500N0660W0] put a digit where the township direction is
    read and the letter N among the range digits, so the fragments are
    055, 0, N06, 0 and the key (55, N, 66, W) is not matched. *)
Lemma plssid_sixteen_chars_decoded :
  trs_series ["CO0605500N0660W0"]
  = {| t_code3 := ["055"]; t_dir := [Some "0"];
       r_code3 := ["N06"]; r_dir := [Some "0"] |}
  ∧ trs_mask (trs_series ["CO0605500N0660W0"]) (55, "N", 66, "W") = [false].
Proof. split; reflexivity. Qed.

(** C1 (amended): an identifier with 055 at positions 4-6, N at 8, 066
    at 9-11 and W at 13, such as the fifteen characters
    [CO060550N0660W0], decodes to township 55 N, range 66 W and matches
    that key, whatever the four characters of state and meridian, the
    fillers at positions 7 and 12 and the characters from position 14
    on. *)
Theorem plssid_fixed_offsets (p0 p1 p2 p3 c7 c12 : ascii) (tail : string) :
  trs_series [plssid_55N_66W p0 p1 p2 p3 c7 c12 tail]
  = {| t_code3 := [format_0d 3 55]; t_dir := [Some "N"];
       r_code3 := [format_0d 3 66]; r_dir := [Some "W"] |}
  ∧ trs_mask (trs_series [plssid_55N_66W p0 p1 p2 p3 c7 c12 tail])
      (55, "N", 66, "W") = [true]
  ∧ plssid_55N_66W "C" "O" "0" "6" "0" "0" "0" = "CO060550N0660W0".
Proof.
  assert (trs_series [plssid_55N_66W p0 p1 p2 p3 c7 c12 tail]
    = {| t_code3 := [format_0d 3 55]; t_dir := [Some "N"];
         r_code3 := [format_0d 3 66]; r_dir := [Some "W"] |}) as Hdec.
  { unfold trs_series, plssid_55N_66W, slice, str_get. cbn.
    by destruct tail. }
  split; [done |]. split; [| done].
  rewrite Hdec. reflexivity.
Qed.

(** ** The mask builder and the clip step *)

Section GeoFacts.
Context {Geometry CRS : Type} `{EqDecision CRS}.
Local Abbreviation Frame := (GeoDataFrame Geometry CRS).
Variable read_file : string → Frame.
Variable dissolve : Frame → Frame.
Variable explode : Frame → Frame.
Variable to_crs : Frame → CRS → Frame.
Variable gpd_clip : Frame → Frame → Frame.
Variable no_crs : CRS.

(** C7: [dissolve_townships_for_clip] raises its error exactly when the
    frame has no row; otherwise it returns the dissolved frame (the
    union of all geometries) exploded into single parts. *)
Theorem dissolve_townships_for_clip_empty (townships : Frame) :
  (dissolve_townships_for_clip dissolve explode townships = Raise RuntimeError
     ↔ features townships = [])
  ∧ ((∃ mask, dissolve_townships_for_clip dissolve explode townships = Ok mask)
     ↔ features townships ≠ [])
  ∧ (features townships ≠ [] →
     dissolve_townships_for_clip dissolve explode townships
     = Ok (explode (dissolve townships))).
Proof.
  unfold dissolve_townships_for_clip, empty.
  destruct (features townships) as [|f rows]; repeat split; try done.
  - by intros [mask ?].
  - by eexists.
Qed.

(** C8: on a layer with rows, when the system of the mask differs from
    the system of the layer, the first call after the read is the
    reprojection of the mask to the layer's system; when both frames
    have a system it returns, and the layer is clipped by the
    reprojected mask; when one of them has none it raises
    [ValueError], and nothing is clipped. When the two systems agree
    the layer is clipped by the mask as given, with no reprojection;
    a layer without rows is returned as read, with no call but the
    read. In every case the only frame ever reprojected is the mask,
    and only when the systems differ, the target of a reprojection is
    the layer's own system, and the layer handed to the clip is the
    layer as read, in its own system. *)
Theorem clip_parcels_crs (parcel_gpkg : string) (clip_gdf : Frame) (label : string) :
  let parcels := read_file parcel_gpkg in
  let run := clip_parcels read_file to_crs gpd_clip no_crs parcel_gpkg clip_gdf label in
  (features parcels ≠ [] → crs clip_gdf ≠ crs parcels →
   crs clip_gdf ≠ no_crs → crs parcels ≠ no_crs →
     run = ([CallReadFile parcel_gpkg;
             CallToCrs clip_gdf (crs parcels);
             CallClip parcels (to_crs clip_gdf (crs parcels))],
            Ok (gpd_clip parcels (to_crs clip_gdf (crs parcels)))))
  ∧ (features parcels ≠ [] → crs clip_gdf ≠ crs parcels →
     crs clip_gdf = no_crs ∨ crs parcels = no_crs →
     run = ([CallReadFile parcel_gpkg; CallToCrs clip_gdf (crs parcels)],
            Raise ValueError))
  ∧ (features parcels ≠ [] → crs clip_gdf = crs parcels →
     run = ([CallReadFile parcel_gpkg; CallClip parcels clip_gdf],
            Ok (gpd_clip parcels clip_gdf)))
  ∧ (features parcels = [] → run = ([CallReadFile parcel_gpkg], Ok parcels))
  ∧ (∀ call, call ∈ run.1 →
       match call with
       | CallReadFile path => path = parcel_gpkg
       | CallToCrs gdf target =>
           gdf = clip_gdf ∧ target = crs parcels ∧ crs clip_gdf ≠ crs parcels
       | CallClip gdf mask =>
           gdf = parcels
           ∧ mask = (if bool_decide (crs clip_gdf = crs parcels) then clip_gdf
                     else to_crs clip_gdf (crs parcels))
           ∧ crs gdf = crs parcels
           ∧ (crs clip_gdf ≠ crs parcels →
              crs clip_gdf ≠ no_crs ∧ crs parcels ≠ no_crs)
       end).
Proof.
  cbn zeta. unfold clip_parcels, empty.
  destruct (features (read_file parcel_gpkg)) as [|f rows] eqn:Hrows.
  - split; [done |]. split; [done |]. split; [done |]. split; [done |].
    intros call ->%list_elem_of_singleton. done.
  - destruct (decide (crs clip_gdf = crs (read_file parcel_gpkg))) as [Heq|Hne].
    + rewrite bool_decide_eq_false_2 by (by intros Hne).
      rewrite (bool_decide_eq_true_2 _ Heq).
      split; [done |]. split; [done |]. split; [done |]. split; [done |]. cbn [fst].
      intros call Hin. repeat (apply elem_of_cons in Hin as [->|Hin]; [done |]).
      by apply elem_of_nil in Hin.
    + rewrite bool_decide_eq_true_2 by done.
      rewrite (bool_decide_eq_false_2 _ Hne).
      case_bool_decide as Hnone.
      * split; [by intros _ _ ? ?; destruct Hnone |].
        split; [done |]. split; [done |]. split; [done |]. cbn [fst].
        intros call Hin. repeat (apply elem_of_cons in Hin as [->|Hin]; [done |]).
        by apply elem_of_nil in Hin.
      * split; [done |]. split; [by intros _ _ ? |].
        split; [done |]. split; [done |]. cbn [fst].
        intros call Hin.
        repeat (apply elem_of_cons in Hin as [->|Hin];
                [try done; repeat split; try done; intros ?; tauto |]).
        by apply elem_of_nil in Hin.
Qed.

End GeoFacts.

(** ** The request parser *)

(** C4: the text [County Larimer / T33N-R19W Section 10 Section 12]
    parses to the area label Larimer, the one key (33, N, 19, W), and
    the section list 10, 12 for it. *)
Theorem parse_config_map_scenario (fs : FileSystem) (config_path : string) :
  fs config_path = Some scenario_text →
  parse_config_map fs config_path
  = Ok (Some "Larimer", [(33, "N", 19, "W")], {[ (33, "N", 19, "W") := [10; 12] ]})
  ∧ tokenize scenario_text
    = ["County"; "Larimer"; "T33N-R19W"; "Section"; "10"; "Section"; "12"].
Proof.
  intros Hfile. unfold parse_config_map. rewrite Hfile.
  split; vm_compute; reflexivity.
Qed.

Lemma parse_config_map_scenario_witness :
  sample_fs scenario_text "config.map" = Some scenario_text
  ∧ parse_config_map (sample_fs scenario_text) "config.map"
    = Ok (Some "Larimer", [(33, "N", 19, "W")], {[ (33, "N", 19, "W") := [10; 12] ]}).
Proof.
  split; [reflexivity |].
  apply (parse_config_map_scenario (sample_fs scenario_text) "config.map").
  reflexivity.
Defined.

(** *** Tokens of township/range form *)

Lemma char_T_facts (t : ascii) :
  char_is t "T" = true →
  Ascii.eqb (lower_char t) "c" = false
  ∧ Ascii.eqb (lower_char t) "s" = false
  ∧ is_digit t = false.
Proof.
  destruct t as [[] [] [] [] [] [] [] []]; vm_compute; intros Ht;
    first [discriminate Ht | done].
Qed.

Lemma tr_key_head (tok : string) (k : Key) :
  tr_key tok = Some k → ∃ t s, tok = String t s ∧ char_is t "T" = true.
Proof.
  unfold tr_key, tr_pattern_match. destruct tok as [|t s]; [done |].
  destruct (char_is t "T") eqn:Ht; [| done]. by exists t, s.
Qed.

(** A token of township/range form is none of the words the scan
    looks for, and is not a number. *)
Lemma tr_key_not_word (tok : string) (k : Key) :
  tr_key tok = Some k →
  is_county tok = false ∧ is_section tok = false ∧ isdigit tok = false.
Proof.
  intros (t & s & -> & Ht)%tr_key_head.
  apply char_T_facts in Ht as (Hc & Hs & Hd).
  unfold is_county, is_section, isdigit, lower.
  cbn [str_map String.eqb str_forall]. rewrite Hc, Hs, Hd. done.
Qed.

Lemma is_section_not_tr (tok : string) : is_section tok = true → tr_key tok = None.
Proof.
  intros Hs. destruct (tr_key tok) as [k|] eqn:Hk; [| done].
  apply tr_key_not_word in Hk as (_ & Hs' & _). congruence.
Qed.

Lemma is_county_not_tr (tok : string) : is_county tok = true → tr_key tok = None.
Proof.
  intros Hs. destruct (tr_key tok) as [k|] eqn:Hk; [| done].
  apply tr_key_not_word in Hk as (Hs' & _ & _). congruence.
Qed.

Lemma isdigit_not_tr (tok : string) : isdigit tok = true → tr_key tok = None.
Proof.
  intros Hs. destruct (tr_key tok) as [k|] eqn:Hk; [| done].
  apply tr_key_not_word in Hk as (_ & _ & Hs'). congruence.
Qed.

Lemma tr_keys_cons_None (tok : string) (rest : list string) :
  tr_key tok = None → tr_keys (tok :: rest) = tr_keys rest.
Proof. intros Hk. unfold tr_keys. cbn. by rewrite Hk. Qed.

Lemma tr_keys_cons_Some (tok : string) (k : Key) (rest : list string) :
  tr_key tok = Some k → tr_keys (tok :: rest) = k :: tr_keys rest.
Proof. intros Hk. unfold tr_keys. cbn. by rewrite Hk. Qed.

Lemma sections_of_cons_None (k : Key) (tok : string) (rest : list string) :
  tr_key tok = None → sections_of k (tok :: rest) = sections_of k rest.
Proof. intros Hk. cbn. rewrite Hk. by rewrite bool_decide_eq_false_2. Qed.

(** *** The inner loop *)

Lemma pair_induction {A} (P : list A → Prop) :
  P [] → (∀ x, P [x]) → (∀ x y l, P l → P (x :: y :: l)) → ∀ l, P l.
Proof.
  intros Hnil Hone Hstep.
  assert (∀ l, P l ∧ ∀ x, P (x :: l)) as H; [| intros l; apply H].
  induction l as [|y l [IH1 IH2]]; split; auto.
Qed.

(** What the inner loop passes over holds no token of township/range
    form. *)
Lemma tr_keys_run_len (tokens : list string) :
  tr_keys (drop (run_len tokens) tokens) = tr_keys tokens.
Proof.
  induction tokens as [|tok|tok num rest IH] using pair_induction; [done | |].
  - cbn [run_len]. destruct (is_section tok) eqn:Hs; [| done].
    cbn [drop]. by rewrite (tr_keys_cons_None tok [] (is_section_not_tr _ Hs)).
  - cbn [run_len]. destruct (is_section tok) eqn:Hs; [| done].
    rewrite (tr_keys_cons_None tok _ (is_section_not_tr _ Hs)).
    destruct (isdigit num) eqn:Hd; [| done].
    rewrite (tr_keys_cons_None num _ (isdigit_not_tr _ Hd)). done.
Qed.

Lemma sections_of_run_len (k : Key) (tokens : list string) :
  sections_of k (drop (run_len tokens) tokens) = sections_of k tokens.
Proof.
  induction tokens as [|tok|tok num rest IH] using pair_induction; [done | |].
  - cbn [run_len]. destruct (is_section tok) eqn:Hs; [| done].
    cbn [drop]. by rewrite (sections_of_cons_None k tok [] (is_section_not_tr _ Hs)).
  - cbn [run_len]. destruct (is_section tok) eqn:Hs; [| done].
    rewrite (sections_of_cons_None k tok _ (is_section_not_tr _ Hs)).
    destruct (isdigit num) eqn:Hd; [| done].
    rewrite (sections_of_cons_None k num _ (isdigit_not_tr _ Hd)). done.
Qed.

Lemma tr_after_county_tail (tok : string) (rest : list string) :
  tr_after_county (tok :: rest) = false → tr_after_county rest = false.
Proof.
  cbn. destruct rest as [|tok' rest]; [done |].
  by intros [_ ?]%orb_false_iff.
Qed.

Lemma tr_after_county_drop (n : nat) (tokens : list string) :
  tr_after_county tokens = false → tr_after_county (drop n tokens) = false.
Proof.
  revert tokens. induction n as [|n IH]; intros [|tok rest] H; try done.
  cbn [drop]. by eapply IH, tr_after_county_tail.
Qed.

Lemma drop_lookup_cons {A} (l : list A) (n : nat) (x : A) :
  l !! n = Some x → drop n l = x :: drop (S n) l.
Proof.
  revert n. induction l as [|y l IH]; intros [|n] H; try done.
  - cbn in *. by injection H as ->.
  - cbn. by apply IH.
Qed.

Lemma drop_lookup_None {A} (l : list A) (n : nat) :
  l !! n = None → drop n l = [].
Proof. intros H%lookup_ge_None. by apply drop_ge. Qed.

Lemma append_section_alter (key : Key) (n : N) (ns : list N) (d : gmap Key (list N)) :
  alter (λ l, l ++ ns) key (append_section key n d)
  = alter (λ l, l ++ n :: ns) key d.
Proof.
  unfold append_section. rewrite alter_alter_eq.
  apply alter_ext. intros l _. cbn. by rewrite <- app_assoc.
Qed.

Lemma alter_app_nil (key : Key) (d : gmap Key (list N)) :
  alter (λ l, l ++ []) key d = d.
Proof. apply alter_id. intros l _. by rewrite app_nil_r. Qed.

(** The inner loop, run with enough fuel, stops [run_len] tokens
    further and has appended the numbers of [section_run]. *)
Lemma section_loop_spec (fuel : nat) (tokens : list string) (key : Key)
    (i : nat) (d : gmap Key (list N)) :
  (length tokens - i ≤ fuel)%nat →
  section_loop fuel tokens key i d
  = ((i + run_len (drop i tokens))%nat,
     alter (λ l, l ++ section_run (drop i tokens)) key d).
Proof.
  revert i d. induction fuel as [|fuel IH]; intros i d Hfuel.
  - rewrite drop_ge by lia. cbn. by rewrite alter_app_nil, Nat.add_0_r.
  - cbn [section_loop]. destruct (tokens !! i) as [tok|] eqn:Htok.
    2:{ rewrite (drop_lookup_None _ _ Htok). cbn.
        by rewrite alter_app_nil, Nat.add_0_r. }
    rewrite (drop_lookup_cons _ _ _ Htok).
    fold (is_section tok). cbn [run_len section_run].
    destruct (is_section tok) eqn:Hs.
    2:{ destruct (drop (S i) tokens); cbn; by rewrite alter_app_nil, Nat.add_0_r. }
    replace (i + 1)%nat with (S i) by lia.
    destruct (tokens !! S i) as [num|] eqn:Hnum.
    2:{ rewrite (drop_lookup_None _ _ Hnum). cbn.
        rewrite alter_app_nil. f_equal. lia. }
    rewrite (drop_lookup_cons _ _ _ Hnum). cbn [andb].
    destruct (isdigit num) eqn:Hd.
    2:{ rewrite alter_app_nil. f_equal. lia. }
    rewrite IH.
    2:{ apply lookup_lt_Some in Hnum. lia. }
    replace (S i + 1)%nat with (S (S i)) by lia.
    rewrite append_section_alter. f_equal. lia.
Qed.

(** *** The outer loop *)

Lemma merge_nil (o : option (list N)) (k : Key) :
  match o with
  | Some l => Some (l ++ sections_of k [])
  | None => if bool_decide (k ∈ tr_keys []) then Some (sections_of k []) else None
  end = o.
Proof.
  destruct o as [l|]; cbn; [by rewrite app_nil_r |].
  rewrite bool_decide_eq_false_2; [done | apply not_elem_of_nil].
Qed.

(** When no token of township/range form comes right after a [County]
    token, the scan from position [i st] on adds, for every key, the
    section numbers that follow its appearances. *)
Lemma scan_loop_sections (tokens : list string) (k : Key) (fuel : nat)
    (st : ScanState) :
  (length tokens - i st ≤ fuel)%nat →
  tr_after_county (drop (i st) tokens) = false →
  trs_sections (scan_loop fuel tokens st) !! k
  = match trs_sections st !! k with
    | Some l => Some (l ++ sections_of k (drop (i st) tokens))
    | None =>
        if bool_decide (k ∈ tr_keys (drop (i st) tokens))
        then Some (sections_of k (drop (i st) tokens)) else None
    end.
Proof.
  revert st. induction fuel as [|fuel IH]; intros st Hfuel Hcounty.
  { rewrite drop_ge by lia. cbn [scan_loop]. by rewrite merge_nil. }
  cbn [scan_loop]. destruct (tokens !! i st) as [tok|] eqn:Htok.
  2:{ rewrite (drop_lookup_None _ _ Htok). by rewrite merge_nil. }
  pose proof (lookup_lt_Some _ _ _ Htok) as Hlt.
  rewrite (drop_lookup_cons _ _ _ Htok) in Hcounty |- *.
  fold (is_county tok).
  destruct (is_county tok && bool_decide (i st + 1 < length tokens)%nat) eqn:Hc.
  - apply andb_true_iff in Hc as [Hc Hnext%bool_decide_eq_true].
    destruct (tokens !! S (i st)) as [name|] eqn:Hname.
    2:{ apply lookup_ge_None in Hname. lia. }
    rewrite (drop_lookup_cons _ _ _ Hname) in Hcounty |- *.
    assert (tr_key name = None ∧ tr_after_county (drop (S (S (i st))) tokens) = false)
      as [Hn Hrest].
    { cbn [tr_after_county] in Hcounty. rewrite Hc in Hcounty. cbn [andb] in Hcounty.
      apply orb_false_iff in Hcounty as [Hn Hrest].
      split; [| by eapply tr_after_county_tail].
      apply bool_decide_eq_false in Hn. destruct (tr_key name); [| done].
      by destruct Hn. }
    rewrite IH; cbn [i trs_sections].
    + replace (i st + 2)%nat with (S (S (i st))) by lia.
      rewrite (sections_of_cons_None k tok _ (is_county_not_tr _ Hc)).
      rewrite (sections_of_cons_None k name _ Hn).
      rewrite (tr_keys_cons_None tok _ (is_county_not_tr _ Hc)).
      rewrite (tr_keys_cons_None name _ Hn). done.
    + lia.
    + by replace (i st + 2)%nat with (S (S (i st))) by lia.
  - destruct (tr_key tok) as [key|] eqn:Hkey.
    + rewrite section_loop_spec by lia.
      replace (i st + 1)%nat with (S (i st)) by lia.
      set (rest := drop (S (i st)) tokens) in *.
      assert (drop (S (i st) + run_len rest) tokens = drop (run_len rest) rest) as Hdrop.
      { unfold rest. by rewrite drop_drop. }
      rewrite IH; cbn [i trs_sections].
      2:{ lia. }
      2:{ rewrite Hdrop. by eapply tr_after_county_drop, tr_after_county_tail. }
      rewrite Hdrop, sections_of_run_len, tr_keys_run_len.
      rewrite (tr_keys_cons_Some tok key _ Hkey). cbn [sections_of]. rewrite Hkey.
      destruct (decide (key = k)) as [->|Hne].
      * rewrite lookup_alter_eq.
        rewrite (bool_decide_eq_true_2 (Some k = Some k)) by done.
        destruct (trs_sections st !! k) as [l0|] eqn:Hl0.
        -- rewrite Hl0. cbn. by rewrite app_assoc.
        -- rewrite lookup_insert_eq. cbn.
           rewrite bool_decide_eq_true_2; [done | by left].
      * rewrite lookup_alter_ne by done.
        rewrite (bool_decide_eq_false_2 (Some key = Some k)) by congruence.
        cbn [app].
        assert ((match trs_sections st !! key with
                 | Some _ => trs_sections st
                 | None => <[key:=[]]> (trs_sections st)
                 end) !! k = trs_sections st !! k) as ->.
        { destruct (trs_sections st !! key); [done |]. by rewrite lookup_insert_ne. }
        destruct (trs_sections st !! k); [done |].
        apply (f_equal (λ b : bool, if b then _ else _)).
        apply bool_decide_ext. rewrite elem_of_cons.
        split; [by right | intros [Heq|Hin]; [by destruct Hne | done]].
    + rewrite IH; cbn [i trs_sections].
      * replace (i st + 1)%nat with (S (i st)) by lia.
        by rewrite (sections_of_cons_None k tok _ Hkey), (tr_keys_cons_None tok _ Hkey).
      * lia.
      * replace (i st + 1)%nat with (S (i st)) by lia.
        by eapply tr_after_county_tail.
Qed.

(** The scan from the start of the tokens. *)
Lemma scan_sections (text : string) (k : Key) :
  tr_after_county (tokenize text) = false →
  trs_sections (scan text) !! k
  = if bool_decide (k ∈ tr_keys (tokenize text))
    then Some (sections_of k (tokenize text)) else None.
Proof.
  intros Hcounty. unfold scan.
  rewrite scan_loop_sections; cbn [i trs_sections drop]; [| lia | done].
  by rewrite lookup_empty.
Qed.

(** *** Fuel *)

(** The outer loop, run with enough fuel, ends with the cursor past
    the last token, ... *)
Lemma scan_loop_done (tokens : list string) (fuel : nat) (st : ScanState) :
  (length tokens - i st ≤ fuel)%nat →
  (length tokens ≤ i (scan_loop fuel tokens st))%nat.
Proof.
  revert st. induction fuel as [|fuel IH]; intros st Hfuel; [cbn; lia |].
  cbn [scan_loop]. destruct (tokens !! i st) as [tok|] eqn:Htok.
  2:{ by apply lookup_ge_None in Htok. }
  apply lookup_lt_Some in Htok.
  destruct (_ && _).
  - apply IH. cbn [i]. lia.
  - destruct (tr_key tok) as [key|].
    + rewrite section_loop_spec by lia. apply IH. cbn [i]. lia.
    + apply IH. cbn [i]. lia.
Qed.

(** ... and more fuel changes nothing. *)
Lemma scan_loop_fuel (tokens : list string) (fuel1 fuel2 : nat) (st : ScanState) :
  (length tokens - i st ≤ fuel1)%nat →
  (length tokens - i st ≤ fuel2)%nat →
  scan_loop fuel1 tokens st = scan_loop fuel2 tokens st.
Proof.
  revert fuel2 st. induction fuel1 as [|fuel1 IH]; intros fuel2 st H1 H2.
  - assert (tokens !! i st = None) as Hnone by (apply lookup_ge_None; lia).
    destruct fuel2; cbn [scan_loop]; by rewrite ?Hnone.
  - destruct fuel2 as [|fuel2].
    { assert (tokens !! i st = None) as Hnone by (apply lookup_ge_None; lia).
      cbn [scan_loop]. by rewrite Hnone. }
    cbn [scan_loop]. destruct (tokens !! i st) as [tok|] eqn:Htok; [| done].
    apply lookup_lt_Some in Htok.
    destruct (_ && _).
    + apply IH; cbn [i]; lia.
    + destruct (tr_key tok) as [key|].
      * rewrite !section_loop_spec by lia. apply IH; cbn [i]; lia.
      * apply IH; cbn [i]; lia.
Qed.

(** *** Keys once entered stay *)

Lemma scan_loop_dom_mono (tokens : list string) (k : Key) (fuel : nat)
    (st : ScanState) :
  (length tokens - i st ≤ fuel)%nat →
  k ∈ dom (trs_sections st) →
  k ∈ dom (trs_sections (scan_loop fuel tokens st)).
Proof.
  revert st. induction fuel as [|fuel IH]; intros st Hfuel Hk; [done |].
  cbn [scan_loop]. destruct (tokens !! i st) as [tok|] eqn:Htok; [| done].
  apply lookup_lt_Some in Htok.
  destruct (_ && _).
  - apply IH; cbn [i trs_sections]; [lia | done].
  - destruct (tr_key tok) as [key|].
    + rewrite section_loop_spec by lia. apply IH; cbn [i trs_sections]; [lia |].
      rewrite dom_alter_L.
      destruct (trs_sections st !! key); [done |].
      rewrite dom_insert_L. set_solver.
    + apply IH; cbn [i trs_sections]; [lia | done].
Qed.

(** The inner loop does not pass over a token of township/range
    form. *)
Lemma run_len_le (tokens : list string) (n : nat) (tok : string) (key : Key) :
  tokens !! n = Some tok → tr_key tok = Some key → (run_len tokens ≤ n)%nat.
Proof.
  revert n.
  induction tokens as [|t|t num rest IH] using pair_induction;
    intros n Hn Hkey; [done | |].
  - destruct n as [|n]; [| done]. cbn in Hn. injection Hn as ->.
    apply tr_key_not_word in Hkey as (_ & Hs & _). cbn. by rewrite Hs.
  - cbn [run_len]. destruct (is_section t) eqn:Hs; [| lia].
    destruct n as [|n].
    { cbn in Hn. injection Hn as ->.
      apply tr_key_not_word in Hkey as (_ & Hs' & _). congruence. }
    destruct (isdigit num) eqn:Hd; [| lia].
    destruct n as [|n].
    { cbn in Hn. injection Hn as ->.
      apply tr_key_not_word in Hkey as (_ & _ & Hd'). congruence. }
    cbn in Hn. specialize (IH n Hn Hkey). lia.
Qed.

(** A token of township/range form that does not come right after a
    [County] token is reached by the scan, and its key entered. *)
Lemma scan_loop_visits (tokens : list string) (j : nat) (tok : string)
    (key : Key) (fuel : nat) (st : ScanState) :
  tokens !! j = Some tok →
  tr_key tok = Some key →
  (∀ j' prev, j = S j' → tokens !! j' = Some prev → is_county prev = false) →
  (length tokens - i st ≤ fuel)%nat →
  (i st ≤ j)%nat →
  key ∈ dom (trs_sections (scan_loop fuel tokens st)).
Proof.
  intros Hj Hkey Hprev. revert st.
  pose proof (lookup_lt_Some _ _ _ Hj) as Hjlt.
  pose proof (tr_key_not_word _ _ Hkey) as (Hnc & _ & _).
  induction fuel as [|fuel IH]; intros st Hfuel Hle; [lia |].
  cbn [scan_loop]. destruct (tokens !! i st) as [t|] eqn:Ht.
  2:{ apply lookup_ge_None in Ht. lia. }
  fold (is_county t).
  destruct (is_county t && bool_decide (i st + 1 < length tokens)%nat) eqn:Hc.
  - apply andb_true_iff in Hc as [Hc _].
    assert (i st ≠ j) as Hne by (intros Heq; rewrite Heq in Ht; congruence).
    assert (S (i st) ≠ j) as Hne'.
    { intros Heq. rewrite (Hprev (i st) t) in Hc; done. }
    apply IH; cbn [i]; lia.
  - destruct (tr_key t) as [key'|] eqn:Hkey'.
    + rewrite section_loop_spec by lia.
      destruct (decide (i st = j)) as [Heq|Hne].
      * rewrite Heq in Ht. assert (key' = key) as -> by congruence.
        apply scan_loop_dom_mono; cbn [i trs_sections]; [lia |].
        rewrite dom_alter_L.
        destruct (trs_sections st !! key) eqn:Hl.
        -- apply elem_of_dom. by eexists.
        -- rewrite dom_insert_L. set_solver.
      * apply IH; cbn [i]; [lia |].
        assert (run_len (drop (i st + 1) tokens) ≤ j - (i st + 1))%nat; [| lia].
        apply (run_len_le _ _ tok key); [| done].
        rewrite lookup_drop. rewrite <- Hj. f_equal. lia.
    + assert (i st ≠ j) as Hne by (intros Heq; rewrite Heq in Ht; congruence).
      apply IH; cbn [i]; lia.
Qed.

Lemma run_len_length (tokens : list string) :
  (run_len tokens ≤ length tokens)%nat.
Proof.
  induction tokens as [|t|t num rest IH] using pair_induction; [done | |].
  - cbn. destruct (is_section t); lia.
  - cbn [run_len length]. destruct (is_section t); [| lia].
    destruct (isdigit num); lia.
Qed.

(** *** County names *)

Lemma blank_names_cons_county (tok name : string) (rest : list string) :
  is_county tok = true →
  blank_names (tok :: name :: rest) = tok :: "_"%string :: blank_names rest.
Proof. intros Hc. cbn [blank_names]. by rewrite Hc. Qed.

Lemma blank_names_cons_other (tok : string) (rest : list string) :
  is_county tok = false → blank_names (tok :: rest) = tok :: blank_names rest.
Proof. intros Hc. cbn [blank_names]. by rewrite Hc. Qed.

(** Induction along the tokens the way [blank_names] reads them. *)
Lemma blank_names_ind (P : list string → Prop) :
  P [] →
  (∀ tok, is_county tok = true → P [tok]) →
  (∀ tok name rest, is_county tok = true → P rest → P (tok :: name :: rest)) →
  (∀ tok rest, is_county tok = false → P rest → P (tok :: rest)) →
  ∀ tokens, P tokens.
Proof.
  intros Hnil Hlast Hname Hother.
  assert (∀ l, P l ∧ ∀ x, P (x :: l)) as H; [| intros l; apply H].
  induction l as [|y l [IH1 IH2]]; split; try done.
  - intros x. destruct (is_county x) eqn:Hx; [by apply Hlast | by apply Hother].
  - intros x. destruct (is_county x) eqn:Hx; [by apply Hname | by apply Hother].
Qed.

Lemma length_blank_names (tokens : list string) :
  length (blank_names tokens) = length tokens.
Proof.
  induction tokens as [|t Ht|t name rest Ht IH|t rest Ht IH] using blank_names_ind.
  - done.
  - cbn. by rewrite Ht.
  - rewrite blank_names_cons_county by done. cbn [length]. by rewrite IH.
  - rewrite blank_names_cons_other by done. cbn [length]. by rewrite IH.
Qed.

(** No name is left for a key. *)
Lemma tr_after_county_blank_names (tokens : list string) :
  tr_after_county (blank_names tokens) = false.
Proof.
  induction tokens as [|t Ht|t name rest Ht IH|t rest Ht IH] using blank_names_ind.
  - done.
  - cbn. by rewrite Ht.
  - rewrite blank_names_cons_county by done.
    change (tr_after_county (t :: "_"%string :: blank_names rest))
      with ((is_county t && bool_decide (is_Some (tr_key "_")))
            || tr_after_county ("_"%string :: blank_names rest)).
    rewrite andb_false_r. cbn [orb tr_after_county].
    destruct (blank_names rest); [done |]. exact IH.
  - rewrite blank_names_cons_other by done. cbn [tr_after_county].
    destruct (blank_names rest); [done |]. by rewrite Ht.
Qed.

(** The inner loop reads the same pairs with the names blanked. *)
Lemma blank_names_section (tok : string) (rest : list string) :
  is_section tok = true → blank_names (tok :: rest) = tok :: blank_names rest.
Proof.
  intros Hs. apply blank_names_cons_other.
  unfold is_section, is_county in *. apply String.eqb_eq in Hs.
  rewrite Hs. done.
Qed.

Lemma blank_names_digits (tok : string) (rest : list string) :
  isdigit tok = true → blank_names (tok :: rest) = tok :: blank_names rest.
Proof.
  intros Hd. apply blank_names_cons_other.
  destruct tok as [|c s]; [done |]. unfold is_county, lower.
  cbn [str_map String.eqb]. cbn [isdigit str_forall] in Hd.
  apply andb_true_iff in Hd as [Hc _].
  destruct c as [[] [] [] [] [] [] [] []]; try done; discriminate Hc.
Qed.

Lemma blank_names_head (tok : string) (rest : list string) :
  ∃ rest', blank_names (tok :: rest) = tok :: rest'.
Proof. cbn [blank_names]. destruct (is_county tok); [destruct rest |]; eauto. Qed.

Lemma blank_names_run (tokens : list string) :
  run_len (blank_names tokens) = run_len tokens
  ∧ section_run (blank_names tokens) = section_run tokens
  ∧ drop (run_len tokens) (blank_names tokens)
    = blank_names (drop (run_len tokens) tokens).
Proof.
  induction tokens as [|t|t num rest IH] using pair_induction.
  - done.
  - assert (blank_names [t] = [t]) as Hone by (cbn; by destruct (is_county t)).
    rewrite Hone. cbn [run_len]. destruct (is_section t); cbn [drop]; by rewrite ?Hone.
  - destruct (is_section t) eqn:Hs.
    + rewrite (blank_names_section t) by done. destruct (isdigit num) eqn:Hd.
      * rewrite (blank_names_digits num) by done. cbn [run_len section_run].
        rewrite Hs, Hd. cbn [andb drop]. destruct IH as (IH1 & IH2 & IH3).
        by rewrite IH1, IH2.
      * destruct (blank_names_head num rest) as [rest' Hrest]. rewrite Hrest.
        cbn [run_len section_run]. rewrite Hs, Hd. cbn [andb drop].
        by rewrite Hrest.
    + destruct (blank_names_head t (num :: rest)) as [rest' Hrest]. rewrite Hrest.
      cbn [run_len section_run]. rewrite Hs. cbn [andb drop]. rewrite Hrest.
      by destruct rest'.
Qed.

(** The scan of the tokens with the names blanked enters the same keys
    with the same sections. *)
Lemma scan_loop_blank_names (tokens : list string) (fuel : nat)
    (st st' : ScanState) :
  i st' = i st →
  trs_sections st' = trs_sections st →
  drop (i st) (blank_names tokens) = blank_names (drop (i st) tokens) →
  (length tokens - i st ≤ fuel)%nat →
  trs_sections (scan_loop fuel (blank_names tokens) st')
  = trs_sections (scan_loop fuel tokens st).
Proof.
  revert st st'. induction fuel as [|fuel IH]; intros st st' Hi Hd Hdrop Hfuel;
    [done |].
  cbn [scan_loop]. rewrite Hi, Hd, length_blank_names.
  destruct (tokens !! i st) as [tok|] eqn:Htok.
  2:{ rewrite (proj2 (lookup_ge_None _ _)); [done |].
      rewrite length_blank_names. by apply lookup_ge_None. }
  pose proof (lookup_lt_Some _ _ _ Htok) as Hlt.
  rewrite (drop_lookup_cons _ _ _ Htok) in Hdrop.
  assert (blank_names tokens !! i st = Some tok) as ->.
  { destruct (blank_names_head tok (drop (S (i st)) tokens)) as [rest' Hrest].
    rewrite Hrest in Hdrop.
    pose proof (lookup_drop (blank_names tokens) (i st) 0) as H0.
    rewrite Nat.add_0_r in H0. by rewrite <- H0, Hdrop. }
  fold (is_county tok).
  destruct (is_county tok) eqn:Hc; cbn [andb].
  - case_bool_decide as Hnext.
    + destruct (tokens !! (i st + 1)%nat) as [name|] eqn:Hname.
      2:{ apply lookup_ge_None in Hname. lia. }
      replace (S (i st)) with (i st + 1)%nat in Hdrop by lia.
      rewrite (drop_lookup_cons _ _ _ Hname) in Hdrop.
      rewrite blank_names_cons_county in Hdrop by done.
      apply IH; cbn [i trs_sections]; [done | done | | lia].
      rewrite <- (drop_drop (blank_names tokens)), Hdrop. cbn [drop].
      rewrite ?drop_0. f_equal. f_equal. lia.
    + rewrite (is_county_not_tr _ Hc).
      apply IH; cbn [i trs_sections]; [done | done | | lia].
      rewrite !drop_ge; [done | lia | rewrite length_blank_names; lia].
  - rewrite blank_names_cons_other in Hdrop by done.
    assert (drop (i st + 1) (blank_names tokens)
            = blank_names (drop (i st + 1) tokens)) as Hdrop1.
    { rewrite <- (drop_drop (blank_names tokens)), Hdrop. cbn [drop].
      rewrite ?drop_0. f_equal. f_equal. lia. }
    destruct (tr_key tok) as [key|].
    + rewrite !section_loop_spec by (rewrite ?length_blank_names; lia).
      rewrite Hdrop1.
      destruct (blank_names_run (drop (i st + 1) tokens)) as (Hrun & Hsec & Hrest).
      rewrite Hrun, Hsec.
      pose proof (run_len_length (drop (i st + 1) tokens)) as Hle.
      rewrite length_drop in Hle.
      set (rest := drop (i st + 1) tokens) in *.
      apply IH; cbn [i trs_sections]; [done | done | | lia].
      rewrite <- (drop_drop (blank_names tokens)), <- (drop_drop tokens), Hdrop1.
      exact Hrest.
    + by apply IH; cbn [i trs_sections]; [| | | lia].
Qed.

(** The keys of a text and their sections, read off its tokens. *)
Lemma scan_blank_names (text : string) (k : Key) :
  trs_sections (scan text) !! k
  = if bool_decide (k ∈ tr_keys (blank_names (tokenize text)))
    then Some (sections_of k (blank_names (tokenize text))) else None.
Proof.
  unfold scan.
  rewrite <- (scan_loop_blank_names (tokenize text) _
    {| i := 0; county := None; trs_sections := ∅ |}
    {| i := 0; county := None; trs_sections := ∅ |});
    cbn [i trs_sections drop]; [| done | done | done | lia].
  rewrite scan_loop_sections; cbn [i trs_sections drop];
    [| rewrite length_blank_names; lia | apply tr_after_county_blank_names].
  by rewrite lookup_empty.
Qed.

(** *** Keys and failure *)

(** C5 (as the code has it): in [County T33N-R19W] the one token of
    township/range form is taken as the area label, no key is entered,
    and the parse raises instead of returning a request with one key.
    And [repeated_key_text] holds three distinct tokens of that form,
    two of them spellings of one key: its request has two keys. *)
Lemma county_takes_key_token :
  tr_keys (tokenize county_key_text) = [(33, "N", 19, "W")]
  ∧ tr_after_county (tokenize county_key_text) = true
  ∧ county (scan county_key_text) = Some "T33N-R19W"
  ∧ trs_sections (scan county_key_text) = ∅
  ∧ parse_config_map (sample_fs county_key_text) "config.map" = Raise ValueError
  ∧ List.filter (λ tok, bool_decide (is_Some (tr_key tok)))
      (tokenize repeated_key_text)
    = ["T33N-R19W"; "t033n-r019w"; "T5S-R66E"]
  ∧ size (trs_sections (scan repeated_key_text)) = 2%nat.
Proof. repeat split; vm_compute; reflexivity. Qed.

(** C5 (amended): for an ASCII text whose tokens [int] can take, with
    at least one token of township/range form that is not taken as
    the county name, [parse_config_map] returns a request whose keys
    are exactly the keys those tokens denote, as many as there are
    distinct ones (tokens that differ in letter case or leading zeros
    denote one key); the list of keys holds each once; and the section
    list of a key joins, in text order, the section numbers that
    follow each of its appearances. *)
Theorem parse_config_map_keys (fs : FileSystem) (config_path text : string) :
  fs config_path = Some text →
  ascii_text text = true →
  short_tokens text = true →
  tr_keys (blank_names (tokenize text)) ≠ [] →
  ∃ label trs_list d,
    parse_config_map fs config_path = Ok (label, trs_list, d)
    ∧ dom d = list_to_set (tr_keys (blank_names (tokenize text)))
    ∧ size d = length (remove_dups (tr_keys (blank_names (tokenize text))))
    ∧ trs_list ≡ₚ remove_dups (tr_keys (blank_names (tokenize text)))
    ∧ ∀ k, k ∈ tr_keys (blank_names (tokenize text)) →
        d !! k = Some (sections_of k (blank_names (tokenize text))).
Proof.
  intros Hfile _ _ Hsome.
  pose proof (scan_blank_names text) as Hlook.
  set (tokens := blank_names (tokenize text)) in *.
  set (d := trs_sections (scan text)) in *.
  assert (dom d = list_to_set (tr_keys tokens)) as Hdom.
  { apply set_eq. intros k. rewrite elem_of_dom, elem_of_list_to_set, Hlook.
    case_bool_decide; [| by split; [intros [? ?] |]].
    split; [done | by eexists]. }
  assert (d ≠ ∅) as Hne.
  { intros Hempty. destruct (tr_keys tokens) as [|k ks] eqn:Hks; [done |].
    specialize (Hlook k). rewrite Hempty, lookup_empty in Hlook.
    rewrite bool_decide_eq_true_2 in Hlook; [done | by left]. }
  exists (county (scan text)), (merge_sort key_le (map fst (map_to_list d))), d.
  split; [| split; [done |]; split; [| split]].
  - unfold parse_config_map. rewrite Hfile. cbn zeta. fold d.
    by rewrite bool_decide_eq_false_2.
  - transitivity (size (dom d)); [symmetry; apply size_dom |]. rewrite Hdom.
    transitivity (size (list_to_set (C:=gset Key) (remove_dups (tr_keys tokens)))).
    + f_equal. apply set_eq. intros k.
      by rewrite !elem_of_list_to_set, elem_of_remove_dups.
    + apply size_list_to_set, NoDup_remove_dups.
  - rewrite merge_sort_Permutation. apply NoDup_Permutation.
    + apply (NoDup_fst_map_to_list d).
    + apply NoDup_remove_dups.
    + intros k. rewrite elem_of_remove_dups.
      transitivity (k ∈ dom d); [| rewrite Hdom; apply elem_of_list_to_set].
      rewrite elem_of_dom.
      change (map fst (map_to_list d)) with ((map_to_list d).*1).
      rewrite list_elem_of_fmap. split.
      * intros ([k' l] & -> & Hin). apply elem_of_map_to_list in Hin. by eexists.
      * intros [l Hl]. exists (k, l). split; [done |]. by apply elem_of_map_to_list.
  - intros k Hk. rewrite Hlook. by rewrite bool_decide_eq_true_2.
Qed.

Lemma parse_config_map_keys_witness :
  sample_fs county_repeated_key_text "config.map" = Some county_repeated_key_text
  ∧ ascii_text county_repeated_key_text = true
  ∧ short_tokens county_repeated_key_text = true
  ∧ tr_keys (blank_names (tokenize county_repeated_key_text))
    = [(33, "N", 19, "W"); (33, "N", 19, "W"); (5, "S", 66, "E")]
  ∧ ∃ label trs_list d,
      parse_config_map (sample_fs county_repeated_key_text) "config.map"
      = Ok (label, trs_list, d)
      ∧ dom d = list_to_set (tr_keys (blank_names (tokenize county_repeated_key_text)))
      ∧ size d
        = length (remove_dups
                    (tr_keys (blank_names (tokenize county_repeated_key_text))))
      ∧ trs_list
        ≡ₚ remove_dups (tr_keys (blank_names (tokenize county_repeated_key_text)))
      ∧ ∀ k, k ∈ tr_keys (blank_names (tokenize county_repeated_key_text)) →
          d !! k
          = Some (sections_of k (blank_names (tokenize county_repeated_key_text))).
Proof.
  split; [reflexivity |]. split; [vm_compute; reflexivity |].
  split; [vm_compute; reflexivity |]. split; [vm_compute; reflexivity |].
  apply (parse_config_map_keys (sample_fs county_repeated_key_text) "config.map"
           county_repeated_key_text).
  - reflexivity.
  - vm_compute. reflexivity.
  - vm_compute. reflexivity.
  - vm_compute. discriminate.
Defined.

(** The request of [repeated_key_text]: two keys for three tokens, the
    two section numbers of the repeated key in one list. *)
Example parse_repeated_key :
  parse_config_map (sample_fs repeated_key_text) "config.map"
  = Ok (None, [(5, "S", 66, "E"); (33, "N", 19, "W")],
        {[ (33, "N", 19, "W") := [10; 12]; (5, "S", 66, "E") := [] ]}).
Proof. vm_compute. reflexivity. Qed.

(** C6 (as the code has it): [county T1N-R1W Section 3] holds a token
    of township/range form, and the parse raises all the same: the
    token is taken as the area label. *)
Lemma county_key_still_fails :
  tr_keys (tokenize county_key_sections_text) = [(1, "N", 1, "W")]
  ∧ county (scan county_key_sections_text) = Some "T1N-R1W"
  ∧ parse_config_map (sample_fs county_key_sections_text) "config.map"
    = Raise ValueError.
Proof. repeat split; vm_compute; reflexivity. Qed.

(** C6 (amended): on an ASCII text whose tokens [int] can take,
    [parse_config_map] raises its configuration error exactly when no
    token of township/range form is left once the county names are
    set aside, and returns exactly when one is left. So it raises
    when the text has no token of township/range form, and returns,
    with the key of that token entered, when such a token does not
    come right after a [County] token. *)
Theorem parse_config_map_fails_iff (fs : FileSystem) (config_path text : string) :
  fs config_path = Some text →
  ascii_text text = true →
  short_tokens text = true →
  (parse_config_map fs config_path = Raise ValueError
     ↔ tr_keys (blank_names (tokenize text)) = [])
  ∧ ((∃ r, parse_config_map fs config_path = Ok r)
     ↔ tr_keys (blank_names (tokenize text)) ≠ [])
  ∧ (tr_keys (tokenize text) = [] →
     parse_config_map fs config_path = Raise ValueError)
  ∧ (∀ j tok key,
       tokenize text !! j = Some tok →
       tr_key tok = Some key →
       (∀ j' prev, j = S j' → tokenize text !! j' = Some prev →
          is_county prev = false) →
       ∃ label trs_list d,
         parse_config_map fs config_path = Ok (label, trs_list, d)
         ∧ key ∈ dom d).
Proof.
  intros Hfile _ _.
  assert (trs_sections (scan text) = ∅
          ↔ tr_keys (blank_names (tokenize text)) = []) as Hempty.
  { split.
    - intros Hnone. destruct (tr_keys _) as [|k ks] eqn:Hks; [done |].
      pose proof (scan_blank_names text k) as Hk.
      rewrite Hnone, lookup_empty, Hks in Hk.
      rewrite bool_decide_eq_true_2 in Hk; [done | by left].
    - intros Hnone. apply map_eq. intros k.
      rewrite lookup_empty, scan_blank_names, Hnone.
      rewrite bool_decide_eq_false_2; [done | apply not_elem_of_nil]. }
  unfold parse_config_map. rewrite Hfile. cbn zeta.
  split; [| split; [| split]].
  - rewrite <- Hempty. case_bool_decide; split; done.
  - rewrite <- Hempty. case_bool_decide; split; try done.
    + by intros [r ?].
    + by eexists.
  - intros Hnone. rewrite bool_decide_eq_true_2; [done |].
    apply map_eq. intros k. rewrite lookup_empty.
    rewrite scan_sections.
    + rewrite Hnone. rewrite bool_decide_eq_false_2; [done | apply not_elem_of_nil].
    + clear Hfile Hempty. induction (tokenize text) as [|tok rest IH]; [done |].
      pose proof (tr_keys_cons_None tok rest) as Hcons.
      destruct (tr_key tok) eqn:Hk.
      { by rewrite (tr_keys_cons_Some tok _ rest Hk) in Hnone. }
      rewrite Hcons in Hnone by done. specialize (IH Hnone).
      cbn. destruct rest as [|tok' rest]; [done |]. rewrite IH.
      rewrite orb_false_r. apply andb_false_iff. right.
      apply bool_decide_eq_false_2. intros [k' Hk'].
      destruct (tr_key tok') eqn:Hk2; [| done].
      by rewrite (tr_keys_cons_Some tok' _ rest Hk2) in Hnone.
  - intros j tok key Hj Hkey Hprev.
    assert (key ∈ dom (trs_sections (scan text))) as Hin.
    { unfold scan. eapply scan_loop_visits; eauto; cbn [i]; lia. }
    rewrite bool_decide_eq_false_2.
    + by eexists _, _, _.
    + intros Hnone. rewrite Hnone in Hin. by apply not_elem_of_empty in Hin.
Qed.

Lemma parse_config_map_fails_iff_witness :
  sample_fs scenario_text "config.map" = Some scenario_text
  ∧ ascii_text scenario_text = true
  ∧ short_tokens scenario_text = true
  ∧ (parse_config_map (sample_fs scenario_text) "config.map" = Raise ValueError
       ↔ tr_keys (blank_names (tokenize scenario_text)) = [])
  ∧ ∃ label trs_list d,
      parse_config_map (sample_fs scenario_text) "config.map"
      = Ok (label, trs_list, d)
      ∧ (33, "N", 19, "W") ∈ dom d.
Proof.
  assert (ascii_text scenario_text = true) as Hascii by (vm_compute; reflexivity).
  assert (short_tokens scenario_text = true) as Hshort by (vm_compute; reflexivity).
  pose proof (parse_config_map_fails_iff (sample_fs scenario_text) "config.map"
                scenario_text eq_refl Hascii Hshort) as (Hiff & _ & _ & Hkey).
  split; [reflexivity |]. split; [exact Hascii |]. split; [exact Hshort |].
  split; [exact Hiff |].
  apply (Hkey 2%nat "T33N-R19W" (33, "N", 19, "W")).
  - vm_compute. reflexivity.
  - vm_compute. reflexivity.
  - intros j' prev [= <-]. vm_compute. intros [= <-]. reflexivity.
Defined.

(** * Further properties *)

(** ** The tokens of a text *)

Lemma str_forall_app (p : ascii → bool) (s t : string) :
  str_forall p (s +:+ t) = str_forall p s && str_forall p t.
Proof.
  induction s as [|c s IH]; [done |].
  change (String c s +:+ t) with (String c (s +:+ t)). cbn.
  by rewrite IH, andb_assoc.
Qed.

Lemma str_forall_map (p : ascii → bool) (f : ascii → ascii) (s : string) :
  str_forall p (str_map f s) = str_forall (λ c, p (f c)) s.
Proof. induction s as [|c s IH]; cbn; [done | by rewrite IH]. Qed.

Lemma str_forall_true (p : ascii → bool) (s : string) :
  (∀ c, p c = true) → str_forall p s = true.
Proof. intros Hp. induction s as [|c s IH]; cbn; [done | by rewrite Hp, IH]. Qed.

Lemma str_map_map (f g : ascii → ascii) (s : string) :
  str_map f (str_map g s) = str_map (λ c, f (g c)) s.
Proof. induction s as [|c s IH]; cbn; [done | by rewrite IH]. Qed.

(** The tokens of [split_from] hold the characters of [cur] and the
    characters of [s] that are not spaces, and none is empty. *)
Lemma split_from_tokens (p : ascii → bool) (cur s tok : string) :
  str_forall p cur = true →
  str_forall (λ c, is_space c || p c) s = true →
  tok ∈ split_from cur s →
  tok ≠ "" ∧ str_forall p tok = true.
Proof.
  revert cur. induction s as [|c s IH]; intros cur Hcur Hs Hin.
  - cbn in Hin. destruct (String.eqb_spec cur ""); [by apply elem_of_nil in Hin |].
    by apply list_elem_of_singleton in Hin as ->.
  - cbn in Hs, Hin. apply andb_true_iff in Hs as [Hc Hs].
    destruct (is_space c) eqn:Hsp.
    + destruct (String.eqb_spec cur "").
      * by apply (IH ""%string).
      * apply elem_of_cons in Hin as [->|Hin]; [done |]. by apply (IH ""%string).
    + apply (IH (cur +:+ String c "")); [| done | done].
      rewrite str_forall_app, Hcur. cbn in Hc |- *. by rewrite Hc.
Qed.

(** X1: every token of a configuration text is non-empty and holds no
    whitespace and none of the four punctuation characters. *)
Theorem tokenize_tokens (text tok : string) :
  tok ∈ tokenize text → tok ≠ "" ∧ str_forall token_char tok = true.
Proof.
  unfold tokenize, split. cbn [fold_left]. unfold replace.
  rewrite !str_map_map. apply split_from_tokens; [done |].
  rewrite str_forall_map. apply str_forall_true.
  intros [[] [] [] [] [] [] [] []]; reflexivity.
Qed.

Lemma tokenize_tokens_witness :
  "T33N-R19W" ∈ tokenize "County: Larimer, T33N-R19W; Section 10."
  ∧ "T33N-R19W" ≠ ""
  ∧ str_forall token_char "T33N-R19W" = true
  ∧ tokenize "County: Larimer, T33N-R19W; Section 10."
    = ["County"; "Larimer"; "T33N-R19W"; "Section"; "10"].
Proof.
  assert ("T33N-R19W" ∈ tokenize "County: Larimer, T33N-R19W; Section 10.") as Hin.
  { vm_compute. repeat constructor. }
  destruct (tokenize_tokens _ _ Hin) as [Hne Hchars].
  split; [exact Hin |]. split; [exact Hne |]. split; [exact Hchars |].
  vm_compute. reflexivity.
Defined.

(** ** Keys and their text *)

Lemma is_digit_digit_char (d : N) : d < 10 → is_digit (digit_char d) = true.
Proof.
  intros Hd. unfold is_digit, digit_char, code.
  rewrite N_ascii_embedding by lia.
  apply andb_true_iff. split; apply N.leb_le; lia.
Qed.

Lemma decimal_from_digits (fuel : nat) (n : N) (acc : string) :
  str_forall is_digit acc = true →
  str_forall is_digit (decimal_from fuel n acc) = true.
Proof.
  revert n acc. induction fuel as [|fuel IH]; intros n acc Hacc; [done |].
  cbn [decimal_from]. destruct (div_mod_10 n) as (Hmod & _ & _).
  assert (str_forall is_digit (String (digit_char (n `mod` 10)) acc) = true) as H.
  { cbn. by rewrite is_digit_digit_char, Hacc. }
  destruct (n / 10 =? 0); [done | by apply IH].
Qed.

(** The text of a number is a run of digits, one at least. *)
Lemma str_of_int_isdigit (n : N) : isdigit (str_of_int n) = true.
Proof.
  pose proof (decimal_from_digits (S (N.to_nat (N.log2 n))) n "" eq_refl) as Hd.
  pose proof (length_decimal_from (N.to_nat (N.log2 n)) n "") as Hlen.
  unfold str_of_int in *. unfold isdigit.
  destruct (decimal_from _ n ""); [cbn in Hlen; lia | done].
Qed.

Lemma span_digits_app (ds : string) (c : ascii) (rest : string) :
  str_forall is_digit ds = true → is_digit c = false →
  span_digits (ds +:+ String c rest) = (ds, String c rest).
Proof.
  intros Hds Hc. induction ds as [|d ds IH].
  - change ("" +:+ String c rest) with (String c rest). cbn. by rewrite Hc.
  - change (String d ds +:+ String c rest) with (String d (ds +:+ String c rest)).
    cbn in Hds |- *. apply andb_true_iff in Hds as [-> Hds]. by rewrite IH.
Qed.

Lemma isdigit_cons (s : string) :
  isdigit s = true → ∃ d ds, s = String d ds ∧ str_forall is_digit s = true.
Proof. destruct s as [|d ds]; [done |]. intros Hs. by exists d, ds. Qed.

(** X2: a key with directions N or S and E or W, printed the way the
    script prints keys ([T33N-R19W]), is read back by the pattern of
    the parser as the same key. *)
Theorem tr_key_key_text (key : Key) :
  key_dirs_ok key → tr_key (key_text key) = Some key.
Proof.
  destruct key as [[[t_num tdir] r_num] rdir]. intros [Ht Hr].
  destruct (isdigit_cons _ (str_of_int_isdigit t_num)) as (d1 & ds1 & E1 & H1).
  destruct (isdigit_cons _ (str_of_int_isdigit r_num)) as (d2 & ds2 & E2 & H2).
  assert (∃ a, tdir = String a "" ∧ is_digit a = false
               ∧ (char_is a "N" || char_is a "S") = true
               ∧ upper tdir = tdir) as (a & -> & Ha & Hns & Hup1).
  { destruct Ht as [-> | ->]; eexists; split; done. }
  assert (∃ b, rdir = String b "" ∧ is_digit b = false
               ∧ (char_is b "E" || char_is b "W") = true
               ∧ upper rdir = rdir) as (b & -> & Hb & Hew & Hup2).
  { destruct Hr as [-> | ->]; eexists; split; done. }
  unfold tr_key, tr_pattern_match, key_text.
  change (char_is "T" "T") with true. cbn match.
  change (str_of_int t_num +:+ String a "" +:+ String "-" (String "R" (str_of_int r_num +:+ String b "")))
    with (str_of_int t_num +:+ String a (String "-" (String "R" (str_of_int r_num +:+ String b "")))).
  rewrite (span_digits_app _ a _ H1 Ha).
  rewrite E1 at 1. rewrite Hns. change (Ascii.eqb "-" "-") with true.
  change (char_is "R" "R") with true. cbn [andb].
  rewrite (span_digits_app _ b _ H2 Hb).
  rewrite E2 at 1. rewrite Hew.
  rewrite <- E1, <- E2, !int_str_of_int, Hup1, Hup2. done.
Qed.

Lemma tr_key_key_text_witness :
  key_dirs_ok (33, "N", 19, "W")
  ∧ key_text (33, "N", 19, "W") = "T33N-R19W"
  ∧ tr_key (key_text (33, "N", 19, "W")) = Some (33, "N", 19, "W").
Proof.
  assert (key_dirs_ok (33, "N", 19, "W")) as Hok by (split; [by left | by right]).
  split; [exact Hok |]. split; [vm_compute; reflexivity |].
  exact (tr_key_key_text (33, "N", 19, "W") Hok).
Defined.

Lemma char_is_upper (c letter : ascii) :
  char_is c letter = true → upper (String c "") = String letter "".
Proof.
  unfold char_is. intros H%Ascii.eqb_eq. unfold upper. cbn. by rewrite H.
Qed.

Lemma tr_key_dirs_aux (tok : string) (key : Key) :
  tr_key tok = Some key → key_dirs_ok key.
Proof.
  unfold tr_key, tr_pattern_match. destruct tok as [|t s1]; [done |].
  destruct (char_is t "T"); [| done].
  destruct (span_digits s1) as [[|d ds] [|ns [|dash [|r s2]]]]; try done.
  destruct ((char_is ns "N" || char_is ns "S") && Ascii.eqb dash "-" && char_is r "R")
    eqn:Hmid; [| done].
  apply andb_true_iff in Hmid as [[Hns _]%andb_true_iff _].
  destruct (span_digits s2) as [[|e es] [|ew [|? ?]]]; try done.
  destruct (char_is ew "E" || char_is ew "W") eqn:Hew; [| done].
  intros [= <-]. split.
  - apply orb_true_iff in Hns as [H|H]; apply char_is_upper in H; rewrite H; auto.
  - apply orb_true_iff in Hew as [H|H]; apply char_is_upper in H; rewrite H; auto.
Qed.

(** X3: whatever the spelling of the token, the key read from it has
    an upper-case direction N or S for the township and E or W for the
    range. *)
Theorem tr_key_dirs (tok : string) (key : Key) :
  tr_key tok = Some key → key_dirs_ok key.
Proof. intros Hkey. exact (tr_key_dirs_aux tok key Hkey). Qed.

Lemma tr_key_dirs_witness :
  tr_key "t033n-r019w" = Some (33, "N", 19, "W") ∧ key_dirs_ok (33, "N", 19, "W").
Proof.
  assert (tr_key "t033n-r019w" = Some (33, "N", 19, "W")) as Hk
    by (vm_compute; reflexivity).
  split; [exact Hk | exact (tr_key_dirs _ _ Hk)].
Defined.

(** ** What a request holds *)

(** The scan enters no key but the keys of tokens. *)
Lemma scan_loop_dom_tokens (tokens : list string) (k : Key) (fuel : nat)
    (st : ScanState) :
  (length tokens - i st ≤ fuel)%nat →
  k ∈ dom (trs_sections (scan_loop fuel tokens st)) →
  k ∈ dom (trs_sections st) ∨ k ∈ tr_keys tokens.
Proof.
  revert st. induction fuel as [|fuel IH]; intros st Hfuel Hk; [by left |].
  cbn [scan_loop] in Hk. destruct (tokens !! i st) as [tok|] eqn:Htok; [| by left].
  pose proof (lookup_lt_Some _ _ _ Htok) as Hlt.
  destruct (_ && _).
  - apply IH in Hk; cbn [i trs_sections] in *; [done | lia].
  - destruct (tr_key tok) as [key|] eqn:Hkey.
    + rewrite section_loop_spec in Hk by lia.
      apply IH in Hk; cbn [i trs_sections] in *; [| lia].
      destruct Hk as [Hk|Hk]; [| by right].
      rewrite dom_alter_L in Hk.
      destruct (trs_sections st !! key); [by left |].
      rewrite dom_insert_L in Hk. apply elem_of_union in Hk as [Hk|Hk]; [| by left].
      apply elem_of_singleton in Hk as ->. right.
      unfold tr_keys. apply list_elem_of_omap. exists tok. split; [| done].
      by eapply list_elem_of_lookup_2.
    + apply IH in Hk; cbn [i trs_sections] in *; [done | lia].
Qed.

Lemma key_compare_antisym (a b : Key) :
  key_compare a b = CompOpp (key_compare b a).
Proof.
  destruct a as [[[t1 td1] r1] rd1], b as [[[t2 td2] r2] rd2]. cbn.
  rewrite (N.compare_antisym t2 t1). destruct (t2 ?= t1); cbn; try done.
  rewrite (String.compare_antisym td1 td2). destruct (String.compare td2 td1); cbn; try done.
  rewrite (N.compare_antisym r2 r1). destruct (r2 ?= r1); cbn; try done.
  apply String.compare_antisym.
Qed.

Lemma key_le_total : Total key_le.
Proof.
  intros a b. unfold key_le. rewrite (key_compare_antisym b a).
  destruct (key_compare a b); cbn; auto.
Qed.

(** The key list of a request holds the keys of its mapping. *)
Lemma parse_trs_list_dom (fs : FileSystem) (config_path : string)
    (label : option string) (trs_list : list Key) (d : gmap Key (list N)) :
  parse_config_map fs config_path = Ok (label, trs_list, d) →
  ∀ k, k ∈ trs_list ↔ k ∈ dom d.
Proof.
  unfold parse_config_map. destruct (fs config_path) as [text|]; [| done].
  cbn zeta. case_bool_decide as Hne; [done |]. intros [= <- <- <-] k.
  rewrite merge_sort_Permutation, elem_of_dom.
  change (map fst (map_to_list (trs_sections (scan text))))
    with ((map_to_list (trs_sections (scan text))).*1).
  rewrite list_elem_of_fmap. split.
  - intros ([k' l] & -> & Hin). apply elem_of_map_to_list in Hin. by eexists.
  - intros [l Hl]. exists (k, l). split; [done |]. by apply elem_of_map_to_list.
Qed.

(** X4: the key list of a request is sorted by the order of tuples,
    holds no key twice, and holds exactly the keys of the mapping; and
    every key of the mapping is the key of a token of the text, with
    upper-case directions N or S and E or W. *)
Theorem parse_config_map_request (fs : FileSystem) (config_path : string)
    (label : option string) (trs_list : list Key) (d : gmap Key (list N)) :
  parse_config_map fs config_path = Ok (label, trs_list, d) →
  ∃ text,
    fs config_path = Some text
    ∧ trs_list ≠ []
    ∧ Sorted key_le trs_list
    ∧ NoDup trs_list
    ∧ (∀ k, k ∈ trs_list ↔ k ∈ dom d)
    ∧ (∀ k, k ∈ dom d → k ∈ tr_keys (tokenize text) ∧ key_dirs_ok k).
Proof.
  unfold parse_config_map. destruct (fs config_path) as [text|]; [| done].
  cbn zeta. case_bool_decide as Hne; [done |]. intros [= <- <- <-].
  exists text. split; [done |].
  set (d := trs_sections (scan text)) in *.
  assert (merge_sort key_le (map fst (map_to_list d)) ≡ₚ (map_to_list d).*1) as Hperm
    by apply merge_sort_Permutation.
  assert (∀ k, k ∈ merge_sort key_le (map fst (map_to_list d)) ↔ k ∈ dom d) as Hmem.
  { intros k. rewrite Hperm, elem_of_dom, list_elem_of_fmap. split.
    - intros ([k' l] & -> & Hin). apply elem_of_map_to_list in Hin. by eexists.
    - intros [l Hl]. exists (k, l). split; [done |]. by apply elem_of_map_to_list. }
  split; [| split; [| split; [| split; [done |]]]].
  - intros Hnil. apply Hne. apply map_eq. intros k. rewrite lookup_empty.
    apply not_elem_of_dom. rewrite <- Hmem, Hnil. apply not_elem_of_nil.
  - apply (@Sorted_merge_sort _ key_le _ key_le_total).
  - rewrite Hperm. apply NoDup_fst_map_to_list.
  - intros k Hk.
    assert (k ∈ tr_keys (tokenize text)) as Hin.
    { unfold d, scan in Hk. apply scan_loop_dom_tokens in Hk; cbn [i] in *; [| lia].
      destruct Hk as [Hk|Hk]; [| done]. cbn in Hk. by rewrite dom_empty_L in Hk. }
    split; [done |].
    unfold tr_keys in Hin. apply list_elem_of_omap in Hin as (tok & _ & Htok).
    by eapply tr_key_dirs_aux.
Qed.

Lemma parse_config_map_request_witness :
  parse_config_map (sample_fs repeated_key_text) "config.map"
  = Ok (None, [(5, "S", 66, "E"); (33, "N", 19, "W")],
        {[ (33, "N", 19, "W") := [10; 12]; (5, "S", 66, "E") := [] ]})
  ∧ Sorted key_le [(5, "S", 66, "E"); (33, "N", 19, "W")]
  ∧ NoDup [(5, "S", 66, "E"); (33, "N", 19, "W")].
Proof.
  assert (parse_config_map (sample_fs repeated_key_text) "config.map"
    = Ok (None, [(5, "S", 66, "E"); (33, "N", 19, "W")],
        {[ (33, "N", 19, "W") := [10; 12]; (5, "S", 66, "E") := [] ]})) as Hp
    by (vm_compute; reflexivity).
  destruct (parse_config_map_request _ _ _ _ _ Hp) as (text & _ & _ & Hs & Hn & _).
  split; [exact Hp |]. split; [exact Hs | exact Hn].
Defined.

(** ** The area label *)

Lemma scan_loop_county (tokens : list string) (c : string) (fuel : nat)
    (st : ScanState) :
  county (scan_loop fuel tokens st) = Some c →
  county st = Some c
  ∨ ∃ j tok, tokens !! j = Some tok ∧ is_county tok = true
             ∧ tokens !! S j = Some c.
Proof.
  revert st. induction fuel as [|fuel IH]; intros st Hc; [by left |].
  cbn [scan_loop] in Hc. destruct (tokens !! i st) as [tok|] eqn:Htok; [| by left].
  fold (is_county tok) in Hc.
  destruct (is_county tok && bool_decide (i st + 1 < length tokens)%nat) eqn:Hcounty.
  - apply andb_true_iff in Hcounty as [Hcounty _].
    apply IH in Hc as [Hc|Hc]; [| by right]. cbn [county] in Hc.
    right. exists (i st), tok. replace (S (i st)) with (i st + 1)%nat by lia. done.
  - destruct (tr_key tok) as [key|].
    + destruct (section_loop _ _ _ _ _) as [i' d'].
      apply IH in Hc as [Hc|Hc]; [by left | by right].
    + apply IH in Hc as [Hc|Hc]; [by left | by right].
Qed.

(** X5: the area label of a request, when there is one, is the token
    that comes right after a [County] token of the text (in any letter
    case), and is not empty; a text without a [County] token gives no
    label. *)
Theorem parse_config_map_label (fs : FileSystem) (config_path : string)
    (label : option string) (trs_list : list Key) (d : gmap Key (list N)) :
  parse_config_map fs config_path = Ok (label, trs_list, d) →
  ∃ text,
    fs config_path = Some text
    ∧ (∀ c, label = Some c →
         c ≠ ""
         ∧ ∃ j tok, tokenize text !! j = Some tok ∧ lower tok = "county"
                    ∧ tokenize text !! S j = Some c)
    ∧ ((∀ tok, tok ∈ tokenize text → lower tok ≠ "county") → label = None).
Proof.
  unfold parse_config_map. destruct (fs config_path) as [text|]; [| done].
  cbn zeta. case_bool_decide as Hne; [done |]. intros [= <- <- <-].
  exists text. split; [done |].
  assert (∀ c, county (scan text) = Some c →
    ∃ j tok, tokenize text !! j = Some tok ∧ lower tok = "county"
             ∧ tokenize text !! S j = Some c) as Hlabel.
  { intros c Hc. unfold scan in Hc. apply scan_loop_county in Hc as [Hc|Hc]; [done |].
    destruct Hc as (j & tok & Hj & Hcounty & Hnext).
    exists j, tok. split; [done |]. split; [| done].
    by apply String.eqb_eq in Hcounty. }
  split.
  - intros c Hc. destruct (Hlabel c Hc) as (j & tok & Hj & Hcounty & Hnext).
    split; [| by eauto].
    apply list_elem_of_lookup_2 in Hnext. unfold tokenize, split in Hnext.
    refine (proj1 (split_from_tokens (λ _, true) "" _ c eq_refl _ Hnext)).
    apply str_forall_true. intros a. apply orb_true_r.
  - intros Hnone. destruct (county (scan text)) as [c|] eqn:Hc; [| done].
    destruct (Hlabel c eq_refl) as (j & tok & Hj & Hcounty & _).
    destruct (Hnone tok); [| done]. by eapply list_elem_of_lookup_2.
Qed.

Lemma parse_config_map_label_witness :
  parse_config_map (sample_fs scenario_text) "config.map"
  = Ok (Some "Larimer", [(33, "N", 19, "W")], {[ (33, "N", 19, "W") := [10; 12] ]})
  ∧ ∃ j tok, tokenize scenario_text !! j = Some tok ∧ lower tok = "county"
             ∧ tokenize scenario_text !! S j = Some "Larimer".
Proof.
  assert (parse_config_map (sample_fs scenario_text) "config.map"
    = Ok (Some "Larimer", [(33, "N", 19, "W")],
          {[ (33, "N", 19, "W") := [10; 12] ]})) as Hp by (vm_compute; reflexivity).
  destruct (parse_config_map_label _ _ _ _ _ Hp) as (text & Hfile & Hlabel & _).
  injection Hfile as <-.
  split; [exact Hp |]. exact (proj2 (Hlabel "Larimer" eq_refl)).
Defined.

(** ** How identifiers and keys meet *)

Lemma plssid_matches_true (key : Key) (raw : string) :
  plssid_matches key raw = true ↔
    slice 4 7 raw = format_0d 3 key.1.1.1
    ∧ upper <$> str_get 8 raw = Some key.1.1.2
    ∧ slice 9 12 raw = format_0d 3 key.1.2
    ∧ upper <$> str_get 13 raw = Some key.2.
Proof.
  destruct key as [[[t_num tdir] r_num] rdir]. unfold plssid_matches. cbn [fst snd].
  rewrite !andb_true_iff, !bool_decide_eq_true. done.
Qed.

(** X6: an identifier carries one key at most: two keys that match the
    same PLSSID are the same key. So the per-key counts of a township
    selection add up to the size of the selection when the keys are
    distinct. *)
Theorem plssid_matches_unique (key1 key2 : Key) (raw : string) :
  plssid_matches key1 raw = true →
  plssid_matches key2 raw = true →
  key1 = key2.
Proof.
  intros (Ht1 & Hd1 & Hr1 & He1)%plssid_matches_true
         (Ht2 & Hd2 & Hr2 & He2)%plssid_matches_true.
  destruct key1 as [[[t1 td1] r1] rd1], key2 as [[[t2 td2] r2] rd2].
  cbn [fst snd] in *.
  rewrite Ht1 in Ht2. apply format_0d_inj in Ht2 as ->.
  rewrite Hr1 in Hr2. apply format_0d_inj in Hr2 as ->.
  congruence.
Qed.

Lemma plssid_matches_unique_witness :
  plssid_matches (5, "N", 66, "W") "CO060050N0660W0" = true
  ∧ plssid_matches (33, "N", 19, "W") "CO060050N0660W0" = false.
Proof.
  assert (plssid_matches (5, "N", 66, "W") "CO060050N0660W0" = true) as H1
    by (vm_compute; reflexivity).
  split; [exact H1 |].
  destruct (plssid_matches (33, "N", 19, "W") "CO060050N0660W0") eqn:H2; [| done].
  discriminate (plssid_matches_unique _ _ _ H1 H2).
Defined.

Lemma length_decimal_from_mono (fuel : nat) (n : N) (acc : string) :
  (String.length acc ≤ String.length (decimal_from fuel n acc))%nat.
Proof.
  destruct fuel as [|fuel]; [done |].
  pose proof (length_decimal_from fuel n acc). lia.
Qed.

Lemma length_decimal_from_ge (fuel : nat) (n : N) (k : nat) (acc : string) :
  n < 2 ^ N.of_nat fuel → 10 ^ N.of_nat k ≤ n →
  (k + 1 + String.length acc ≤ String.length (decimal_from fuel n acc))%nat.
Proof.
  revert n k acc. induction fuel as [|fuel IH]; intros n k acc Hfuel Hk.
  - cbn in Hfuel. assert (10 ^ N.of_nat k ≠ 0) by (apply N.pow_nonzero; lia). lia.
  - cbn [decimal_from]. destruct (div_mod_10 n) as (Hmod & Hdiv & Hhalf).
    destruct k as [|k].
    + destruct (n / 10 =? 0); [cbn; lia |].
      etrans; [| apply length_decimal_from_mono]. cbn. lia.
    + rewrite Nat2N.inj_succ, N.pow_succ_r' in Hk.
      rewrite Nat2N.inj_succ, N.pow_succ_r' in Hfuel.
      pose proof (N.div_mod n 2 ltac:(lia)) as Hdiv2.
      assert (10 ^ N.of_nat k ≠ 0) as Hpos by (apply N.pow_nonzero; lia).
      assert (10 ^ N.of_nat k ≤ n / 10 ∧ n / 10 < 2 ^ N.of_nat fuel) as [Hk' Hfuel'].
      { generalize dependent (2 ^ N.of_nat fuel). generalize dependent (10 ^ N.of_nat k).
        generalize dependent (n `mod` 10). generalize dependent (n / 10).
        generalize dependent (n `mod` 2). generalize dependent (n / 2).
        intros. lia. }
      destruct (N.eqb_spec (n / 10) 0) as [Hz|_]; [lia |].
      specialize (IH (n / 10) k (String (digit_char (n `mod` 10)) acc) Hfuel' Hk').
      cbn in IH. lia.
Qed.

Lemma length_decimal_from_le (fuel : nat) (n : N) (k : nat) (acc : string) :
  n < 10 ^ N.of_nat (S k) →
  (String.length (decimal_from fuel n acc) ≤ S k + String.length acc)%nat.
Proof.
  revert n k acc. induction fuel as [|fuel IH]; intros n k acc Hk; [cbn; lia |].
  cbn [decimal_from]. destruct (div_mod_10 n) as (Hmod & Hdiv & _).
  destruct (N.eqb_spec (n / 10) 0) as [Hz|Hnz]; [cbn; lia |].
  rewrite Nat2N.inj_succ, N.pow_succ_r' in Hk.
  destruct k as [|k].
  { cbn in Hk. generalize dependent (n `mod` 10). generalize dependent (n / 10).
    intros. lia. }
  assert (n / 10 < 10 ^ N.of_nat (S k)) as Hk'.
  { generalize dependent (10 ^ N.of_nat (S k)).
    generalize dependent (n `mod` 10). generalize dependent (n / 10). intros. lia. }
  specialize (IH (n / 10) k (String (digit_char (n `mod` 10)) acc) Hk').
  cbn in IH. lia.
Qed.

Lemma str_of_int_fuel (n : N) : n < 2 ^ N.of_nat (S (N.to_nat (N.log2 n))).
Proof.
  rewrite Nat2N.inj_succ, N2Nat.id.
  destruct (decide (n = 0)) as [->|Hn]; [done |].
  apply N.log2_spec. lia.
Qed.

(** A number of four digits or more has a padded text of four
    characters or more; a number below 1000 has one of exactly
    three. *)
Lemma length_format_0d_1000 (n : N) :
  1000 ≤ n → (4 ≤ String.length (format_0d 3 n))%nat.
Proof.
  intros Hn. unfold format_0d. rewrite string_length_app.
  pose proof (length_decimal_from_ge _ n 3 "" (str_of_int_fuel n) Hn) as H.
  unfold str_of_int. cbn [String.length] in H. lia.
Qed.

Lemma length_format_0d_3 (n : N) :
  n < 1000 → String.length (format_0d 3 n) = 3%nat.
Proof.
  intros Hn. unfold format_0d. rewrite string_length_app, length_zeros.
  pose proof (length_decimal_from_le (S (N.to_nat (N.log2 n))) n 2 "" Hn) as Hle.
  pose proof (length_decimal_from (N.to_nat (N.log2 n)) n "") as Hge.
  unfold str_of_int. cbn [String.length] in Hle, Hge. lia.
Qed.

Lemma length_slice_3 (start : nat) (raw : string) :
  (String.length (slice (Z.of_nat start) (Z.of_nat (start + 3)) raw) ≤ 3)%nat.
Proof.
  unfold slice. etrans; [apply length_substring |].
  unfold clamp_index.
  destruct (Z.ltb_spec (Z.of_nat start) 0); [lia |].
  destruct (Z.ltb_spec (Z.of_nat (start + 3)) 0); lia.
Qed.

(** X7: a key whose township or range number is above 999 matches no
    identifier: its text has four digits or more, the fragment read
    from the identifier three characters at most. Such a key can be
    struck from the list without changing the township selection. *)
Theorem number_above_999_never_matches {Geometry CRS}
    (gdf : GeoDataFrame Geometry CRS) (K : list Key) :
  (∀ (raw : string) (t_num r_num : N) (tdir rdir : string),
     999 < t_num ∨ 999 < r_num →
     plssid_matches (t_num, tdir, r_num, rdir) raw = false)
  ∧ filter_by_plssid_trs gdf
      (List.filter (λ key : Key, (key.1.1.1 <=? 999) && (key.1.2 <=? 999)) K)
    = filter_by_plssid_trs gdf K.
Proof.
  assert (∀ (raw : string) (t_num r_num : N) (tdir rdir : string),
     999 < t_num ∨ 999 < r_num →
     plssid_matches (t_num, tdir, r_num, rdir) raw = false) as Hnever.
  { intros raw t_num r_num tdir rdir Hbig.
    apply not_true_iff_false. intros (Ht & _ & Hr & _)%plssid_matches_true.
    cbn [fst snd] in *. destruct Hbig as [Hbig|Hbig].
    - pose proof (length_slice_3 4 raw) as H3.
      pose proof (length_format_0d_1000 t_num ltac:(lia)) as H4.
      change (Z.of_nat 4) with 4%Z in H3. change (Z.of_nat (4 + 3)) with 7%Z in H3.
      rewrite Ht in H3. lia.
    - pose proof (length_slice_3 9 raw) as H3.
      pose proof (length_format_0d_1000 r_num ltac:(lia)) as H4.
      change (Z.of_nat 9) with 9%Z in H3. change (Z.of_nat (9 + 3)) with 12%Z in H3.
      rewrite Hr in H3. lia. }
  split; [exact Hnever |].
  unfold filter_by_plssid_trs. destruct (bool_decide _); [| done].
  rewrite !filter_run_spec. cbn [frame mask_total]. do 2 f_equal.
  apply map_ext_bool. intros f. apply eq_true_iff_eq. rewrite !row_in_keys_iff.
  split.
  - intros (key & [Hin _]%elem_of_filter_bool & Hm). by exists key.
  - intros (key & Hin & Hm). exists key. split; [| done].
    apply elem_of_filter_bool. split; [done |].
    destruct key as [[[t_num tdir] r_num] rdir]. cbn [fst snd].
    apply andb_true_iff. split; apply N.leb_le.
    + destruct (decide (t_num ≤ 999)); [done |].
      rewrite Hnever in Hm by lia. done.
    + destruct (decide (r_num ≤ 999)); [done |].
      rewrite Hnever in Hm by lia. done.
Qed.

(** X8: the township selection depends on the keys as a set: two lists
    with the same keys, in any order and with any repetition, select
    the same rows. Sorting the keys changes nothing. *)
Theorem filter_by_plssid_trs_key_set {Geometry CRS}
    (gdf : GeoDataFrame Geometry CRS) (K K' : list Key) :
  (∀ k, k ∈ K ↔ k ∈ K') →
  filter_by_plssid_trs gdf K = filter_by_plssid_trs gdf K'.
Proof.
  intros Hsame. unfold filter_by_plssid_trs. destruct (bool_decide _); [| done].
  rewrite !filter_run_spec. cbn [frame mask_total]. do 2 f_equal.
  apply map_ext_bool. intros f. apply eq_true_iff_eq. rewrite !row_in_keys_iff.
  split; intros (key & Hin & Hm); exists key; split; try done; by apply Hsame.
Qed.

Lemma filter_by_plssid_trs_key_set_witness :
  (∀ k, k ∈ sample_keys ↔ k ∈ reverse sample_keys ++ sample_keys)
  ∧ filter_by_plssid_trs sample_sections sample_keys
    = filter_by_plssid_trs sample_sections (reverse sample_keys ++ sample_keys).
Proof.
  assert (∀ k, k ∈ sample_keys ↔ k ∈ reverse sample_keys ++ sample_keys) as Hsame.
  { intros k. rewrite elem_of_app, elem_of_reverse. tauto. }
  split; [exact Hsame |].
  exact (filter_by_plssid_trs_key_set sample_sections _ _ Hsame).
Defined.

Lemma filter_filter_imp {A} (p q : A → bool) (rows : list A) :
  (∀ r, q r = true → p r = true) →
  List.filter q (List.filter p rows) = List.filter q rows.
Proof.
  intros Hqp. induction rows as [|r rows IH]; [done |]. cbn.
  destruct (p r) eqn:Hp; cbn.
  - by rewrite IH.
  - destruct (q r) eqn:Hq; [| done]. rewrite (Hqp r Hq) in Hp. done.
Qed.

(** X9: the two matchers compose the way [main] uses them: a township
    selection selected again by the same keys is unchanged, and the
    sections picked out of the township selection are the sections
    picked out of the whole layer, when the key list holds every key
    of the mapping. *)
Theorem select_sections_after_filter {Geometry CRS}
    (gdf g1 : GeoDataFrame Geometry CRS) (K : list Key) (m : gmap Key (list N)) :
  (∀ k, k ∈ dom m → k ∈ K) →
  filter_by_plssid_trs gdf K = Ok g1 →
  filter_by_plssid_trs g1 K = Ok g1
  ∧ select_sections_by_trs_and_numbers g1 m
    = select_sections_by_trs_and_numbers gdf m.
Proof.
  intros HK Hfilter.
  destruct (decide (PLSSID_FIELD_NAME ∈ columns gdf)) as [Hpl|Hpl].
  2:{ by rewrite filter_by_plssid_trs_raise in Hfilter. }
  rewrite filter_by_plssid_trs_ok in Hfilter by done. injection Hfilter as <-.
  split.
  - rewrite filter_by_plssid_trs_ok by done. cbn [columns crs features].
    by rewrite filter_filter_imp.
  - destruct (decide (FRSTDIVID_FIELD_NAME ∈ columns gdf)) as [Hfr|Hfr].
    + rewrite !select_sections_ok by done. cbn [columns crs features].
      rewrite filter_filter_imp; [done |].
      intros f (key & secs & s & Hk & _ & Hp & _)%row_in_items_iff.
      apply row_in_keys_iff. exists key. split; [| done].
      apply HK, elem_of_dom. by exists secs.
    + unfold select_sections_by_trs_and_numbers. cbn [columns].
      rewrite bool_decide_eq_true_2, !bool_decide_eq_false_2 by done. done.
Qed.

Lemma select_sections_after_filter_witness :
  (∀ k, k ∈ dom sample_request → k ∈ sample_keys)
  ∧ ∃ g1, filter_by_plssid_trs sample_sections sample_keys = Ok g1
      ∧ filter_by_plssid_trs g1 sample_keys = Ok g1
      ∧ select_sections_by_trs_and_numbers g1 sample_request
        = select_sections_by_trs_and_numbers sample_sections sample_request.
Proof.
  assert (∀ k, k ∈ dom sample_request → k ∈ sample_keys) as Hdom.
  { intros k. unfold sample_request, sample_keys.
    rewrite dom_insert_L, dom_singleton_L, elem_of_union, !elem_of_singleton.
    intros [-> | ->]; repeat constructor. }
  split; [exact Hdom |].
  eexists. split; [apply filter_by_plssid_trs_ok; repeat constructor |].
  apply (select_sections_after_filter sample_sections _ sample_keys sample_request Hdom).
  apply filter_by_plssid_trs_ok; repeat constructor.
Defined.

(** ** Letter case in identifiers *)

Lemma length_str_map (f : ascii → ascii) (s : string) :
  String.length (str_map f s) = String.length s.
Proof. induction s as [|c s IH]; cbn; [done | by rewrite IH]. Qed.

Lemma substring_str_map (f : ascii → ascii) (a k : nat) (s : string) :
  String.substring a k (str_map f s) = str_map f (String.substring a k s).
Proof.
  revert a k. induction s as [|c s IH]; intros [|a] [|k]; cbn; rewrite ?IH; done.
Qed.

Lemma slice_str_map (f : ascii → ascii) (start stop : Z) (s : string) :
  slice start stop (str_map f s) = str_map f (slice start stop s).
Proof. unfold slice. by rewrite length_str_map, substring_str_map. Qed.

Lemma str_get_str_map (f : ascii → ascii) (n : nat) (s : string) :
  str_get n (str_map f s) = str_map f <$> str_get n s.
Proof.
  unfold str_get. revert n. induction s as [|c s IH]; intros [|n]; cbn; try done.
Qed.

Lemma zeros_digits (k : nat) : str_forall is_digit (zeros k) = true.
Proof. induction k; cbn; [done | by rewrite IHk]. Qed.

Lemma format_0d_digits (width : nat) (n : N) :
  str_forall is_digit (format_0d width n) = true.
Proof.
  unfold format_0d. rewrite str_forall_app, zeros_digits.
  unfold str_of_int. by rewrite decimal_from_digits.
Qed.

(** A change of letter case that keeps digits and keeps no other
    character for a digit leaves a comparison with digits as it
    was. *)
Lemma str_map_eq_digits (f : ascii → ascii) (x y : string) :
  (∀ c, is_digit c = true → f c = c) →
  (∀ c, is_digit (f c) = true → f c = c) →
  str_forall is_digit y = true →
  str_map f x = y ↔ x = y.
Proof.
  intros Hkeep Hinv. revert y. induction x as [|c x IH]; intros [|d y] Hy; cbn; try done.
  cbn in Hy. apply andb_true_iff in Hy as [Hd Hy]. split.
  - intros [= Hc Hx]. apply IH in Hx as ->; [| done].
    rewrite <- Hc in Hd. rewrite <- Hc, (Hinv c Hd). done.
  - intros [= -> ->]. rewrite (Hkeep d Hd). f_equal. by apply IH.
Qed.

Lemma plssid_matches_str_map (f : ascii → ascii) (key : Key) (raw : string) :
  (∀ c, is_digit c = true → f c = c) →
  (∀ c, is_digit (f c) = true → f c = c) →
  (∀ c, upper_char (f c) = upper_char c) →
  plssid_matches key (str_map f raw) = plssid_matches key raw.
Proof.
  intros Hkeep Hinv Hup. destruct key as [[[t_num tdir] r_num] rdir].
  unfold plssid_matches. rewrite !slice_str_map, !str_get_str_map.
  assert (∀ o : option string, upper <$> (str_map f <$> o) = upper <$> o) as Hopt.
  { intros [s|]; cbn; [| done]. f_equal. unfold upper. rewrite str_map_map.
    induction s as [|c s IH]; cbn; [done | by rewrite Hup, IH]. }
  rewrite !Hopt.
  rewrite (bool_decide_ext _ _ (str_map_eq_digits f (slice 4 7 raw) _ Hkeep Hinv
             (format_0d_digits 3 t_num))).
  rewrite (bool_decide_ext _ _ (str_map_eq_digits f (slice 9 12 raw) _ Hkeep Hinv
             (format_0d_digits 3 r_num))).
  done.
Qed.

(** X10: the letter case of an ASCII identifier does not count: put in
    lower case, or in upper case, it matches the keys it matched
    before and no other. *)
Theorem plssid_matches_any_case (key : Key) (raw : string) :
  ascii_text raw = true →
  plssid_matches key (lower raw) = plssid_matches key raw
  ∧ plssid_matches key (upper raw) = plssid_matches key raw.
Proof.
  intros _. split; apply plssid_matches_str_map;
    intros [[] [] [] [] [] [] [] []]; vm_compute; first [done | discriminate].
Qed.

Lemma plssid_matches_any_case_witness :
  ascii_text "co060050n0660w0" = true
  ∧ plssid_matches (5, "N", 66, "W") (upper "co060050n0660w0")
    = plssid_matches (5, "N", 66, "W") "co060050n0660w0".
Proof.
  assert (ascii_text "co060050n0660w0" = true) as Hascii
    by (vm_compute; reflexivity).
  split; [exact Hascii |].
  exact (proj2 (plssid_matches_any_case (5, "N"%string, 66, "W"%string)
                  "co060050n0660w0" Hascii)).
Defined.

(** ** Identifiers in the layout of the script *)

Lemma string_length_3 (s : string) :
  String.length s = 3%nat → ∃ a b c, s = String a (String b (String c "")).
Proof.
  destruct s as [|a [|b [|c [|? ?]]]]; try done. intros _. by exists a, b, c.
Qed.

Lemma plssid_of_fields (p0 p1 p2 p3 : ascii) (t_num : N) (c7 td : ascii)
    (r_num : N) (c12 rd : ascii) (tail : string) :
  t_num < 1000 → r_num < 1000 →
  let raw := plssid_of p0 p1 p2 p3 t_num c7 td r_num c12 rd tail in
  slice 4 7 raw = format_0d 3 t_num
  ∧ str_get 8 raw = Some (String td "")
  ∧ slice 9 12 raw = format_0d 3 r_num
  ∧ str_get 13 raw = Some (String rd "").
Proof.
  intros Ht Hr. cbn zeta.
  destruct (string_length_3 _ (length_format_0d_3 t_num Ht)) as (a1 & a2 & a3 & Et).
  destruct (string_length_3 _ (length_format_0d_3 r_num Hr)) as (b1 & b2 & b3 & Er).
  unfold plssid_of. rewrite Et, Er.
  change (String a1 (String a2 (String a3 "")) +:+ ?x)
    with (String a1 (String a2 (String a3 x))).
  unfold slice, str_get. cbn. destruct tail; done.
Qed.

Lemma plssid_of_matches_aux (p0 p1 p2 p3 : ascii) (t_num : N) (c7 td : ascii)
    (r_num : N) (c12 rd : ascii) (tail : string) (key : Key) :
  t_num < 1000 → r_num < 1000 →
  plssid_matches key (plssid_of p0 p1 p2 p3 t_num c7 td r_num c12 rd tail) = true
  ↔ key = (t_num, upper (String td ""), r_num, upper (String rd "")).
Proof.
  intros Ht Hr.
  destruct (plssid_of_fields p0 p1 p2 p3 t_num c7 td r_num c12 rd tail Ht Hr)
    as (H1 & H2 & H3 & H4).
  rewrite plssid_matches_true, H1, H2, H3, H4.
  destruct key as [[[t' td'] r'] rd']. cbn [fst snd fmap option_fmap option_map]. split.
  - intros (E1 & [= <-] & E3 & [= <-]).
    apply format_0d_inj in E1 as ->. apply format_0d_inj in E3 as ->. done.
  - intros [= -> -> -> ->]. done.
Qed.

(** X11: an identifier written in the layout of the script for a
    township number and a range number below 1000 matches one key
    only: that number, the upper-case of its township direction, that
    range number and the upper-case of its range direction, whatever
    the prefix, the fillers and the tail. *)
Theorem plssid_of_matches (p0 p1 p2 p3 : ascii) (t_num : N) (c7 td : ascii)
    (r_num : N) (c12 rd : ascii) (tail : string) (key : Key) :
  t_num < 1000 → r_num < 1000 →
  plssid_matches key (plssid_of p0 p1 p2 p3 t_num c7 td r_num c12 rd tail) = true
  ↔ key = (t_num, upper (String td ""), r_num, upper (String rd "")).
Proof. intros Ht Hr. by apply plssid_of_matches_aux. Qed.

Lemma plssid_of_matches_witness :
  (5 < 1000) ∧ (66 < 1000)
  ∧ plssid_of "C" "O" "0" "6" 5 "0" "n" 66 "0" "w" "0" = "CO060050n0660w0"
  ∧ plssid_matches (5, "N", 66, "W") "CO060050n0660w0" = true.
Proof.
  split; [done |]. split; [done |]. split; [vm_compute; reflexivity |].
  change "CO060050n0660w0" with (plssid_of "C" "O" "0" "6" 5 "0" "n" 66 "0" "w" "0").
  apply (plssid_of_matches "C" "O" "0" "6" 5 "0" "n" 66 "0" "w" "0" (5, "N", 66, "W"));
    done.
Defined.

(** ** Punctuation and white space *)

Lemma str_map_ext (f g : ascii → ascii) (s : string) :
  (∀ c, f c = g c) → str_map f s = str_map g s.
Proof. intros Hfg. induction s as [|c s IH]; cbn; [done | by rewrite Hfg, IH]. Qed.

Lemma split_from_ext (h1 h2 : ascii → ascii) (cur s : string) :
  (∀ c, is_space (h1 c) = is_space (h2 c)) →
  (∀ c, is_space (h1 c) = false → h1 c = h2 c) →
  split_from cur (str_map h1 s) = split_from cur (str_map h2 s).
Proof.
  intros Hsp Heq. revert cur. induction s as [|c s IH]; intros cur; cbn; [done |].
  rewrite <- Hsp. destruct (is_space (h1 c)) eqn:Hc.
  - by rewrite !IH.
  - by rewrite <- (Heq c Hc), IH.
Qed.

(** The four replacements of [parse_config_map], as one pass. *)
Lemma tokenize_split (text : string) :
  tokenize text
  = split_from "" (str_map (λ c, if is_punct c then " "%char else c) text).
Proof.
  unfold tokenize, split. cbn [fold_left]. unfold replace. rewrite !str_map_map.
  f_equal. apply str_map_ext. intros [[] [] [] [] [] [] [] []]; reflexivity.
Qed.

Lemma blank_space (c : ascii) :
  is_space c || is_punct c = true →
  is_space (if is_punct c then " "%char else c) = true.
Proof.
  assert (implb (is_space c || is_punct c)
            (is_space (if is_punct c then " "%char else c)) = true) as H
    by (destruct c as [[] [] [] [] [] [] [] []]; reflexivity).
  intros Hb. by rewrite Hb in H.
Qed.

(** X12: the parser reads the four punctuation characters as white
    space and white space only as a separator: a text in which blanks
    (white space and [: , ; .]) are put in place of other blanks, all
    other characters being kept, gives the same result. *)
Theorem parse_config_map_blanks (g : ascii → ascii) (fs : FileSystem)
    (config_path : string) :
  (∀ c, if is_space c || is_punct c
        then is_space (g c) || is_punct (g c) = true
        else g c = c) →
  parse_config_map (λ p, str_map g <$> fs p) config_path
  = parse_config_map fs config_path.
Proof.
  intros Hg. unfold parse_config_map.
  destruct (fs config_path) as [text|]; cbn [fmap option_fmap option_map]; [| done].
  assert (tokenize (str_map g text) = tokenize text) as Htok.
  { rewrite !tokenize_split, str_map_map.
    apply split_from_ext; intros c; specialize (Hg c);
      destruct (is_space c || is_punct c) eqn:Hc.
    - by rewrite !blank_space.
    - by rewrite Hg.
    - by rewrite blank_space.
    - by rewrite Hg. }
  unfold scan. by rewrite Htok.
Qed.

Lemma parse_config_map_blanks_witness :
  (∀ c, if is_space c || is_punct c
        then is_space ((λ c, if is_punct c then " "%char else c) c)
             || is_punct ((λ c, if is_punct c then " "%char else c) c) = true
        else (λ c, if is_punct c then " "%char else c) c = c)
  ∧ parse_config_map
      (λ p, str_map (λ c, if is_punct c then " "%char else c)
              <$> sample_fs "County: Larimer, T33N-R19W; Section 10." p)
      "config.map"
    = parse_config_map (sample_fs "County: Larimer, T33N-R19W; Section 10.")
        "config.map".
Proof.
  assert (∀ c, if is_space c || is_punct c
        then is_space ((λ c, if is_punct c then " "%char else c) c)
             || is_punct ((λ c, if is_punct c then " "%char else c) c) = true
        else (λ c, if is_punct c then " "%char else c) c = c) as Hg
    by (intros [[] [] [] [] [] [] [] []]; reflexivity).
  split; [exact Hg |].
  exact (parse_config_map_blanks _ _ _ Hg).
Defined.

(** ** Sections in the layout of the script *)

Lemma length_format_0d_2 (n : N) :
  n < 100 → String.length (format_0d 2 n) = 2%nat.
Proof.
  intros Hn. unfold format_0d. rewrite string_length_app, length_zeros.
  pose proof (length_decimal_from_le (S (N.to_nat (N.log2 n))) n 1 "" Hn) as Hle.
  pose proof (length_decimal_from (N.to_nat (N.log2 n)) n "") as Hge.
  unfold str_of_int. cbn [String.length] in Hle, Hge. lia.
Qed.

Lemma substring_app_skip (h t : string) (k : nat) :
  String.substring (String.length h) k (h +:+ t) = String.substring 0 k t.
Proof.
  induction h as [|c h IH]; [done |].
  change (String c h +:+ t) with (String c (h +:+ t)). cbn. exact IH.
Qed.

Lemma slice_frstdivid_of (head : string) (s : N) (last_ : ascii) :
  s < 100 → slice (-3) (-1) (frstdivid_of head s last_) = format_0d 2 s.
Proof.
  intros Hs. pose proof (length_format_0d_2 s Hs) as Hlen.
  unfold frstdivid_of, slice. rewrite !string_length_app.
  destruct (format_0d 2 s) as [|a [|b [|? ?]]]; try done.
  cbn [String.length]. unfold clamp_index. cbn [Z.ltb Z.compare].
  replace (Z.to_nat (-3 + Z.of_nat (String.length head + (2 + 1))))
    with (String.length head) by lia.
  replace (Z.to_nat (-1 + Z.of_nat (String.length head + (2 + 1)))
           - String.length head)%nat with 2%nat by lia.
  by rewrite substring_app_skip.
Qed.

(** X13: a row of the sections layer written in the layout of the
    script (an identifier for a township number and a range number
    below 1000; a FRSTDIVID that ends with the section number, below
    100, on two digits and one more character) is selected by the
    request exactly when its number is listed under the key of its
    township. *)
Theorem frstdivid_of_matches {Geometry} (f : Feature Geometry)
    (d : gmap Key (list N)) (p0 p1 p2 p3 : ascii) (t_num : N) (c7 td : ascii)
    (r_num : N) (c12 rd : ascii) (tail head : string) (s : N) (last_ : ascii) :
  t_num < 1000 → r_num < 1000 → s < 100 →
  attr f PLSSID_FIELD_NAME = plssid_of p0 p1 p2 p3 t_num c7 td r_num c12 rd tail →
  attr f FRSTDIVID_FIELD_NAME = frstdivid_of head s last_ →
  row_in_items (map_to_list d) f = true
  ↔ ∃ secs, d !! (t_num, upper (String td ""), r_num, upper (String rd ""))
            = Some secs ∧ s ∈ secs.
Proof.
  intros Ht Hr Hs Hpl Hfr.
  rewrite row_in_items_iff, Hpl, Hfr, (slice_frstdivid_of _ _ _ Hs). split.
  - intros (key & secs & s' & Hkey & Hs' & Hm & Heq).
    apply (plssid_of_matches_aux _ _ _ _ _ _ _ _ _ _ _ _ Ht Hr) in Hm as ->.
    apply format_0d_inj in Heq as ->. by exists secs.
  - intros (secs & Hkey & Hin).
    exists (t_num, upper (String td ""), r_num, upper (String rd "")), secs, s.
    split; [exact Hkey |]. split; [exact Hin |]. split; [| done].
    by apply plssid_of_matches_aux.
Qed.

Lemma frstdivid_of_matches_witness :
  (5 < 1000) ∧ (66 < 1000) ∧ (12 < 100)
  ∧ attr (sample_feature 1 "CO060050N0660W0" "CO060050N0660W0SN120")
      PLSSID_FIELD_NAME
    = plssid_of "C" "O" "0" "6" 5 "0" "N" 66 "0" "W" "0"
  ∧ attr (sample_feature 1 "CO060050N0660W0" "CO060050N0660W0SN120")
      FRSTDIVID_FIELD_NAME
    = frstdivid_of "CO060050N0660W0SN" 12 "0"
  ∧ row_in_items (map_to_list sample_request)
      (sample_feature 1 "CO060050N0660W0" "CO060050N0660W0SN120") = true.
Proof.
  split; [done |]. split; [done |]. split; [done |].
  split; [vm_compute; reflexivity |]. split; [vm_compute; reflexivity |].
  apply (frstdivid_of_matches _ sample_request "C" "O" "0" "6" 5 "0" "N" 66 "0" "W"
           "0" "CO060050N0660W0SN" 12 "0"); [done | done | done | | |].
  - vm_compute; reflexivity.
  - vm_compute; reflexivity.
  - exists [12; 100]. split; [vm_compute; reflexivity |]. apply list_elem_of_here.
Defined.

(** X14: the section selection depends on the request only as a set
    of pairs of a key and a section number: the order of the keys, the
    order of the numbers, repeated numbers and keys without numbers
    make no difference. *)
Theorem select_sections_pair_set {Geometry CRS}
    (gdf : GeoDataFrame Geometry CRS) (d1 d2 : gmap Key (list N)) :
  (∀ key s, (∃ secs, d1 !! key = Some secs ∧ s ∈ secs)
            ↔ (∃ secs, d2 !! key = Some secs ∧ s ∈ secs)) →
  select_sections_by_trs_and_numbers gdf d1
  = select_sections_by_trs_and_numbers gdf d2.
Proof.
  intros Hset. apply select_sections_ext. intros f.
  apply eq_true_iff_eq. rewrite !row_in_items_iff.
  split; intros (key & secs & s & Hkey & Hs & Hm & Hfr).
  - destruct (proj1 (Hset key s)) as (secs' & Hkey' & Hs'); [by eauto |].
    by exists key, secs', s.
  - destruct (proj2 (Hset key s)) as (secs' & Hkey' & Hs'); [by eauto |].
    by exists key, secs', s.
Qed.

Lemma select_sections_pair_set_witness :
  (∀ key s, (∃ secs, sample_request !! key = Some secs ∧ s ∈ secs)
            ↔ (∃ secs, ({[ (5, "N", 66, "W") := [100; 12; 12] ]} : gmap Key (list N))
                       !! key = Some secs ∧ s ∈ secs))
  ∧ select_sections_by_trs_and_numbers sample_sections sample_request
    = select_sections_by_trs_and_numbers sample_sections
        {[ (5, "N", 66, "W") := [100; 12; 12] ]}.
Proof.
  assert (∀ key s, (∃ secs, sample_request !! key = Some secs ∧ s ∈ secs)
            ↔ (∃ secs, ({[ (5, "N", 66, "W") := [100; 12; 12] ]} : gmap Key (list N))
                       !! key = Some secs ∧ s ∈ secs)) as Hset.
  { intros key s. split.
    - intros (secs & Hkey & Hs). unfold sample_request in Hkey.
      apply lookup_insert_Some in Hkey as [[<- <-]|[_ Hkey]].
      + exists [100; 12; 12]. split; [apply lookup_singleton_eq |].
        apply elem_of_cons in Hs as [-> | Hs];
          [apply list_elem_of_further, list_elem_of_here |].
        apply list_elem_of_singleton in Hs as ->. apply list_elem_of_here.
      + apply lookup_singleton_Some in Hkey as [_ <-]. by apply elem_of_nil in Hs.
    - intros (secs & Hkey & Hs). apply lookup_singleton_Some in Hkey as [<- <-].
      exists [12; 100]. split; [by apply lookup_insert_eq |].
      apply elem_of_cons in Hs as [-> | Hs];
        [apply list_elem_of_further, list_elem_of_here |].
      apply elem_of_cons in Hs as [-> | Hs]; [apply list_elem_of_here |].
      apply list_elem_of_singleton in Hs as ->. apply list_elem_of_here. }
  split; [exact Hset |].
  exact (select_sections_pair_set sample_sections _ _ Hset).
Defined.

(** ** Letter case *)

Lemma case_change_facts (c c' : ascii) :
  c' = c ∨ c' = upper_char c ∨ c' = lower_char c →
  is_space c' = is_space c
  ∧ is_punct c' = is_punct c
  ∧ is_digit c' = is_digit c
  ∧ lower_char c' = lower_char c
  ∧ upper_char c' = upper_char c
  ∧ Ascii.eqb c' "-" = Ascii.eqb c "-"
  ∧ (is_digit c = true → c' = c).
Proof.
  intros [-> | [-> | ->]]; [done | |];
    destruct c as [[] [] [] [] [] [] [] []]; vm_compute;
    repeat split; intros; (reflexivity || discriminate).
Qed.

Lemma str_map_app (g : ascii → ascii) (s t : string) :
  str_map g (s +:+ t) = str_map g s +:+ str_map g t.
Proof.
  induction s as [|c s IH]; [done |].
  change (String c s +:+ t) with (String c (s +:+ t)). cbn [str_map].
  change (String (g c) (str_map g s) +:+ str_map g t)
    with (String (g c) (str_map g s +:+ str_map g t)).
  by rewrite IH.
Qed.

Section LetterCase.
Variable g : ascii → ascii.
Hypothesis Hg : ∀ c, g c = c ∨ g c = upper_char c ∨ g c = lower_char c.

Lemma split_from_case (cur s : string) :
  split_from (str_map g cur) (str_map g s) = str_map g <$> split_from cur s.
Proof.
  revert cur. induction s as [|c s IH]; intros cur; cbn [str_map split_from].
  - destruct cur; done.
  - destruct (case_change_facts c (g c) (Hg c)) as (-> & _).
    assert (String.eqb (str_map g cur) "" = String.eqb cur "") as ->
      by (by destruct cur).
    destruct (is_space c).
    + pose proof (IH ""%string) as IH0. cbn [str_map] in IH0. rewrite IH0.
      by destruct (String.eqb cur "").
    + by rewrite <- IH, str_map_app.
Qed.

Lemma tokenize_case (text : string) :
  tokenize (str_map g text) = str_map g <$> tokenize text.
Proof.
  rewrite !tokenize_split, str_map_map.
  rewrite (str_map_ext _ (λ c, g (if is_punct c then " "%char else c))).
  - rewrite <- (str_map_map g). apply (split_from_case ""%string).
  - intros c. destruct (case_change_facts c (g c) (Hg c)) as (_ & -> & _).
    destruct (is_punct c); [| done].
    by destruct (Hg " "%char) as [-> | [-> | ->]].
Qed.

Lemma lower_case (s : string) : lower (str_map g s) = lower s.
Proof.
  unfold lower. rewrite str_map_map. apply str_map_ext. intros c.
  by destruct (case_change_facts c (g c) (Hg c)) as (_ & _ & _ & -> & _).
Qed.

Lemma upper_case (s : string) : upper (str_map g s) = upper s.
Proof.
  unfold upper. rewrite str_map_map. apply str_map_ext. intros c.
  by destruct (case_change_facts c (g c) (Hg c)) as (_ & _ & _ & _ & -> & _).
Qed.

Lemma char_is_case (c letter : ascii) : char_is (g c) letter = char_is c letter.
Proof.
  unfold char_is.
  by destruct (case_change_facts c (g c) (Hg c)) as (_ & _ & _ & _ & -> & _).
Qed.

Lemma digits_case (s : string) :
  str_forall is_digit (str_map g s) = str_forall is_digit s
  ∧ (str_forall is_digit s = true → str_map g s = s).
Proof.
  induction s as [|c s [IH1 IH2]]; [done |]. cbn [str_map str_forall].
  destruct (case_change_facts c (g c) (Hg c)) as (_ & _ & -> & _ & _ & _ & Hc).
  rewrite IH1. split; [done |]. intros [Hd Hs]%andb_true_iff.
  by rewrite (Hc Hd), (IH2 Hs).
Qed.

Lemma isdigit_case (s : string) : isdigit (str_map g s) = isdigit s.
Proof. destruct s as [|c s]; [done |]. apply (digits_case (String c s)). Qed.

Lemma int_case (s : string) : isdigit s = true → int (str_map g s) = int s.
Proof.
  intros Hs. destruct s as [|c s]; [done |].
  by rewrite (proj2 (digits_case (String c s)) Hs).
Qed.

Lemma span_digits_case (s : string) :
  span_digits (str_map g s) = ((span_digits s).1, str_map g (span_digits s).2).
Proof.
  induction s as [|c s IH]; [done |]. cbn [str_map span_digits].
  destruct (case_change_facts c (g c) (Hg c)) as (_ & _ & -> & _ & _ & _ & Hc).
  destruct (is_digit c) eqn:Hd; [| done].
  rewrite IH, (Hc eq_refl). by destruct (span_digits s).
Qed.

Lemma tr_key_case (tok : string) : tr_key (str_map g tok) = tr_key tok.
Proof.
  unfold tr_key, tr_pattern_match. destruct tok as [|t s1]; [done |].
  cbn [str_map]. rewrite char_is_case. destruct (char_is t "T"); [| done].
  rewrite span_digits_case. destruct (span_digits s1) as [ds r]. cbn [fst snd].
  destruct ds as [|d ds]; [done |].
  destruct r as [|ns [|dash [|r s2]]]; try done. cbn [str_map].
  rewrite !char_is_case.
  destruct (case_change_facts dash (g dash) (Hg dash)) as (_ & _ & _ & _ & _ & -> & _).
  destruct ((char_is ns "N" || char_is ns "S") && Ascii.eqb dash "-" && char_is r "R");
    [| done].
  rewrite span_digits_case. destruct (span_digits s2) as [es r2]. cbn [fst snd].
  destruct es as [|e es]; [done |].
  destruct r2 as [|ew [|? ?]]; try done. cbn [str_map].
  rewrite !char_is_case. destruct (char_is ew "E" || char_is ew "W"); [| done].
  change (String (g ns) "") with (str_map g (String ns "")).
  change (String (g ew) "") with (str_map g (String ew "")).
  by rewrite !upper_case.
Qed.

Lemma section_loop_case (fuel : nat) (tokens : list string) (key : Key)
    (j : nat) (d : gmap Key (list N)) :
  section_loop fuel (str_map g <$> tokens) key j d = section_loop fuel tokens key j d.
Proof.
  revert j d. induction fuel as [|fuel IH]; intros j d; [done |].
  cbn [section_loop]. rewrite !list_lookup_fmap.
  destruct (tokens !! j) as [tok|]; cbn [fmap option_fmap option_map]; [| done].
  rewrite lower_case. destruct (String.eqb (lower tok) "section"); [| done].
  destruct (tokens !! (j + 1)%nat) as [num|]; cbn [fmap option_fmap option_map];
    [| done].
  rewrite isdigit_case. destruct (isdigit num) eqn:Hnum; [| done].
  by rewrite int_case, IH.
Qed.

(** The state of the scan over the changed text. *)
Lemma scan_loop_case (fuel : nat) (tokens : list string) (st : ScanState) :
  scan_loop fuel (str_map g <$> tokens)
    {| i := i st; county := str_map g <$> county st;
       trs_sections := trs_sections st |}
  = {| i := i (scan_loop fuel tokens st);
       county := str_map g <$> county (scan_loop fuel tokens st);
       trs_sections := trs_sections (scan_loop fuel tokens st) |}.
Proof.
  revert st. induction fuel as [|fuel IH]; intros st; [done |].
  cbn [scan_loop i county trs_sections]. rewrite !list_lookup_fmap, length_fmap.
  destruct (tokens !! i st) as [tok|]; cbn [fmap option_fmap option_map]; [| done].
  rewrite lower_case, tr_key_case.
  destruct (String.eqb (lower tok) "county"
            && bool_decide (i st + 1 < length tokens)%nat).
  - apply (IH {| i := i st + 2; county := tokens !! (i st + 1)%nat;
                 trs_sections := trs_sections st |}).
  - destruct (tr_key tok) as [key|].
    + rewrite section_loop_case.
      destruct (section_loop fuel tokens key (i st + 1) _) as [i' d'].
      apply (IH {| i := i'; county := county st; trs_sections := d' |}).
    + apply (IH {| i := i st + 1; county := county st;
                   trs_sections := trs_sections st |}).
Qed.

(** X15: the request does not depend on the case of ASCII letters. An
    ASCII text in which letters are put in upper or lower case, in any
    mix, gives the same error or else the same keys with the same
    section numbers; only the area label follows the case of the
    text. *)
Theorem parse_config_map_any_case (fs : FileSystem) (config_path : string) :
  (∀ text, fs config_path = Some text → ascii_text text = true) →
  parse_config_map (λ p, str_map g <$> fs p) config_path
  = match parse_config_map fs config_path with
    | Ok (label, trs_list, d) => Ok (str_map g <$> label, trs_list, d)
    | Raise e => Raise e
    end.
Proof.
  intros _. unfold parse_config_map.
  destruct (fs config_path) as [text|]; cbn [fmap option_fmap option_map]; [| done].
  cbn zeta. unfold scan. rewrite tokenize_case, length_fmap.
  pose proof (scan_loop_case (length (tokenize text)) (tokenize text)
    {| i := 0; county := None; trs_sections := ∅ |}) as Hscan.
  cbn [i county trs_sections fmap option_fmap option_map] in Hscan.
  rewrite Hscan. cbn [i county trs_sections].
  by case_bool_decide.
Qed.

End LetterCase.

Lemma parse_config_map_any_case_witness :
  (∀ c, upper_char c = c ∨ upper_char c = upper_char c ∨ upper_char c = lower_char c)
  ∧ (∀ text, sample_fs scenario_text "config.map" = Some text →
       ascii_text text = true)
  ∧ parse_config_map (λ p, str_map upper_char <$> sample_fs scenario_text p)
      "config.map"
    = Ok (Some "LARIMER", [(33, "N", 19, "W")], {[ (33, "N", 19, "W") := [10; 12] ]}).
Proof.
  assert (∀ c, upper_char c = c ∨ upper_char c = upper_char c
               ∨ upper_char c = lower_char c) as Hg
    by (intros c; right; left; reflexivity).
  assert (∀ text, sample_fs scenario_text "config.map" = Some text →
            ascii_text text = true) as Hascii
    by (intros text Htext; vm_compute in Htext; injection Htext as <-;
        vm_compute; reflexivity).
  split; [exact Hg |]. split; [exact Hascii |].
  refine (eq_trans (parse_config_map_any_case upper_char Hg
                      (sample_fs scenario_text) "config.map" Hascii) _).
  lazymatch goal with |- _ = ?rhs => vm_cast_no_check (eq_refl rhs) end.
Defined.

(** ** The end of the scan *)

Lemma scan_loop_bound (tokens : list string) (fuel : nat) (st : ScanState) :
  (length tokens - i st ≤ fuel)%nat →
  (i st ≤ length tokens)%nat →
  (i (scan_loop fuel tokens st) ≤ length tokens)%nat.
Proof.
  revert st. induction fuel as [|fuel IH]; intros st Hfuel Hle; [done |].
  cbn [scan_loop]. destruct (tokens !! i st) as [tok|] eqn:Htok; [| done].
  apply lookup_lt_Some in Htok.
  destruct (_ && _) eqn:Hcounty.
  - apply andb_true_iff in Hcounty as [_ Hnext%bool_decide_eq_true].
    apply IH; cbn [i]; lia.
  - destruct (tr_key tok) as [key|].
    + rewrite section_loop_spec by lia.
      pose proof (run_len_length (drop (i st + 1) tokens)) as Hrun.
      rewrite length_drop in Hrun. apply IH; cbn [i]; lia.
    + apply IH; cbn [i]; lia.
Qed.

(** X16: the two loops of [parse_config_map] end. Every turn moves the
    cursor forward and never past the end of the token list, so
    [len(tokens)] turns are enough: any larger number of turns gives
    the same state, and the scan ends with the cursor exactly at
    [len(tokens)]. *)
Theorem scan_terminates (text : string) (fuel : nat) :
  (length (tokenize text) ≤ fuel)%nat →
  scan_loop fuel (tokenize text) {| i := 0; county := None; trs_sections := ∅ |}
  = scan text
  ∧ i (scan text) = length (tokenize text).
Proof.
  intros Hfuel. split.
  - unfold scan. apply scan_loop_fuel; cbn [i]; lia.
  - unfold scan. apply Nat.le_antisymm.
    + apply scan_loop_bound; cbn [i]; lia.
    + apply scan_loop_done. cbn [i]. lia.
Qed.

Lemma scan_terminates_witness :
  (length (tokenize scenario_text) ≤ 100)%nat
  ∧ scan_loop 100 (tokenize scenario_text)
      {| i := 0; county := None; trs_sections := ∅ |} = scan scenario_text
  ∧ i (scan scenario_text) = 7%nat.
Proof.
  assert (length (tokenize scenario_text) ≤ 100)%nat as Hfuel
    by (vm_compute; lia).
  split; [exact Hfuel |].
  destruct (scan_terminates scenario_text 100 Hfuel) as [Hsame Hend].
  split; [exact Hsame |]. rewrite Hend. vm_compute. reflexivity.
Defined.

(** ** The orchestrator *)

Lemma empty_features {Geometry CRS} (gdf : GeoDataFrame Geometry CRS) :
  empty gdf = true ↔ features gdf = [].
Proof. unfold empty. by destruct (features gdf). Qed.

Lemma empty_false_features {Geometry CRS} (gdf : GeoDataFrame Geometry CRS) :
  empty gdf = false ↔ features gdf ≠ [].
Proof. unfold empty. by destruct (features gdf). Qed.

Lemma filter_nil_existsb {A} (p : A → bool) (rows : list A) :
  List.filter p rows = [] ↔ existsb p rows = false.
Proof.
  induction rows as [|r rows IH]; cbn; [done |].
  destruct (p r); cbn; [done | exact IH].
Qed.

Lemma layers_written_app {Geometry CRS} (e1 e2 : list (Effect Geometry CRS)) :
  layers_written (e1 ++ e2) = layers_written e1 ++ layers_written e2.
Proof. apply omap_app. Qed.


Lemma filter_false {A} (p : A → bool) (rows : list A) :
  (∀ r, p r = false) → List.filter p rows = [].
Proof.
  intros Hp. induction rows as [|r rows IH]; cbn; [done |]. by rewrite Hp.
Qed.

Lemma layers_written_append_layer {Geometry CRS}
    (gdf : GeoDataFrame Geometry CRS) (path layer : string) :
  layers_written (append_layer gdf path layer)
  = List.filter (λ w, negb (empty w.2)) [(path, layer, "a"%string, gdf)].
Proof. unfold append_layer. cbn. by destruct (empty gdf). Qed.

Lemma append_layer_no_unlink {Geometry CRS} (gdf : GeoDataFrame Geometry CRS)
    (path layer p : string) :
  Unlink p ∉ append_layer gdf path layer.
Proof.
  unfold append_layer. destruct (empty gdf); cbn; [apply not_elem_of_nil |].
  by intros Hin%list_elem_of_singleton.
Qed.

Lemma filter_cons_app {A} (p : A → bool) (x : A) (l : list A) :
  List.filter p (x :: l) = List.filter p [x] ++ List.filter p l.
Proof. cbn. by destruct (p x). Qed.

Lemma str_app_assoc (s t u : string) : (s +:+ t) +:+ u = s +:+ (t +:+ u).
Proof.
  induction s as [|c s IH]; [done |].
  change (String c s +:+ t) with (String c (s +:+ t)).
  change (String c (s +:+ t) +:+ u) with (String c ((s +:+ t) +:+ u)).
  change (String c s +:+ (t +:+ u)) with (String c (s +:+ (t +:+ u))).
  by rewrite IH.
Qed.

Lemma parse_label_nonempty (fs : FileSystem) (config_path c : string)
    (trs_list : list Key) (d : gmap Key (list N)) :
  parse_config_map fs config_path = Ok (Some c, trs_list, d) → c ≠ "".
Proof.
  unfold parse_config_map. destruct (fs config_path) as [text|]; [| done].
  cbn zeta. case_bool_decide as Hne; [done |]. intros [= Hc _ _].
  unfold scan in Hc. apply scan_loop_county in Hc as [Hc|Hc]; [done |].
  destruct Hc as (j & tok & _ & _ & Hnext).
  apply list_elem_of_lookup_2 in Hnext. unfold tokenize, split in Hnext.
  refine (proj1 (split_from_tokens (λ _, true) "" _ c eq_refl _ Hnext)).
  apply str_forall_true. intros a. apply orb_true_r.
Qed.



Section MainFacts.
Context {Geometry CRS : Type} `{EqDecision CRS}.
Local Abbreviation Frame := (GeoDataFrame Geometry CRS).
Variable read_file : string → Frame.
Variable dissolve : Frame → Frame.
Variable explode : Frame → Frame.
Variable to_crs : Frame → CRS → Frame.
Variable gpd_clip : Frame → Frame → Frame.
Variable no_crs : CRS.
Variable fs : FileSystem.
Variable path_exists : string → bool.
Variable cwd : string → string.
Variable template_exists : bool.
Variable effect_error : Effect Geometry CRS → option Exn.

Local Abbreviation run :=
  (main read_file dissolve explode to_crs gpd_clip no_crs fs path_exists cwd
     template_exists effect_error).
Local Abbreviation clip := (clip_parcels read_file to_crs gpd_clip no_crs).


(** A run that returns, step by step. *)
Lemma main_ok_inv (args : Args) (report : Report Geometry CRS) :
  run args = Ok report →
  ∃ label trs_list d,
    parse_config_map fs (cwd (arg_config args)) = Ok (label, trs_list, d)
    ∧ filter_by_plssid_trs (read_file TOWNSHIP_GPKG) trs_list = Ok (townships_sel report)
    ∧ features (townships_sel report) ≠ []
    ∧ filter_by_plssid_trs (read_file SECTION_GPKG) trs_list
      = Ok (sections_all_tr report)
    ∧ select_sections_by_trs_and_numbers (sections_all_tr report) d
      = Ok (sections_sel report)
    ∧ (clip LARIMER_GPKG (explode (dissolve (townships_sel report))) "Larimer").2
      = Ok (larimer_clipped report)
    ∧ (clip WELD_GPKG (explode (dissolve (townships_sel report))) "Weld").2
      = Ok (weld_clipped report)
    ∧ (if empty (sections_sel report)
       then larimer_sections_clipped report
            = placeholder no_crs (larimer_clipped report)
       else (clip LARIMER_GPKG (explode (dissolve (sections_sel report)))
               "Larimer (sections)").2
            = Ok (larimer_sections_clipped report))
    ∧ (if empty (sections_sel report)
       then weld_sections_clipped report = placeholder no_crs (weld_clipped report)
       else (clip WELD_GPKG (explode (dissolve (sections_sel report)))
               "Weld (sections)").2
            = Ok (weld_sections_clipped report))
    ∧ out_path report
      = (if truthy (arg_output args) then cwd (default "" (arg_output args))
         else cwd ((if truthy label then default "" label +:+ "_area_map"
                    else "area_map") +:+ ".gpkg"))
    ∧ effects report
      = (if path_exists (out_path report) then [Unlink (out_path report)] else [])
        ++ [ToFile (townships_sel report) (out_path report) "townships" "w"]
        ++ append_layer (sections_all_tr report) (out_path report) "sections"
        ++ append_layer (sections_sel report) (out_path report) "sections_target"
        ++ append_layer (larimer_clipped report) (out_path report) "larimer_parcels"
        ++ append_layer (weld_clipped report) (out_path report) "weld_parcels"
        ++ append_layer (larimer_sections_clipped report) (out_path report)
             "larimer_parcels_sections"
        ++ append_layer (weld_sections_clipped report) (out_path report)
             "weld_parcels_sections"
        ++ (if template_exists
            then [CopyFile TEMPLATE_PROJECT (cwd "map.qgz")] else [])
        ++ [Popen ["qgis"; out_path report]]
    ∧ first_error effect_error (effects report) = None.
Proof.
  unfold main.
  destruct (parse_config_map fs (cwd (arg_config args)))
    as [[[label trs_list] d]|e] eqn:Hparse; cbn [bind]; [| done].
  destruct (filter_by_plssid_trs (read_file TOWNSHIP_GPKG) trs_list)
    as [T|e] eqn:HfT; cbn [bind]; [| done].
  destruct (empty T) eqn:HT; [done |].
  destruct (filter_by_plssid_trs (read_file SECTION_GPKG) trs_list)
    as [S1|e] eqn:HfS; cbn [bind]; [| done].
  destruct (select_sections_by_trs_and_numbers S1 d) as [S2|e] eqn:HsS;
    cbn [bind]; [| done].
  unfold dissolve_townships_for_clip at 1. rewrite HT. cbn [bind].
  cbn zeta.
  destruct (empty S2) eqn:HS2; cbn [bind].
  - destruct ((clip LARIMER_GPKG (explode (dissolve T)) "Larimer").2)
      as [L|e] eqn:HL; cbn [bind]; [| done].
    destruct ((clip WELD_GPKG (explode (dissolve T)) "Weld").2)
      as [W|e] eqn:HW; cbn [bind]; [| done].
    destruct (first_error effect_error _) as [e|] eqn:Herr; [done |].
    intros [= <-].
    cbn [townships_sel sections_all_tr sections_sel larimer_clipped weld_clipped
         larimer_sections_clipped weld_sections_clipped out_path effects].
    rewrite HS2. exists label, trs_list, d.
    split; [done |]. split; [done |]. split; [by apply empty_false_features |].
    split; [done |]. split; [done |]. split; [done |]. split; [done |].
    split; [done |]. split; [done |]. split; [done |]. split; [done |].
    exact Herr.
  - unfold dissolve_townships_for_clip. rewrite HS2. cbn [bind].
    destruct ((clip LARIMER_GPKG (explode (dissolve T)) "Larimer").2)
      as [L|e] eqn:HL; cbn [bind]; [| done].
    destruct ((clip WELD_GPKG (explode (dissolve T)) "Weld").2)
      as [W|e] eqn:HW; cbn [bind]; [| done].
    destruct ((clip LARIMER_GPKG (explode (dissolve S2)) "Larimer (sections)").2)
      as [LS|e] eqn:HLS; cbn [bind]; [| done].
    destruct ((clip WELD_GPKG (explode (dissolve S2)) "Weld (sections)").2)
      as [WS|e] eqn:HWS; cbn [bind]; [| done].
    destruct (first_error effect_error _) as [e|] eqn:Herr; [done |].
    intros [= <-].
    cbn [townships_sel sections_all_tr sections_sel larimer_clipped weld_clipped
         larimer_sections_clipped weld_sections_clipped out_path effects].
    rewrite HS2. exists label, trs_list, d.
    split; [done |]. split; [done |]. split; [by apply empty_false_features |].
    split; [done |]. split; [done |]. split; [done |]. split; [done |].
    split; [done |]. split; [done |]. split; [done |]. split; [done |].
    exact Herr.
Qed.

(** The three selections of a run that returns. *)
Lemma main_frames (args : Args) (report : Report Geometry CRS)
    (label : option string) (trs_list : list Key) (d : gmap Key (list N)) :
  parse_config_map fs (cwd (arg_config args)) = Ok (label, trs_list, d) →
  run args = Ok report →
  let townships_all := read_file TOWNSHIP_GPKG in
  let sections_all := read_file SECTION_GPKG in
  townships_sel report
  = {| columns := columns townships_all; crs := crs townships_all;
       features := List.filter (row_in_keys trs_list) (features townships_all) |}
  ∧ sections_all_tr report
    = {| columns := columns sections_all; crs := crs sections_all;
         features := List.filter (row_in_keys trs_list) (features sections_all) |}
  ∧ sections_sel report
    = {| columns := columns sections_all; crs := crs sections_all;
         features := List.filter (row_in_items (map_to_list d))
                       (List.filter (row_in_keys trs_list) (features sections_all)) |}.
Proof.
  intros Hparse Hrun. cbn zeta.
  destruct (main_ok_inv args report Hrun)
    as (label' & trs_list' & d' & Hparse' & HfT & _ & HfS & HsS & _).
  rewrite Hparse in Hparse'. injection Hparse' as <- <- <-.
  destruct (decide (PLSSID_FIELD_NAME ∈ columns (read_file TOWNSHIP_GPKG)))
    as [HcT|HcT]; [| by rewrite filter_by_plssid_trs_raise in HfT].
  rewrite (filter_by_plssid_trs_ok _ _ HcT) in HfT. injection HfT as HfT.
  destruct (decide (PLSSID_FIELD_NAME ∈ columns (read_file SECTION_GPKG)))
    as [HcS|HcS]; [| by rewrite filter_by_plssid_trs_raise in HfS].
  rewrite (filter_by_plssid_trs_ok _ _ HcS) in HfS. injection HfS as HfS.
  rewrite <- HfS in HsS.
  destruct (decide (FRSTDIVID_FIELD_NAME ∈ columns (read_file SECTION_GPKG)))
    as [HcF|HcF].
  - rewrite select_sections_ok in HsS by done. injection HsS as HsS. done.
  - unfold select_sections_by_trs_and_numbers in HsS. cbn [columns] in HsS.
    rewrite (bool_decide_eq_true_2 _ HcS) in HsS.
    by rewrite (bool_decide_eq_false_2 _ HcF) in HsS.
Qed.


(** X18: what a run that returns has selected. The townships are the
    rows of the townships layer that carry a key of the request, and
    there is at least one; the sections of the townships are the rows
    of the sections layer that carry a key; the target sections are
    the rows of the whole sections layer that are a listed section of
    a key, a sublist of the sections of the townships. Columns and
    coordinate systems are those of the layers read. *)
Theorem main_selection (args : Args) (report : Report Geometry CRS)
    (label : option string) (trs_list : list Key) (d : gmap Key (list N)) :
  parse_config_map fs (cwd (arg_config args)) = Ok (label, trs_list, d) →
  run args = Ok report →
  let townships_all := read_file TOWNSHIP_GPKG in
  let sections_all := read_file SECTION_GPKG in
  features (townships_sel report)
  = List.filter (row_in_keys trs_list) (features townships_all)
  ∧ features (townships_sel report) ≠ []
  ∧ features (sections_all_tr report)
    = List.filter (row_in_keys trs_list) (features sections_all)
  ∧ features (sections_sel report)
    = List.filter (row_in_items (map_to_list d)) (features sections_all)
  ∧ features (sections_sel report) `sublist_of` features (sections_all_tr report)
  ∧ columns (townships_sel report) = columns townships_all
  ∧ crs (townships_sel report) = crs townships_all
  ∧ columns (sections_sel report) = columns sections_all
  ∧ crs (sections_sel report) = crs sections_all.
Proof.
  intros Hparse Hrun. cbn zeta.
  destruct (main_frames args report label trs_list d Hparse Hrun)
    as (HT & HS1 & HS2).
  destruct (main_ok_inv args report Hrun) as (_ & _ & _ & _ & _ & Hne & _).
  rewrite HT, HS1, HS2 in *. cbn [features columns crs] in *.
  split; [done |]. split; [done |]. split; [done |]. split.
  { apply filter_filter_imp. intros f Hf.
    apply row_in_items_iff in Hf as (key & secs & s & Hkey & _ & Hm & _).
    apply row_in_keys_iff. exists key. split; [| done].
    apply (parse_trs_list_dom _ _ _ _ _ Hparse). by apply elem_of_dom_2 in Hkey. }
  split; [apply filter_sublist | done].
Qed.

(** X19: what a run that returns writes. The first layer written is
    [townships], in mode [w]; after it come, in this order and in mode
    [a], those of [sections], [sections_target], [larimer_parcels],
    [weld_parcels], [larimer_parcels_sections] and
    [weld_parcels_sections] whose frame has a row; all go to the one
    output path and no layer written is empty. The last thing the run
    does is start [qgis] on the output path, and it deletes a file
    only as its first step: the output path, when it was there. *)
Theorem main_layers (args : Args) (report : Report Geometry CRS) :
  run args = Ok report →
  layers_written (effects report)
  = (out_path report, "townships", "w", townships_sel report)
    :: List.filter (λ w, negb (empty w.2))
         [ (out_path report, "sections", "a", sections_all_tr report);
           (out_path report, "sections_target", "a", sections_sel report);
           (out_path report, "larimer_parcels", "a", larimer_clipped report);
           (out_path report, "weld_parcels", "a", weld_clipped report);
           (out_path report, "larimer_parcels_sections", "a",
            larimer_sections_clipped report);
           (out_path report, "weld_parcels_sections", "a",
            weld_sections_clipped report) ]
  ∧ map layer_name (layers_written (effects report)) `sublist_of` layer_names
  ∧ Forall (λ w, features w.2 ≠ []) (layers_written (effects report))
  ∧ last (effects report) = Some (Popen ["qgis"; out_path report])
  ∧ ∀ p, Unlink p ∈ effects report →
      p = out_path report ∧ path_exists p = true
      ∧ head (effects report) = Some (Unlink p).
Proof.
  intros Hrun.
  destruct (main_ok_inv args report Hrun)
    as (_ & _ & _ & _ & _ & Hne & _ & _ & _ & _ & _ & _ & _ & Heff & _).
  assert (layers_written (effects report)
    = (out_path report, "townships", "w", townships_sel report)
      :: List.filter (λ w, negb (empty w.2))
           [ (out_path report, "sections", "a", sections_all_tr report);
             (out_path report, "sections_target", "a", sections_sel report);
             (out_path report, "larimer_parcels", "a", larimer_clipped report);
             (out_path report, "weld_parcels", "a", weld_clipped report);
             (out_path report, "larimer_parcels_sections", "a",
              larimer_sections_clipped report);
             (out_path report, "weld_parcels_sections", "a",
              weld_sections_clipped report) ]) as Hlayers.
  { rewrite Heff, !layers_written_app, !layers_written_append_layer.
    repeat match goal with
      | |- context [List.filter ?p (?x :: ?y :: ?l)] =>
          rewrite (filter_cons_app p x (y :: l))
      end.
    destruct (path_exists (out_path report)), template_exists;
      cbn [layers_written omap app]; by rewrite ?app_nil_r. }
  split; [exact Hlayers |]. split; [| split; [| split]].
  - rewrite Hlayers.
    match goal with
    | |- context [List.filter ?p ?l] =>
        exact (sublist_skip _ _ _ (fmap_sublist layer_name _ _ (filter_sublist p l)))
    end.
  - rewrite Hlayers. constructor; [exact Hne |].
    apply Forall_forall. intros w Hw. apply elem_of_filter_bool in Hw as [_ Hw].
    apply negb_true_iff in Hw. by apply empty_false_features.
  - rewrite Heff, !app_assoc. apply last_snoc.
  - intros p Hin. rewrite Heff in Hin |- *.
    apply elem_of_app in Hin as [Hin|Hin].
    + destruct (path_exists (out_path report)) eqn:Hpe;
        [| by apply not_elem_of_nil in Hin].
      apply list_elem_of_singleton in Hin. injection Hin as ->. done.
    + exfalso. apply elem_of_cons in Hin as [Hin|Hin]; [done |].
      repeat (apply elem_of_app in Hin as [Hin|Hin];
              [by apply append_layer_no_unlink in Hin |]).
      apply elem_of_app in Hin as [Hin|Hin].
      * destruct template_exists; [| by apply not_elem_of_nil in Hin].
        by apply list_elem_of_singleton in Hin.
      * by apply list_elem_of_singleton in Hin.
Qed.

(** X20: a request without section numbers selects no target section,
    and a run without target sections makes no section-based clip: the
    two section-clipped frames are the empty frames built in place, with
    the system of the township-clipped frame when that has a row, and
    only [townships], [sections], [larimer_parcels] and [weld_parcels]
    can be written. *)
Theorem main_no_sections (args : Args) (report : Report Geometry CRS)
    (label : option string) (trs_list : list Key) (d : gmap Key (list N)) :
  parse_config_map fs (cwd (arg_config args)) = Ok (label, trs_list, d) →
  run args = Ok report →
  ((∀ key secs, d !! key = Some secs → secs = []) →
   features (sections_sel report) = [])
  ∧ (features (sections_sel report) = [] →
     larimer_sections_clipped report = placeholder no_crs (larimer_clipped report)
     ∧ weld_sections_clipped report = placeholder no_crs (weld_clipped report)
     ∧ map layer_name (layers_written (effects report))
       `sublist_of` ["townships"; "sections"; "larimer_parcels"; "weld_parcels"]).
Proof.
  intros Hparse Hrun. split.
  - intros Hnone.
    destruct (main_frames args report label trs_list d Hparse Hrun)
      as (_ & _ & ->).
    cbn [features]. apply filter_false. intros f.
    apply not_true_iff_false. intros Hf.
    apply row_in_items_iff in Hf as (key & secs & s & Hkey & Hs & _).
    rewrite (Hnone key secs Hkey) in Hs. by apply not_elem_of_nil in Hs.
  - intros Hempty. apply empty_features in Hempty.
    destruct (main_ok_inv args report Hrun)
      as (_ & _ & _ & _ & _ & _ & _ & _ & _ & _ & HL & HW & _ & Heff & _).
    rewrite Hempty in HL, HW. split; [exact HL |]. split; [exact HW |].
    rewrite Heff, !layers_written_app, !layers_written_append_layer, HL, HW.
    cbn [List.filter snd]. rewrite Hempty. cbn [empty placeholder features negb].
    destruct (path_exists (out_path report)), template_exists,
      (empty (sections_all_tr report)), (empty (larimer_clipped report)),
      (empty (weld_clipped report)); cbn; unfold layer_name; cbn;
      repeat constructor.
Qed.

(** X21: the name of the output of a run that returns: the [--output]
    value when there is one and it is not empty; else the area label
    followed by [_area_map.gpkg] when the request has a label (which is
    then never empty); else [area_map.gpkg]; in each case taken in the
    working directory. *)
Theorem main_out_path (args : Args) (report : Report Geometry CRS)
    (label : option string) (trs_list : list Key) (d : gmap Key (list N)) :
  parse_config_map fs (cwd (arg_config args)) = Ok (label, trs_list, d) →
  run args = Ok report →
  let derived :=
    match label with
    | Some c => c +:+ "_area_map.gpkg"
    | None => "area_map.gpkg"
    end in
  out_path report
  = cwd (match arg_output args with
         | Some name => if String.eqb name "" then derived else name
         | None => derived
         end)
  ∧ derived ≠ "_area_map.gpkg".
Proof.
  intros Hparse Hrun. cbn zeta.
  destruct (main_ok_inv args report Hrun)
    as (label' & trs_list' & d' & Hparse' & _ & _ & _ & _ & _ & _ & _ & _ & Hout & _).
  rewrite Hparse in Hparse'. injection Hparse' as <- <- <-.
  assert ((if truthy label then default "" label +:+ "_area_map" else "area_map")
          +:+ ".gpkg"
          = match label with
            | Some c => c +:+ "_area_map.gpkg"
            | None => "area_map.gpkg"
            end) as Hname.
  { destruct label as [c|]; [| done]. cbn [truthy default].
    destruct (String.eqb_spec c "") as [->|Hc].
    - by apply parse_label_nonempty in Hparse.
    - cbn [negb]. apply str_app_assoc. }
  split.
  - rewrite Hout, Hname. destruct (arg_output args) as [name|]; [| done].
    cbn [truthy default]. by destruct (String.eqb name "").
  - destruct label as [c|]; [| done]. intros Heq.
    apply (f_equal String.length) in Heq. rewrite string_length_app in Heq.
    apply parse_label_nonempty in Hparse. destruct c; [done |]. cbn in Heq. lia.
Qed.

End MainFacts.


Lemma main_selection_witness :
  ∃ report,
    toy_main scenario_text default_args = Ok report
    ∧ features (sections_sel report)
      = List.filter (row_in_items (map_to_list {[ (33, "N", 19, "W") := [10; 12] ]}))
          (features sample_sections)
    ∧ features (sections_sel report) `sublist_of` features (sections_all_tr report).
Proof.
  assert (parse_config_map (sample_fs scenario_text) (id (arg_config default_args))
    = Ok (Some "Larimer", [(33, "N", 19, "W")],
          {[ (33, "N", 19, "W") := [10; 12] ]})) as Hp.
  { lazymatch goal with |- _ = ?rhs => vm_cast_no_check (eq_refl rhs) end. }
  unfold toy_main.
  destruct (main _ _ _ _ _ _ _ _ _ _ _ default_args) as [report|e] eqn:Hrun;
    [| vm_compute in Hrun; discriminate].
  exists report. split; [reflexivity |].
  pose proof (main_selection toy_read_file toy_dissolve id toy_to_crs
    (λ gdf _, gdf) 0 (sample_fs scenario_text) (λ _, true) id true (λ _, None)
    default_args report (Some "Larimer"%string) [(33, "N"%string, 19, "W"%string)]
    {[ (33, "N"%string, 19, "W"%string) := [10; 12] ]} Hp Hrun) as Hsel.
  cbn zeta in Hsel. destruct Hsel as (_ & _ & _ & Hsel & Hsub & _).
  split; [exact Hsel | exact Hsub].
Defined.

Lemma main_layers_witness :
  ∃ report,
    toy_main scenario_text default_args = Ok report
    ∧ map layer_name (layers_written (effects report)) `sublist_of` layer_names
    ∧ Forall (λ w, features w.2 ≠ []) (layers_written (effects report))
    ∧ last (effects report) = Some (Popen ["qgis"; out_path report]).
Proof.
  unfold toy_main.
  destruct (main _ _ _ _ _ _ _ _ _ _ _ default_args) as [report|e] eqn:Hrun;
    [| vm_compute in Hrun; discriminate].
  exists report. split; [reflexivity |].
  destruct (main_layers toy_read_file toy_dissolve id toy_to_crs
    (λ gdf _, gdf) 0 (sample_fs scenario_text) (λ _, true) id true (λ _, None)
    default_args report Hrun) as (_ & Hnames & Hrows & Hlast & _).
  split; [exact Hnames |]. split; [exact Hrows | exact Hlast].
Defined.

Lemma main_no_sections_witness :
  ∃ report,
    toy_main townships_only_text default_args = Ok report
    ∧ features (sections_sel report) = []
    ∧ map layer_name (layers_written (effects report))
      `sublist_of` ["townships"; "sections"; "larimer_parcels"; "weld_parcels"].
Proof.
  assert (parse_config_map (sample_fs townships_only_text)
            (id (arg_config default_args))
    = Ok (None, [(5, "N", 66, "W")], {[ (5, "N", 66, "W") := [] ]})) as Hp.
  { lazymatch goal with |- _ = ?rhs => vm_cast_no_check (eq_refl rhs) end. }
  unfold toy_main.
  destruct (main _ _ _ _ _ _ _ _ _ _ _ default_args) as [report|e] eqn:Hrun;
    [| vm_compute in Hrun; discriminate].
  exists report. split; [reflexivity |].
  destruct (main_no_sections toy_read_file toy_dissolve id toy_to_crs
    (λ gdf _, gdf) 0 (sample_fs townships_only_text) (λ _, true) id true
    (λ _, None)
    default_args report None [(5, "N"%string, 66, "W"%string)]
    {[ (5, "N"%string, 66, "W"%string) := [] ]} Hp Hrun) as (Hnone & Hskip).
  assert (features (sections_sel report) = []) as Hempty.
  { apply Hnone. intros key secs Hkey.
    by apply lookup_singleton_Some in Hkey as [_ <-]. }
  split; [exact Hempty |]. exact (proj2 (proj2 (Hskip Hempty))).
Defined.

Lemma main_out_path_witness :
  ∃ report,
    toy_main scenario_text {| arg_config := "config.map"; arg_output := Some "" |}
    = Ok report
    ∧ out_path report = "Larimer_area_map.gpkg".
Proof.
  assert (parse_config_map (sample_fs scenario_text) (id "config.map")
    = Ok (Some "Larimer", [(33, "N", 19, "W")],
          {[ (33, "N", 19, "W") := [10; 12] ]})) as Hp.
  { lazymatch goal with |- _ = ?rhs => vm_cast_no_check (eq_refl rhs) end. }
  unfold toy_main.
  destruct (main _ _ _ _ _ _ _ _ _ _ _ _) as [report|e] eqn:Hrun;
    [| vm_compute in Hrun; discriminate].
  exists report. split; [reflexivity |].
  exact (proj1 (main_out_path toy_read_file toy_dissolve id toy_to_crs
    (λ gdf _, gdf) 0 (sample_fs scenario_text) (λ _, true) id true (λ _, None)
    {| arg_config := "config.map"; arg_output := Some "" |} report
    (Some "Larimer"%string) [(33, "N"%string, 19, "W"%string)]
    {[ (33, "N"%string, 19, "W"%string) := [10; 12] ]} Hp Hrun)).
Defined.
